(** * Protective-equipment video pipeline: a shallow embedding

    The repository is a small Express/Lambda backend in several near-identical
    deployment variants:

    - [backend/server.js]: the authenticated variant with usage logging
      (login, token check, frame pipeline, hands/gloves flags);
    - [backend/index.js]: the first, single-screenshot variant;
    - [backend/auth.js]: the stand-alone signup/login module;
    - the local variant and the Lambda variant, whose per-person records
      carry per-category confidences;
    - the Render variant, which removes its temporary files after a
      successful request.

    External collaborators (the image codec, the video transcoder, the cloud
    detector, the token and password libraries) are not part of the
    repository: they are the fields of the class [Collaborators], and every
    function of the embedding is parametric in them.  Effects are explicit: a
    computation maps a [World] (working folder, database) to an outcome, a
    new world and the list of effects it performed, in order. *)

From Stdlib Require Import ZArith QArith Qround Qabs Lia Bool.
From Stdlib Require Import Strings.String Strings.Ascii Strings.Byte.
From Stdlib Require Import DecimalString DecimalN.
From stdpp Require Import gmap strings list sorting.

Local Open Scope string_scope.
Local Open Scope Z_scope.

(** ** JavaScript values used by the pipeline *)

(** A Node [Buffer]: a sequence of bytes. *)
Definition Buffer : Type := list byte.

(** [buf.length] *)
Definition buffer_length (b : Buffer) : Z := Z.of_nat (length b).

(** The message carried by a JavaScript [Error]. *)
Definition Error : Type := string.

(** The state of a promise once it has settled; also used for synchronous
    library calls that either return or throw. *)
Inductive settled (A : Type) : Type :=
| Fulfilled (a : A)
| Rejected (e : Error).
Arguments Fulfilled {A} a.
Arguments Rejected {A} e.

(** What running a piece of code to completion yields.  [Diverged] stands for
    a loop that is still running when the fuel of the model is spent. *)
Inductive outcome (A : Type) : Type :=
| Returned (a : A)
| Threw (e : Error)
| Diverged.
Arguments Returned {A} a.
Arguments Threw {A} e.
Arguments Diverged {A}.

(** A value stored in a field of an object literal of the source. *)
Inductive JsValue : Type :=
| JNum (n : Z)
| JStr (s : string).

(** An object literal: its fields in the order the literal lists them. *)
Definition JsObject : Type := list (string * JsValue).

(** [obj[key]] *)
Fixpoint field (key : string) (obj : JsObject) : option JsValue :=
  match obj with
  | [] => None
  | (k, v) :: rest => if String.eqb k key then Some v else field key rest
  end.

(** [Object.keys(obj)] *)
Definition keys (obj : JsObject) : list string := map fst obj.

(** ** Strings *)

(** [s.endsWith(suffix)] *)
Definition endsWith (s suffix : string) : bool :=
  let n := String.length s in
  let m := String.length suffix in
  if (m <=? n)%nat then String.eqb (substring (n - m) m s) suffix else false.

(** [s.split(sep)] for a one-character separator: empty pieces are kept. *)
Fixpoint split_go (sep : ascii) (cur : string) (s : string) : list string :=
  match s with
  | EmptyString => [String.rev cur]
  | String c rest =>
      if Ascii.eqb c sep then String.rev cur :: split_go sep EmptyString rest
      else split_go sep (String c cur) rest
  end.

Definition split (sep : ascii) (s : string) : list string :=
  split_go sep EmptyString s.

(** Decimal digits of a natural number. *)
Definition decimal (n : N) : string := NilEmpty.string_of_uint (N.to_uint n).

(** Left-pad with zeros up to [width] characters. *)
Definition pad_zeros (width : nat) (s : string) : string :=
  string_of_list_ascii (repeat "0"%char (width - String.length s)) ++ s.

(** ** Numbers

    The detector's confidences arrive as JSON numbers: finite doubles, each
    of which is a rational.  [Q] holds them exactly. *)

(** [x.toFixed(2)] for a finite [x] below 1e21: the integer [n] closest to
    [100 * x] (the larger one on a tie) printed with two decimals. *)
Definition toFixed2 (x : Q) : string :=
  let negative := negb (Qle_bool 0 x) in
  let a := Qabs x in
  let n := Qfloor (a * 100 + (1 # 2))%Q in
  let m := pad_zeros 3 (decimal (Z.to_N n)) in
  let k := String.length m in
  (if negative then "-" else "")
    ++ substring 0 (k - 2) m ++ "." ++ substring (k - 2) 2 m.

(** Truthiness of an optional number: [undefined] and [0] are falsy. *)
Definition truthy (c : option Q) : bool :=
  match c with
  | Some q => negb (Qeq_bool q 0)
  | None => false
  end.

(** [c || 0] *)
Definition or_zero (c : option Q) : Q :=
  match c with
  | Some q => if Qeq_bool q 0 then 0%Q else q
  | None => 0%Q
  end.

(** [c ? c.toFixed(2) + '%' : 'N/A'] *)
Definition confidence_text (c : option Q) : string :=
  match c with
  | Some q => if truthy c then toFixed2 q ++ "%" else "N/A"
  | None => "N/A"
  end.

(** [flag ? 'true' : 'false'] *)
Definition flag_text (flag : bool) : string :=
  if flag then "true" else "false".

(** ** The detector's response *)

Record EquipmentDetection : Type := {
  ed_Type : string;
  ed_Confidence : option Q
}.

Record BodyPart : Type := {
  bp_Name : string;
  bp_Confidence : option Q;
  bp_EquipmentDetections : list EquipmentDetection
}.

Record Person : Type := {
  person_BodyParts : list BodyPart;
  person_Confidence : option Q
}.

Record DetectionResponse : Type := {
  Persons : list Person
}.

(** [{ 'Per-person results': perPersonResults }] *)
Record PPEResult : Type := {
  Per_person_results : list JsObject
}.

(** [{ file, ppeResult }] *)
Record FrameAnalysis : Type := {
  fa_file : string;
  fa_ppeResult : PPEResult
}.

(** ** Response normalisation ([analyzePPEInImage], the [forEach] body) *)

(** [person.BodyParts.some(bp => bp.Name === name)] *)
Definition part_detected (name : string) (person : Person) : bool :=
  existsb (fun bp => String.eqb (bp_Name bp) name) (person_BodyParts person).

(** [person.BodyParts.filter(bp => bp.Name === name)
      .some(bp => bp.EquipmentDetections.some(ed => ed.Type === type))] *)
Definition cover_detected (name type : string) (person : Person) : bool :=
  existsb
    (fun bp => existsb (fun ed => String.eqb (ed_Type ed) type)
                 (bp_EquipmentDetections bp))
    (filter (fun bp => String.eqb (bp_Name bp) name) (person_BodyParts person)).

(** [xs[0]], where a missing element and a stored [undefined] coincide. *)
Definition first_defined {A : Type} (xs : list (option A)) : option A :=
  match xs with
  | [] => None
  | x :: _ => x
  end.

(** [person.BodyParts.filter(bp => bp.Name === name).map(bp => bp.Confidence)[0]] *)
Definition part_confidence (name : string) (person : Person) : option Q :=
  first_defined
    (map bp_Confidence
       (filter (fun bp => String.eqb (bp_Name bp) name) (person_BodyParts person))).

(** [person.BodyParts.filter(bp => bp.Name === name)
      .map(bp => bp.EquipmentDetections[0]?.Confidence)[0]] *)
Definition cover_confidence (name : string) (person : Person) : option Q :=
  first_defined
    (map (fun bp => match bp_EquipmentDetections bp with
                    | [] => None
                    | ed :: _ => ed_Confidence ed
                    end)
       (filter (fun bp => String.eqb (bp_Name bp) name) (person_BodyParts person))).

(** ['Person detected': (person.Confidence || 0).toFixed(2) + '%'] *)
Definition person_detected_text (person : Person) : string :=
  toFixed2 (or_zero (person_Confidence person)) ++ "%".

(** The record built by [backend/server.js]. *)
Definition personResult_server (person : Person) (index : nat) : JsObject :=
  let faceDetected := part_detected "FACE" person in
  let faceMaskDetected := cover_detected "FACE" "FACE_COVER" person in
  let headDetected := part_detected "HEAD" person in
  let headCoverDetected := cover_detected "HEAD" "HEAD_COVER" person in
  let bodyDetected := part_detected "BODY" person in
  let protectiveVestDetected := cover_detected "BODY" "BODY_COVER" person in
  let handsDetected := part_detected "HAND" person in
  let glovesDetected := cover_detected "HAND" "HAND_COVER" person in
  [ ("Person ID", JNum (Z.of_nat index));
    ("Person detected", JStr (person_detected_text person));
    ("Face detected", JStr (flag_text faceDetected));
    ("Face mask detected", JStr (flag_text faceMaskDetected));
    ("Head detected", JStr (flag_text headDetected));
    ("Helmet detected", JStr (flag_text headCoverDetected));
    ("Protective vest detected", JStr (flag_text protectiveVestDetected));
    ("Hands detected", JStr (flag_text handsDetected));
    ("Gloves detected", JStr (flag_text glovesDetected)) ].

(** The record built by the Render variant (no hands, no gloves). *)
Definition personResult_render (person : Person) (index : nat) : JsObject :=
  let faceDetected := part_detected "FACE" person in
  let faceMaskDetected := cover_detected "FACE" "FACE_COVER" person in
  let headDetected := part_detected "HEAD" person in
  let headCoverDetected := cover_detected "HEAD" "HEAD_COVER" person in
  let bodyDetected := part_detected "BODY" person in
  let protectiveVestDetected := cover_detected "BODY" "BODY_COVER" person in
  [ ("Person ID", JNum (Z.of_nat index));
    ("Person detected", JStr (person_detected_text person));
    ("Face detected", JStr (flag_text faceDetected));
    ("Face mask detected", JStr (flag_text faceMaskDetected));
    ("Head detected", JStr (flag_text headDetected));
    ("Helmet detected", JStr (flag_text headCoverDetected));
    ("Protective vest detected", JStr (flag_text protectiveVestDetected)) ].

(** The record built by the local and the Lambda variants, which report
    per-category confidences. *)
Definition personResult_confidence (person : Person) (index : nat) : JsObject :=
  let faceDetected := part_detected "FACE" person in
  let faceMaskDetected := cover_detected "FACE" "FACE_COVER" person in
  let headDetected := part_detected "HEAD" person in
  let headCoverDetected := cover_detected "HEAD" "HEAD_COVER" person in
  let bodyDetected := part_detected "BODY" person in
  let protectiveVestDetected := cover_detected "BODY" "BODY_COVER" person in
  let headDetectedConfidence := part_confidence "HEAD" person in
  let headCoverConfidence := cover_confidence "HEAD" person in
  let faceMaskConfidence := cover_confidence "FACE" person in
  let protectiveVestConfidence := cover_confidence "BODY" person in
  let leftHandDetected := part_detected "LEFT_HAND" person in
  let leftHandCoverDetected := cover_detected "LEFT_HAND" "HAND_COVER" person in
  let rightHandDetected := part_detected "RIGHT_HAND" person in
  let rightHandCoverDetected := cover_detected "RIGHT_HAND" "HAND_COVER" person in
  [ ("Person ID", JNum (Z.of_nat index));
    ("Person detected", JStr (person_detected_text person));
    ("Face detected", JStr (flag_text faceDetected));
    ("Face mask detected", JStr (flag_text faceMaskDetected));
    ("Face mask detection confidence", JStr (confidence_text faceMaskConfidence));
    ("Head detected", JStr (flag_text headDetected));
    ("Helmet detected", JStr (flag_text headCoverDetected));
    ("Head detection confidence", JStr (confidence_text headDetectedConfidence));
    ("Helmet detection confidence", JStr (confidence_text headCoverConfidence));
    ("Protective vest detected", JStr (flag_text protectiveVestDetected));
    ("Protective vest detection confidence",
       JStr (confidence_text protectiveVestConfidence));
    ("Left hand detected", JStr (flag_text leftHandDetected));
    ("Left hand cover detected", JStr (flag_text leftHandCoverDetected));
    ("Right hand detected", JStr (flag_text rightHandDetected));
    ("Right hand cover detected", JStr (flag_text rightHandCoverDetected)) ].

(** [persons.forEach((person, index) => perPersonResults.push(...))] *)
Definition perPersonResults (personResult : Person -> nat -> JsObject)
    (persons : list Person) : list JsObject :=
  imap (fun index person => personResult person index) persons.

(** ** The world the handlers run in *)

Record UserRow : Type := {
  user_id : Z;
  username : string;
  email : string;
  password_hash : string
}.

(** A row of [Logs]; the [login_time] column is left out. *)
Record LogRow : Type := {
  log_user_id : Z;
  action : string;
  successful_requests : Z;
  failed_requests : Z
}.

(** The working folder of a handler (file name to contents) and the two
    tables.  [db_online = false] makes every query hand [err] to its
    callback. *)
Record World : Type := {
  folder : gmap string Buffer;
  Users : list UserRow;
  Logs : list LogRow;
  db_online : bool
}.

(** What [sharp(...)] is given: a path into the working folder or a buffer. *)
Inductive SharpInput : Type :=
| FromFile (name : string)
| FromBuffer (b : Buffer).

(** The effects a handler performs. *)
Inductive Event : Type :=
| JwtVerify (token : option string)
| FsMkdir
| FsExists (name : string)
| FsWriteFile (name : string)
| FsReaddir
| FsUnlink (name : string)
| FfmpegRun (video : string)
| SharpEncode (input : SharpInput) (width quality : Z)
| DetectCall (image : Buffer)
| DbQuery (sql : string)
| ConsoleLog (text : string)
| ConsoleError (text : string).

(** The stages of the frame pipeline: storing the upload, extracting frames,
    re-encoding, detection. *)
Definition pipeline_stage (ev : Event) : bool :=
  match ev with
  | FsMkdir | FsWriteFile _ | FsUnlink _ | FsReaddir | FsExists _ => true
  | FfmpegRun _ | SharpEncode _ _ _ | DetectCall _ => true
  | JwtVerify _ | DbQuery _ | ConsoleLog _ | ConsoleError _ => false
  end.

(** The libraries and services the repository calls. *)
Class Collaborators : Type := {
  (** the image codec: input bytes, target width and JPEG quality *)
  sharp_encode : Buffer -> Z -> Z -> settled Buffer;
  (** the cloud detector *)
  detectProtectiveEquipment : Buffer -> settled DetectionResponse;
  (** the transcoder run at one frame per second: the frames it writes *)
  ffmpeg_frames : Buffer -> settled (list Buffer);
  (** the transcoder asked for a single 640x480 screenshot *)
  ffmpeg_screenshot : Buffer -> settled Buffer;
  (** [jwt.verify(token, secret)]: the [user_id] of the payload *)
  jwt_verify : option string -> settled Z;
  (** [jwt.sign({ user_id }, secret, ...)] under a configured secret; the
      call throws when [process.env.JWT_SECRET] is unset, a deployment the
      model leaves out *)
  jwt_sign : Z -> string;
  (** the promise [bcrypt.compare(password, hash)]; the password is [None]
      when the request body holds no string under [password] *)
  bcrypt_compare : option string -> string -> settled bool
}.

(** ** Computations *)

Definition M (A : Type) : Type := World -> outcome A * World * list Event.

Definition ret {A : Type} (a : A) : M A := fun w => (Returned a, w, []).

Definition bind {A B : Type} (m : M A) (k : A -> M B) : M B := fun w =>
  match m w with
  | (Returned a, w1, t1) =>
      match k a w1 with
      | (o, w2, t2) => (o, w2, (t1 ++ t2)%list)
      end
  | (Threw e, w1, t1) => (Threw e, w1, t1)
  | (Diverged, w1, t1) => (Diverged, w1, t1)
  end.

Declare Scope js_scope.
Delimit Scope js_scope with js.
Notation "x <- m ;; k" := (bind m (fun x => k))
  (at level 100, m at next level, right associativity) : js_scope.
Notation "m ;; k" := (bind m (fun _ => k))
  (at level 100, right associativity) : js_scope.
Local Open Scope js_scope.

(** [throw e] *)
Definition throw {A : Type} (e : Error) : M A := fun w => (Threw e, w, []).

(** A loop that has not ended when the fuel is spent. *)
Definition diverge {A : Type} : M A := fun w => (Diverged, w, []).

(** [try { m } catch (error) { handler error }] *)
Definition try_catch {A : Type} (m : M A) (handler : Error -> M A) : M A := fun w =>
  match m w with
  | (Threw e, w1, t1) =>
      match handler e w1 with
      | (o, w2, t2) => (o, w2, (t1 ++ t2)%list)
      end
  | r => r
  end.

Definition emit (ev : Event) : M unit := fun w => (Returned tt, w, [ev]).

Definition get_world : M World := fun w => (Returned w, w, []).

Definition set_world (w' : World) : M unit := fun _ => (Returned tt, w', []).

(** [await p] *)
Definition await {A : Type} (p : settled A) : M A :=
  match p with
  | Fulfilled a => ret a
  | Rejected e => throw e
  end.

(** The three components of a run. *)
Definition result_of {A : Type} (r : outcome A * World * list Event) : outcome A :=
  fst (fst r).
Definition world_of {A : Type} (r : outcome A * World * list Event) : World :=
  snd (fst r).
Definition trace_of {A : Type} (r : outcome A * World * list Event) : list Event :=
  snd r.

Definition with_folder (w : World) (d : gmap string Buffer) : World :=
  {| folder := d; Users := Users w; Logs := Logs w; db_online := db_online w |}.

Definition with_Logs (w : World) (rows : list LogRow) : World :=
  {| folder := folder w; Users := Users w; Logs := rows; db_online := db_online w |}.

(** ** The file system calls *)

(** [fs.readdirSync(folder)]: libuv hands the names over already sorted
    bytewise. *)
Definition readdirSync (d : gmap string Buffer) : list string :=
  merge_sort String.le (map fst (map_to_list d)).

(** [fs.writeFileSync(path.join(folder, name), data)] *)
Definition writeFileSync (name : string) (data : Buffer) : M unit :=
  emit (FsWriteFile name) ;;
  w <- get_world ;;
  set_world (with_folder w (<[name := data]> (folder w))).

(** [fs.unlinkSync(path.join(folder, name))] *)
Definition unlinkSync (name : string) : M unit :=
  emit (FsUnlink name) ;;
  w <- get_world ;;
  match folder w !! name with
  | Some _ => set_world (with_folder w (delete name (folder w)))
  | None => throw "ENOENT: no such file or directory"
  end.

(** [names.forEach(name => fs.unlinkSync(...))] *)
Fixpoint unlink_each (names : list string) : M unit :=
  match names with
  | [] => ret tt
  | name :: rest => unlinkSync name ;; unlink_each rest
  end.

(** ** Shared helpers of the frame pipeline

    [extractFrames], [resizeAndCompressImage], [analyzePPEInImage] and
    [analyzePPEInFrames] are the same text in every variant that has them, up
    to the record each variant builds per person and to console output. *)

Record Variant : Type := {
  personResult : Person -> nat -> JsObject;
  chatty : bool
}.

Definition server_variant : Variant :=
  {| personResult := personResult_server; chatty := true |}.
Definition render_variant : Variant :=
  {| personResult := personResult_render; chatty := true |}.
Definition local_variant : Variant :=
  {| personResult := personResult_confidence; chatty := true |}.
Definition lambda_variant : Variant :=
  {| personResult := personResult_confidence; chatty := false |}.

(** [console.log(text)] in the variants that log. *)
Definition console_log (v : Variant) (text : string) : M unit :=
  if chatty v then emit (ConsoleLog text) else ret tt.

(** The name the transcoder gives frame [i] under the pattern
    [frame-%03d.png]. *)
Definition frame_name (i : nat) : string :=
  "frame-" ++ pad_zeros 3 (decimal (N.of_nat i)) ++ ".png".

(** The transcoder writing its frames, numbered from [i], into the folder. *)
Fixpoint write_frames (i : nat) (frames : list Buffer)
    (d : gmap string Buffer) : gmap string Buffer :=
  match frames with
  | [] => d
  | frame :: rest => write_frames (S i) rest (<[frame_name i := frame]> d)
  end.

(** [resizedImageBuffer.length / 1024 / 1024] *)
Definition fileSize (resizedImageBuffer : Buffer) : Q :=
  (inject_Z (buffer_length resizedImageBuffer) / 1024 / 1024)%Q.

(** [fileSize > 5] *)
Definition exceeds_ceiling (resizedImageBuffer : Buffer) : bool :=
  negb (Qle_bool (fileSize resizedImageBuffer) 5).

Section Pipeline.
Context {ext : Collaborators}.

(** [await sharp(input).resize({ width }).jpeg({ quality }).toBuffer()] *)
Definition sharp (input : SharpInput) (width quality : Z) : M Buffer :=
  emit (SharpEncode input width quality) ;;
  w <- get_world ;;
  match input with
  | FromFile name =>
      match folder w !! name with
      | Some bytes => await (sharp_encode bytes width quality)
      | None => throw "Input file is missing"
      end
  | FromBuffer b => await (sharp_encode b width quality)
  end.

(** The [while (fileSize > 5)] loop of [resizeAndCompressImage]. *)
Fixpoint resize_further (fuel : nat) (resizedImageBuffer : Buffer) : M Buffer :=
  if exceeds_ceiling resizedImageBuffer then
    match fuel with
    | O => diverge
    | S fuel' =>
        smaller <- sharp (FromBuffer resizedImageBuffer) 640 50 ;;
        resize_further fuel' smaller
    end
  else ret resizedImageBuffer.

Definition resizeAndCompressImage (fuel : nat) (imagePath : string) : M Buffer :=
  try_catch
    (resizedImageBuffer <- sharp (FromFile imagePath) 1280 80 ;;
     resize_further fuel resizedImageBuffer)
    (fun error =>
       emit (ConsoleError "Error resizing and compressing image:") ;;
       throw error).

Definition extractFrames (v : Variant) (videoPath : string) : M unit :=
  emit (FfmpegRun videoPath) ;;
  w <- get_world ;;
  match folder w !! videoPath with
  | None =>
      (if chatty v then emit (ConsoleError "Error extracting frames:") else ret tt) ;;
      throw "No such file or directory"
  | Some video =>
      match ffmpeg_frames video with
      | Fulfilled frames =>
          set_world (with_folder w (write_frames 1 frames (folder w))) ;;
          console_log v "All frames extracted successfully"
      | Rejected err =>
          (if chatty v then emit (ConsoleError "Error extracting frames:") else ret tt) ;;
          throw err
      end
  end.

Definition analyzePPEInImage (v : Variant) (imageBuffer : Buffer) : M PPEResult :=
  try_catch
    (emit (DetectCall imageBuffer) ;;
     ppeResult <- await (detectProtectiveEquipment imageBuffer) ;;
     console_log v "Full PPE detection result:" ;;
     ret {| Per_person_results := perPersonResults (personResult v) (Persons ppeResult) |})
    (fun error =>
       emit (ConsoleError "Error detecting PPE:") ;;
       throw error).

(** The [for (const file of files)] loop; [ppeData] is the array built so
    far. *)
Fixpoint analyze_each (v : Variant) (fuel : nat) (files : list string)
    (ppeData : list FrameAnalysis) : M (list FrameAnalysis) :=
  match files with
  | [] => ret ppeData
  | file :: rest =>
      resizedImageBuffer <- resizeAndCompressImage fuel file ;;
      ppeData' <- try_catch
        (ppeResult <- analyzePPEInImage v resizedImageBuffer ;;
         ret (ppeData ++ [{| fa_file := file; fa_ppeResult := ppeResult |}])%list)
        (fun error =>
           emit (ConsoleError ("Error detecting PPE in frame " ++ file ++ ":")) ;;
           ret ppeData) ;;
      analyze_each v fuel rest ppeData'
  end.

(** The frames [analyzePPEInFrames] iterates over. *)
Definition png_files (d : gmap string Buffer) : list string :=
  filter (fun file => endsWith file ".png") (readdirSync d).

Definition analyzePPEInFrames (v : Variant) (fuel : nat) : M (list FrameAnalysis) :=
  emit FsReaddir ;;
  w <- get_world ;;
  analyze_each v fuel (png_files (folder w)) [].

(** ** Requests and responses *)

(** [req.file] as the upload middleware leaves it. *)
Record UploadedFile : Type := {
  originalname : string;
  filename : string;
  buffer : Buffer
}.

Record UploadRequest : Type := {
  authorization : option string;
  file : option UploadedFile
}.

(** [req.body] of a login request.  [body_password] is [None] when the body
    has no [password] field or holds something other than a string there. *)
Record LoginRequest : Type := {
  body_username : string;
  body_password : option string
}.

(** The JSON bodies the handlers send. *)
Inductive Body : Type :=
| UploadOk (ppeData : list FrameAnalysis)   (* { success: true, ppeData } *)
| UploadRaw (ppeData : DetectionResponse)   (* { success: true, ppeData } *)
| Failure (error : string)                  (* { success: false, error } *)
| LoginOk (token : string)                  (* { success: true, token } *)
| ErrorOnly (error : string).               (* { error } *)

Record Response : Type := {
  status : Z;
  body : Body
}.

(** The [success] field of a body, if it has one. *)
Definition success (b : Body) : option bool :=
  match b with
  | UploadOk _ | UploadRaw _ | LoginOk _ => Some true
  | Failure _ => Some false
  | ErrorOnly _ => None
  end.

(** The [error] field of a body, if it has one. *)
Definition error_of (b : Body) : option string :=
  match b with
  | Failure e | ErrorOnly e => Some e
  | _ => None
  end.

(** The [token] field of a body, if it has one. *)
Definition token_of (b : Body) : option string :=
  match b with
  | LoginOk t => Some t
  | _ => None
  end.

(** [error.message || 'Error processing video'] *)
Definition message_or_default (error : Error) : string :=
  if String.eqb error "" then "Error processing video" else error.

(** [req.headers.authorization && req.headers.authorization.split(' ')[1]] *)
Definition bearer_token (authorization : option string) : option string :=
  match authorization with
  | None => None
  | Some header =>
      if String.eqb header "" then Some "" else split " " header !! 1%nat
  end.

(** ** The database calls

    [db.query] never throws into the handler: a failing statement reaches
    only its callback, which logs it.  Counters that SQL would leave [NULL]
    are kept as [0]. *)

(** [SELECT * FROM Users WHERE username = ?] *)
Definition select_user (name : string) : M (settled (list UserRow)) :=
  emit (DbQuery "SELECT * FROM Users WHERE username = ?") ;;
  w <- get_world ;;
  if db_online w
  then ret (Fulfilled (filter (fun u => String.eqb (username u) name) (Users w)))
  else ret (Rejected "Database error").

(** A statement that rewrites [Logs]; on failure its callback logs
    [complaint]. *)
Definition write_Logs (sql complaint : string)
    (change : list LogRow -> list LogRow) : M unit :=
  emit (DbQuery sql) ;;
  w <- get_world ;;
  if db_online w then set_world (with_Logs w (change (Logs w)))
  else emit (ConsoleError complaint).

(** A statement the database always refuses (its column list and its value
    list differ in length). *)
Definition refused_statement (sql complaint : string) : M unit :=
  emit (DbQuery sql) ;;
  emit (ConsoleError complaint).

Definition bump_successful (uid : Z) (rows : list LogRow) : list LogRow :=
  map (fun r =>
         if (log_user_id r =? uid) && String.eqb (action r) "upload"
         then {| log_user_id := log_user_id r; action := action r;
                 successful_requests := successful_requests r + 1;
                 failed_requests := failed_requests r |}
         else r) rows.

Definition bump_failed (uid : Z) (rows : list LogRow) : list LogRow :=
  map (fun r =>
         if (log_user_id r =? uid) && String.eqb (action r) "upload"
         then {| log_user_id := log_user_id r; action := action r;
                 successful_requests := successful_requests r;
                 failed_requests := failed_requests r + 1 |}
         else r) rows.

Definition login_row (uid : Z) : LogRow :=
  {| log_user_id := uid; action := "login";
     successful_requests := 0; failed_requests := 0 |}.

(** ** [backend/auth.js]

    The callback of [db.query] is an [async] function that nothing awaits and
    no [try] surrounds: when [await bcrypt.compare(...)] rejects, the callback
    ends with that error and no answer is sent.  In the model the handler
    then ends in [Threw]. *)

Definition login_auth (req : LoginRequest) : M Response :=
  result <- select_user (body_username req) ;;
  match result with
  | Rejected _ | Fulfilled [] =>
      ret {| status := 400; body := ErrorOnly "Invalid credentials" |}
  | Fulfilled (user :: _) =>
      passwordMatch <- await (bcrypt_compare (body_password req) (password_hash user)) ;;
      if negb passwordMatch
      then ret {| status := 400; body := ErrorOnly "Invalid credentials" |}
      else
        let token := jwt_sign (user_id user) in
        ret {| status := 200; body := LoginOk token |}
  end.

(** ** [backend/server.js]

    [login] has the same unguarded callback as in [backend/auth.js]; it
    signs the token before it writes the log row. *)

Definition login_server (req : LoginRequest) : M Response :=
  result <- select_user (body_username req) ;;
  match result with
  | Rejected _ | Fulfilled [] =>
      ret {| status := 400; body := ErrorOnly "Invalid credentials" |}
  | Fulfilled (user :: _) =>
      passwordMatch <- await (bcrypt_compare (body_password req) (password_hash user)) ;;
      if negb passwordMatch
      then ret {| status := 400; body := ErrorOnly "Invalid credentials" |}
      else
        let token := jwt_sign (user_id user) in
        write_Logs "INSERT INTO Logs (user_id, action, login_time) VALUES (?, ?, NOW())"
          "Error logging login:"
          (fun rows => rows ++ [login_row (user_id user)])%list ;;
        ret {| status := 200; body := LoginOk token |}
  end.

Definition upload_server (fuel : nat) (req : UploadRequest) : M Response :=
  let token := bearer_token (authorization req) in
  verified <- try_catch
    (emit (JwtVerify token) ;;
     uid <- await (jwt_verify token) ;;
     ret (inl uid))
    (fun err => ret (inr {| status := 401; body := Failure "Invalid token" |})) ;;
  match verified with
  | inr refusal => ret refusal
  | inl uid =>
      match file req with
      | None => ret {| status := 400; body := Failure "No file uploaded" |}
      | Some upload =>
          let videoBuffer := buffer upload in
          try_catch
            (emit FsMkdir ;;
             writeFileSync "uploaded_video.mp4" videoBuffer ;;
             extractFrames server_variant "uploaded_video.mp4" ;;
             ppeData <- analyzePPEInFrames server_variant fuel ;;
             write_Logs "UPDATE Logs SET successful_requests = successful_requests + 1 WHERE user_id = ? AND action = 'upload'"
               "Error updating successful requests:" (bump_successful uid) ;;
             ret {| status := 200; body := UploadOk ppeData |})
            (fun error =>
               emit (ConsoleError "Error processing video:") ;;
               write_Logs "UPDATE Logs SET failed_requests = failed_requests + 1 WHERE user_id = ? AND action = 'upload'"
                 "Error updating failed requests:" (bump_failed uid) ;;
               refused_statement "INSERT INTO Logs (user_id, action, login_time, failed_requests, successful_requests) VALUES (?, ?, NOW())"
                 "Error logging upload:" ;;
               ret {| status := 500; body := Failure (message_or_default error) |})
      end
  end.

(** ** The Render variant *)

Definition upload_render (fuel : nat) (req : UploadRequest) : M Response :=
  match file req with
  | None => ret {| status := 400; body := Failure "No file uploaded" |}
  | Some upload =>
      let videoBuffer := buffer upload in
      emit (ConsoleLog "Video uploaded:") ;;
      try_catch
        (emit (FsExists "") ;;
         emit FsMkdir ;;
         let videoPath := originalname upload in
         writeFileSync videoPath videoBuffer ;;
         emit (ConsoleLog "Video saved at:") ;;
         extractFrames render_variant videoPath ;;
         ppeData <- analyzePPEInFrames render_variant fuel ;;
         unlinkSync videoPath ;;
         emit FsReaddir ;;
         w <- get_world ;;
         unlink_each (readdirSync (folder w)) ;;
         ret {| status := 200; body := UploadOk ppeData |})
        (fun error =>
           emit (ConsoleError "Error processing video:") ;;
           ret {| status := 500; body := Failure (message_or_default error) |})
  end.

(** ** The local variant

    The upload middleware stores the file on disk under its original name
    before the handler runs. *)

Definition upload_local (fuel : nat) (req : UploadRequest) : M Response :=
  match file req with
  | None => throw "TypeError: Cannot read properties of undefined (reading 'filename')"
  | Some upload =>
      let videoPath := filename upload in
      emit (ConsoleLog "Video uploaded:") ;;
      try_catch
        (emit (FsExists "") ;;
         extractFrames local_variant videoPath ;;
         ppeData <- analyzePPEInFrames local_variant fuel ;;
         ret {| status := 200; body := UploadOk ppeData |})
        (fun error =>
           emit (ConsoleError "Error processing video:") ;;
           ret {| status := 500; body := Failure (message_or_default error) |})
  end.

(** ** [backend/index.js] *)

(** [analyzePPEInImage(imagePath)] of this variant: the detector's answer is
    handed back as it is. *)
Definition analyzePPEInImage_index (imagePath : string) : M DetectionResponse :=
  w <- get_world ;;
  match folder w !! imagePath with
  | None => throw "ENOENT: no such file or directory"
  | Some image =>
      try_catch
        (emit (DetectCall image) ;;
         await (detectProtectiveEquipment image))
        (fun error =>
           emit (ConsoleError "Error detecting PPE with Rekognition:") ;;
           throw error)
  end.

Definition upload_index (req : UploadRequest) : M Response :=
  match file req with
  | None => throw "TypeError: Cannot read properties of undefined (reading 'filename')"
  | Some upload =>
      let videoPath := filename upload in
      let framePath := default "" (split "." (filename upload) !! 0%nat) ++ "_frame.jpg" in
      try_catch
        (emit (FsExists videoPath) ;;
         w <- get_world ;;
         match folder w !! videoPath with
         | None =>
             emit (ConsoleError "Uploaded video not found:") ;;
             ret {| status := 400; body := Failure "Uploaded video not found" |}
         | Some video =>
             emit (FfmpegRun videoPath) ;;
             match ffmpeg_screenshot video with
             | Rejected err =>
                 emit (ConsoleError "Error extracting frame:") ;;
                 ret {| status := 500; body := Failure "Error processing video" |}
             | Fulfilled frame =>
                 set_world (with_folder w (<[framePath := frame]> (folder w))) ;;
                 emit (ConsoleLog "Frame extraction completed:") ;;
                 try_catch
                   (ppeData <- analyzePPEInImage_index framePath ;;
                    ret {| status := 200; body := UploadRaw ppeData |})
                   (fun error =>
                      emit (ConsoleError "Error detecting PPE:") ;;
                      ret {| status := 500; body := Failure "Error detecting PPE" |})
             end
         end)
        (fun error =>
           emit (ConsoleError "Error processing video:") ;;
           ret {| status := 500; body := Failure "Error processing video" |})
  end.

End Pipeline.

(** ** Signup ([backend/server.js], [backend/auth.js]) *)

Record SignupRequest : Type := {
  new_username : string;
  new_email : string;
  new_password : string
}.

(** The JSON bodies [signup] sends. *)
Inductive SignupBody : Type :=
| Registered                      (* { success: true, message: 'User registered' } *)
| SignupError (error : string).   (* { error } *)

Record SignupResponse : Type := {
  signup_status : Z;
  signup_body : SignupBody
}.

(** What the repository leaves to the database: which rows the [Users]
    table accepts (its constraints) and the [user_id] it gives a new row. *)
Record UsersTable : Type := {
  accepts : list UserRow -> UserRow -> bool;
  next_user_id : list UserRow -> Z
}.

Definition with_Users (w : World) (rows : list UserRow) : World :=
  {| folder := folder w; Users := rows; Logs := Logs w; db_online := db_online w |}.

(** [INSERT INTO Users (username, email, password_hash) VALUES (?, ?, ?)]:
    what its callback receives as [err]. *)
Definition insert_user (table : UsersTable) (name mail hashedPassword : string)
    : M (settled unit) :=
  emit (DbQuery "INSERT INTO Users (username, email, password_hash) VALUES (?, ?, ?)") ;;
  w <- get_world ;;
  let row := {| user_id := next_user_id table (Users w); username := name;
                email := mail; password_hash := hashedPassword |} in
  if db_online w && accepts table (Users w) row
  then set_world (with_Users w (Users w ++ [row])%list) ;; ret (Fulfilled tt)
  else ret (Rejected "Database error").

(** [signup] of [backend/auth.js]; [hash] is [bcrypt.hash(_, 10)] with the
    salt this call draws. *)
Definition signup_auth (table : UsersTable) (hash : string -> string)
    (req : SignupRequest) : M SignupResponse :=
  let hashedPassword := hash (new_password req) in
  inserted <- insert_user table (new_username req) (new_email req) hashedPassword ;;
  match inserted with
  | Rejected _ => ret {| signup_status := 500; signup_body := SignupError "Database error" |}
  | Fulfilled _ => ret {| signup_status := 200; signup_body := Registered |}
  end.

(** [signup] of [backend/server.js]. *)
Definition signup_server (table : UsersTable) (hash : string -> string)
    (req : SignupRequest) : M SignupResponse :=
  result <- select_user (new_username req) ;;
  match result with
  | Rejected _ =>
      ret {| signup_status := 500; signup_body := SignupError "Database error" |}
  | Fulfilled (_ :: _) =>
      ret {| signup_status := 400; signup_body := SignupError "User already exists" |}
  | Fulfilled [] =>
      let hashedPassword := hash (new_password req) in
      inserted <- insert_user table (new_username req) (new_email req) hashedPassword ;;
      match inserted with
      | Rejected _ =>
          ret {| signup_status := 500; signup_body := SignupError "Database error" |}
      | Fulfilled _ => ret {| signup_status := 200; signup_body := Registered |}
      end
  end.

(** ** The Lambda variant *)

(** The part of the S3 notification the handler reads. *)
Record S3Event : Type := {
  bucket_name : string;
  object_key : string
}.

(** [{ statusCode, body: JSON.stringify(...) }] *)
Record LambdaResult : Type := {
  statusCode : Z;
  result_body : Body
}.

(** [key.replace(/\+/g, ' ')] *)
Fixpoint plus_to_space (s : string) : string :=
  match s with
  | EmptyString => EmptyString
  | String c rest =>
      String (if Ascii.eqb c "+" then " "%char else c) (plus_to_space rest)
  end.

(** Dropping the leading characters equal to [c]. *)
Fixpoint skip_char (c : ascii) (s : string) : string :=
  match s with
  | EmptyString => EmptyString
  | String x rest => if Ascii.eqb x c then skip_char c rest else s
  end.

(** The characters before the first [c]. *)
Fixpoint up_to_char (c : ascii) (s : string) : string :=
  match s with
  | EmptyString => EmptyString
  | String x rest => if Ascii.eqb x c then EmptyString else String x (up_to_char c rest)
  end.

(** [path.basename(p)]: trailing slashes are skipped, then the last segment
    is taken. *)
Definition basename (p : string) : string :=
  String.rev (up_to_char "/" (skip_char "/" (String.rev p))).

Section Lambda.
Context {ext : Collaborators}.
(** [s3.getObject({ Bucket, Key }).promise()]: the object's body. *)
Variable s3_getObject : string -> string -> settled Buffer.
(** [decodeURIComponent], which throws on a malformed escape. *)
Variable decodeURIComponent : string -> settled string.

(** [exports.handler]; its working folder is [/tmp].  The video is written
    to [/tmp/] followed by the base name of the key: for an empty base name,
    [.] or [..] that path is a directory and [fs.writeFileSync] throws. *)
Definition handler (fuel : nat) (event : S3Event) : M LambdaResult :=
  let bucket := bucket_name event in
  key <- await (decodeURIComponent (plus_to_space (object_key event))) ;;
  let videoPath := basename key in
  try_catch
    (videoData <- await (s3_getObject bucket key) ;;
     (if String.eqb videoPath "" || String.eqb videoPath "." || String.eqb videoPath ".."
      then throw "EISDIR: illegal operation on a directory, open"
      else writeFileSync videoPath videoData) ;;
     extractFrames lambda_variant videoPath ;;
     ppeData <- analyzePPEInFrames lambda_variant fuel ;;
     emit (ConsoleLog "PPE data:") ;;
     ret {| statusCode := 200; result_body := UploadOk ppeData |})
    (fun error =>
       emit (ConsoleError "Error processing video:") ;;
       ret {| statusCode := 500; result_body := Failure error |}).

End Lambda.

(** ** Model collaborators and worlds

    Small stand-ins for the external services, used to run the handlers on
    concrete requests. *)

(** A detected person wearing a face cover, a helmet and gloves, but no
    vest.  The detector is unsure about the head: confidence 0. *)
Definition worker : Person :=
  {| person_BodyParts :=
       [ {| bp_Name := "FACE"; bp_Confidence := Some (995 # 10)%Q;
            bp_EquipmentDetections :=
              [ {| ed_Type := "FACE_COVER"; ed_Confidence := Some (9125 # 100)%Q |} ] |};
         {| bp_Name := "HEAD"; bp_Confidence := Some 0%Q;
            bp_EquipmentDetections :=
              [ {| ed_Type := "HEAD_COVER"; ed_Confidence := Some 0%Q |} ] |};
         {| bp_Name := "HAND"; bp_Confidence := Some (80 # 1)%Q;
            bp_EquipmentDetections :=
              [ {| ed_Type := "HAND_COVER"; ed_Confidence := Some (75 # 1)%Q |} ] |} ];
     person_Confidence := None |}.

(** A person reported with confidences that are all 0 or missing. *)
Definition faint_person : Person :=
  {| person_BodyParts :=
       [ {| bp_Name := "FACE"; bp_Confidence := None;
            bp_EquipmentDetections :=
              [ {| ed_Type := "FACE_COVER"; ed_Confidence := None |} ] |};
         {| bp_Name := "HEAD"; bp_Confidence := Some 0%Q;
            bp_EquipmentDetections :=
              [ {| ed_Type := "HEAD_COVER"; ed_Confidence := Some (0 # 4)%Q |} ] |};
         {| bp_Name := "BODY"; bp_Confidence := Some (60 # 1)%Q;
            bp_EquipmentDetections := [] |} ];
     person_Confidence := None |}.

(** A person the detector reports without any body part. *)
Definition bystander : Person :=
  {| person_BodyParts := []; person_Confidence := Some (5 # 2)%Q |}.

(** The demo detector refuses an image that is empty or starts with a zero
    byte and otherwise sees one worker. *)
Definition demo_detect (image : Buffer) : settled DetectionResponse :=
  match image with
  | [] => Rejected "InvalidImageFormatException"
  | b :: _ =>
      if Byte.eqb b x00 then Rejected "InvalidImageFormatException"
      else Fulfilled {| Persons := [worker] |}
  end.

(** The demo transcoder: one second, hence one frame, per byte of video. *)
Definition demo_frames (video : Buffer) : settled (list Buffer) :=
  Fulfilled (map (fun b => [b]) video).

Definition demo_verify (token : option string) : settled Z :=
  match token with
  | Some t => if String.eqb t "alice-token" then Fulfilled 1 else Rejected "invalid token"
  | None => Rejected "jwt must be provided"
  end.

Definition demo_compare (password : option string) (hash : string) : settled bool :=
  match password with
  | Some text => Fulfilled (String.eqb hash ("bcrypt:" ++ text))
  | None => Rejected "data and hash arguments required"
  end.

Definition demo : Collaborators :=
  {| sharp_encode := fun bytes _ _ => Fulfilled bytes;
     detectProtectiveEquipment := demo_detect;
     ffmpeg_frames := demo_frames;
     ffmpeg_screenshot := fun video => Fulfilled (take 1 video);
     jwt_verify := demo_verify;
     jwt_sign := fun uid => "token-" ++ decimal (Z.to_N uid);
     bcrypt_compare := demo_compare |}.

(** Six megabytes of encoded image. *)
Definition six_megabytes : Buffer := repeat x00 (Z.to_nat (6 * 1024 * 1024)).

(** A codec facing a frame so tall that even at width 640 and quality 50 its
    JPEG takes six megabytes. *)
Definition tall_frame_codec : Collaborators :=
  {| sharp_encode := fun _ _ _ => Fulfilled six_megabytes;
     detectProtectiveEquipment := demo_detect;
     ffmpeg_frames := demo_frames;
     ffmpeg_screenshot := fun video => Fulfilled (take 1 video);
     jwt_verify := demo_verify;
     jwt_sign := fun uid => "token-" ++ decimal (Z.to_N uid);
     bcrypt_compare := demo_compare |}.

(** A codec whose first pass is six megabytes and whose pass at width 640
    is a few bytes. *)
Definition shrinking_codec : Collaborators :=
  {| sharp_encode := fun _ width _ =>
       if width =? 1280 then Fulfilled six_megabytes
       else Fulfilled [xff; xd8; xff; xd9];
     detectProtectiveEquipment := demo_detect;
     ffmpeg_frames := demo_frames;
     ffmpeg_screenshot := fun video => Fulfilled (take 1 video);
     jwt_verify := demo_verify;
     jwt_sign := fun uid => "token-" ++ decimal (Z.to_N uid);
     bcrypt_compare := demo_compare |}.

Definition alice : UserRow :=
  {| user_id := 1; username := "alice"; email := "alice@example.org";
     password_hash := "bcrypt:correct horse" |}.

(** A freshly started server: empty working folder, one registered user. *)
Definition fresh_world : World :=
  {| folder := ∅; Users := [alice]; Logs := []; db_online := true |}.

(** A working folder holding one extracted frame. *)
Definition one_frame_world : World :=
  {| folder := {[ "frame-001.png" := [x89; x50; x4e; x47] ]};
     Users := [alice]; Logs := []; db_online := true |}.

(** A three-second upload whose second frame the demo detector refuses. *)
Definition three_second_video : UploadedFile :=
  {| originalname := "site.mp4"; filename := "site.mp4";
     buffer := [x01; x00; x02] |}.

(** A two-second upload. *)
Definition two_second_video : UploadedFile :=
  {| originalname := "gate.mp4"; filename := "gate.mp4";
     buffer := [x03; x04] |}.

(** An upload request carrying Alice's token. *)
Definition upload_of (video : UploadedFile) : UploadRequest :=
  {| authorization := Some "Bearer alice-token"; file := Some video |}.

(** The same request with no file attached. *)
Definition no_file_request : UploadRequest :=
  {| authorization := Some "Bearer alice-token"; file := None |}.

(** The working folder of [backend/server.js] once the three-second upload
    has been stored and its frames extracted. *)
Definition three_frames_world : World :=
  with_folder fresh_world
    (write_frames 1 [[x01]; [x00]; [x02]]
       (<["uploaded_video.mp4" := [x01; x00; x02]]> ∅)).

(** How long an upload lasts for the demo transcoder: one second per
    byte. *)
Definition demo_duration_seconds (video : UploadedFile) : nat :=
  length (buffer video).

(** Alice logging in with her password. *)
Definition alice_login : LoginRequest :=
  {| body_username := "alice"; body_password := Some "correct horse" |}.

(** Three attempts that do not know it. *)
Definition wrong_attempts : list LoginRequest :=
  [ {| body_username := "alice"; body_password := Some "hunter2" |};
    {| body_username := "alice"; body_password := Some "123456" |};
    {| body_username := "mallory"; body_password := Some "correct horse" |} ].

(** A [Users] table without constraints, numbering its rows from 1. *)
Definition plain_table : UsersTable :=
  {| accepts := fun _ _ => true;
     next_user_id := fun rows => 1 + Z.of_nat (length rows) |}.

(** The hashing the demo comparison recognises. *)
Definition demo_hash (password : string) : string := "bcrypt:" ++ password.

(** Bob signing up. *)
Definition bob_signup : SignupRequest :=
  {| new_username := "bob"; new_email := "bob@example.org";
     new_password := "tr0ub4dor" |}.

(** Somebody signing up under Alice's name. *)
Definition alice_again : SignupRequest :=
  {| new_username := "alice"; new_email := "eve@example.org";
     new_password := "let me in" |}.

(** The demo object store and key decoding of the Lambda variant. *)
Definition demo_getObject (bucket key : string) : settled Buffer :=
  if String.eqb key "videos/site visit.mp4" then Fulfilled [x01; x00; x02]
  else Rejected "NoSuchKey".

Definition demo_decode (s : string) : settled string :=
  if existsb (Ascii.eqb "%") (list_ascii_of_string s)
  then Rejected "URI malformed" else Fulfilled s.

(** ** Vocabulary of the properties *)

(** How awaiting a settled promise ends. *)
Definition settle {A : Type} (p : settled A) : outcome A :=
  match p with
  | Fulfilled a => Returned a
  | Rejected e => Threw e
  end.

(** The images handed to the detector, in call order. *)
Definition detect_calls (trace : list Event) : list Buffer :=
  omap (fun ev => match ev with DetectCall image => Some image | _ => None end) trace.

(** The buffer [resizeAndCompressImage] returns for a frame, if it returns. *)
Definition resized_frame {ext : Collaborators} (fuel : nat) (w : World)
    (file : string) : option Buffer :=
  match result_of (resizeAndCompressImage fuel file w) with
  | Returned resized => Some resized
  | _ => None
  end.

(** The entry a frame contributes to the aggregate: none when its detector
    call is rejected. *)
Definition analysed {ext : Collaborators} (v : Variant) (fuel : nat) (w : World)
    (file : string) : option FrameAnalysis :=
  match resized_frame fuel w file with
  | Some resized =>
      match detectProtectiveEquipment resized with
      | Fulfilled ppeResult =>
          Some {| fa_file := file;
                  fa_ppeResult :=
                    {| Per_person_results :=
                         perPersonResults (personResult v) (Persons ppeResult) |} |}
      | Rejected _ => None
      end
  | None => None
  end.

(** A run preceded by the effects [t1]. *)
Definition prepend {A : Type} (t1 : list Event)
    (r : outcome A * World * list Event) : outcome A * World * list Event :=
  (result_of r, world_of r, (t1 ++ trace_of r)%list).

(** [fits_after n first out]: the buffer [first] needs [n] rounds of
    re-encoding at width 640 and quality 50 to get within the ceiling, and
    [out] is the buffer the last round gives ([first] itself when [n] is
    0). *)
Inductive fits_after {ext : Collaborators} : nat -> Buffer -> Buffer -> Prop :=
| fits_at_once (b : Buffer) :
    exceeds_ceiling b = false -> fits_after 0 b b
| fits_one_round_later (n : nat) (b smaller out : Buffer) :
    exceeds_ceiling b = true ->
    sharp_encode b 640 50 = Fulfilled smaller ->
    fits_after n smaller out ->
    fits_after (S n) b out.

(** Login requests handled one after the other. *)
Fixpoint login_attempts (login : LoginRequest -> M Response)
    (reqs : list LoginRequest) : M (list Response) :=
  match reqs with
  | [] => ret []
  | req :: rest =>
      response <- login req ;;
      responses <- login_attempts login rest ;;
      ret (response :: responses)
  end.

(** The password of the request matches no stored hash for its username. *)
Definition wrong_password {ext : Collaborators} (w : World) (req : LoginRequest) : Prop :=
  forall u, u ∈ Users w -> username u = body_username req ->
            bcrypt_compare (body_password req) (password_hash u) = Fulfilled false.

(** The categories the data model lists for a per-person record. *)
Inductive Category : Type :=
| OfFace | OfFaceCover | OfHead | OfHeadCover | OfBody | OfBodyCover | OfHandCover.

Definition all_categories : list Category :=
  [OfFace; OfFaceCover; OfHead; OfHeadCover; OfBody; OfBodyCover; OfHandCover].

(** A presence flag, as the records carry it: the text ['true'] or
    ['false']. *)
Definition is_flag (v : JsValue) : bool :=
  match v with
  | JStr s => String.eqb s "true" || String.eqb s "false"
  | JNum _ => false
  end.

(** A confidence entry: a percentage text or ['N/A']. *)
Definition is_confidence (v : JsValue) : bool :=
  match v with
  | JStr s => endsWith s "%" || String.eqb s "N/A"
  | JNum _ => false
  end.

(** A record holds, for every category, a flag and a confidence entry of
    its own: fourteen distinct fields. *)
Definition covers_every_category (record : JsObject) : Prop :=
  exists flag_key confidence_key : Category -> string,
    NoDup (map flag_key all_categories ++ map confidence_key all_categories)%list
    /\ forall c,
         (exists v, field (flag_key c) record = Some v /\ is_flag v = true)
         /\ (exists v, field (confidence_key c) record = Some v
                       /\ is_confidence v = true).

(** The detector reports a body part named [name] for the person. *)
Definition has_part (name : string) (person : Person) : Prop :=
  exists bp, bp ∈ person_BodyParts person /\ bp_Name bp = name.

(** The detector reports equipment of type [type] on a body part named
    [name]. *)
Definition has_cover (name type : string) (person : Person) : Prop :=
  exists bp ed,
    bp ∈ person_BodyParts person /\ bp_Name bp = name
    /\ ed ∈ bp_EquipmentDetections bp /\ ed_Type ed = type.

(** Under [key] the record holds the text ['true'] when [P] holds and the
    text ['false'] when it does not. *)
Definition flag_says (record : JsObject) (key : string) (P : Prop) : Prop :=
  (P /\ field key record = Some (JStr "true"))
  \/ (~ P /\ field key record = Some (JStr "false")).

(** What every variant stores for a person: the index, the person's own
    confidence as a percentage with two decimals (0 when the detector gives
    none) and the flags for face, face mask, head, helmet and protective
    vest. *)
Definition shared_fields (record : JsObject) (person : Person) (index : nat) : Prop :=
  field "Person ID" record = Some (JNum (Z.of_nat index))
  /\ field "Person detected" record
     = Some (JStr (toFixed2 (or_zero (person_Confidence person)) ++ "%"))
  /\ flag_says record "Face detected" (has_part "FACE" person)
  /\ flag_says record "Face mask detected" (has_cover "FACE" "FACE_COVER" person)
  /\ flag_says record "Head detected" (has_part "HEAD" person)
  /\ flag_says record "Helmet detected" (has_cover "HEAD" "HEAD_COVER" person)
  /\ flag_says record "Protective vest detected"
       (has_cover "BODY" "BODY_COVER" person).

(** No field of [record] outside [entries] holds a confidence entry. *)
Definition confidence_entries_among (record : JsObject) (entries : list string)
    : Prop :=
  forall key v, field key record = Some v -> is_confidence v = true -> key ∈ entries.

(** A confidence the conditional of the source treats as absent. *)
Definition zero_or_missing (c : option Q) : Prop :=
  match c with
  | Some q => (q == 0)%Q
  | None => True
  end.

(** A codec that refuses every image. *)
Definition refusing_codec : Collaborators :=
  {| sharp_encode := fun _ _ _ => Rejected "Input buffer contains unsupported image format";
     detectProtectiveEquipment := demo_detect;
     ffmpeg_frames := demo_frames;
     ffmpeg_screenshot := fun video => Fulfilled (take 1 video);
     jwt_verify := demo_verify;
     jwt_sign := fun uid => "token-" ++ decimal (Z.to_N uid);
     bcrypt_compare := demo_compare |}.

(** Every run of [m] leaves the world related to the one it started in. *)
Definition respects {A : Type} (R : World -> World -> Prop) (m : M A) : Prop :=
  forall w, R w (world_of (m w)).

(** No file of the working folder disappears. *)
Definition keeps_files (w w' : World) : Prop :=
  forall name, is_Some (folder w !! name) -> is_Some (folder w' !! name).

(** What an upload may do to a row of [Logs]: leave it as it is or, when
    its action is ['upload'], raise its counters. *)
Definition counters_raised (r r' : LogRow) : Prop :=
  r' = r
  \/ (action r = "upload"
      /\ log_user_id r' = log_user_id r
      /\ action r' = "upload"
      /\ successful_requests r <= successful_requests r'
      /\ failed_requests r <= failed_requests r').

(** Users and the connection stay, no row of [Logs] is added or removed,
    and every row is left as it is or, when its action is ['upload'], has
    its counters raised. *)
Definition only_upload_counters (w w' : World) : Prop :=
  Users w' = Users w
  /\ db_online w' = db_online w
  /\ Forall2 counters_raised (Logs w) (Logs w').

(** The tables and the connection are as they were; the folder may
    differ. *)
Definition same_tables (w w' : World) : Prop :=
  Users w' = Users w /\ Logs w' = Logs w /\ db_online w' = db_online w.

(** What a run of the [try] block of the upload handler of
    [backend/server.js], started in [w] for the user [uid], does to the
    tables: it touches [Logs] only when it returns, and then it has sent 200
    and raised the success counters. *)
Definition counts_success (uid : Z) (w : World)
    (run : outcome Response * World * list Event) : Prop :=
  Users (world_of run) = Users w
  /\ db_online (world_of run) = db_online w
  /\ match result_of run with
     | Returned response =>
         status response = 200
         /\ Logs (world_of run)
            = (if db_online w then bump_successful uid (Logs w) else Logs w)
     | _ => Logs (world_of run) = Logs w
     end.

(** A [Logs] table with an ['upload'] row for each of two users and a
    ['login'] row. *)
Definition counting_world : World :=
  {| folder := ∅; Users := [alice];
     Logs := [ {| log_user_id := 1; action := "upload";
                  successful_requests := 4; failed_requests := 0 |};
               login_row 1;
               {| log_user_id := 2; action := "upload";
                  successful_requests := 7; failed_requests := 1 |} ];
     db_online := true |}.

(** Whatever [m] returns satisfies [P]. *)
Definition returns_only {A : Type} (P : A -> Prop) (m : M A) : Prop :=
  forall w a, result_of (m w) = Returned a -> P a.

(** [m] never throws, and whatever it returns satisfies [P]. *)
Definition answers {A : Type} (P : A -> Prop) (m : M A) : Prop :=
  forall w,
    match result_of (m w) with
    | Returned a => P a
    | Threw _ => False
    | Diverged => True
    end.


(** The re-encoding loop is still running on a frame of the working folder
    of [w] when its [fuel] rounds are spent. *)
Definition a_frame_spins {ext : Collaborators} (fuel : nat) (w : World) : Prop :=
  exists file : string,
    file ∈ png_files (folder w)
    /\ result_of (resizeAndCompressImage fuel file w) = Diverged.

(** [m] ends, by returning or by throwing, unless [D] holds. *)
Definition ends_unless {A : Type} (D : Prop) (m : M A) : Prop :=
  forall w, result_of (m w) = Diverged -> D.

(** One round at width 640 and quality 50 brings every image within the
    ceiling. *)
Definition one_round_fits {ext : Collaborators} : Prop :=
  forall b smaller : Buffer,
    sharp_encode b 640 50 = Fulfilled smaller -> exceeds_ceiling smaller = false.

(** What the upload handler of the Render variant can send. *)
Definition render_answer (r : Response) : Prop :=
  (exists ppeData, r = {| status := 200; body := UploadOk ppeData |})
  \/ r = {| status := 400; body := Failure "No file uploaded" |}
  \/ exists error, r = {| status := 500; body := Failure (message_or_default error) |}.

(** A codec that refuses the images starting with a zero byte and hands
    the others back. *)
Definition picky_codec : Collaborators :=
  {| sharp_encode := fun bytes _ _ =>
       match bytes with
       | b :: _ => if Byte.eqb b x00 then Rejected "Input buffer contains unsupported image format"
                   else Fulfilled bytes
       | [] => Rejected "Input Buffer is empty"
       end;
     detectProtectiveEquipment := demo_detect;
     ffmpeg_frames := demo_frames;
     ffmpeg_screenshot := fun video => Fulfilled (take 1 video);
     jwt_verify := demo_verify;
     jwt_sign := fun uid => "token-" ++ decimal (Z.to_N uid);
     bcrypt_compare := demo_compare |}.

(** A transcoder that cannot read its input. *)
Definition deaf_transcoder : Collaborators :=
  {| sharp_encode := fun bytes _ _ => Fulfilled bytes;
     detectProtectiveEquipment := demo_detect;
     ffmpeg_frames := fun _ => Rejected "ffmpeg exited with code 1";
     ffmpeg_screenshot := fun _ => Rejected "ffmpeg exited with code 1";
     jwt_verify := demo_verify;
     jwt_sign := fun uid => "token-" ++ decimal (Z.to_N uid);
     bcrypt_compare := demo_compare |}.

(** Logins leave the folder and the users alone and only append ['login']
    rows with zero counters to [Logs]. *)
Definition logs_a_login (w w' : World) : Prop :=
  folder w' = folder w
  /\ Users w' = Users w
  /\ exists uid_rows : list Z,
       Logs w' = (Logs w ++ map login_row uid_rows)%list.

(** Two accounts under one name, of which Alice's is the first. *)
Definition twin_world : World :=
  {| folder := ∅;
     Users := [alice;
               {| user_id := 2; username := "alice"; email := "eve@example.org";
                  password_hash := "bcrypt:let me in" |}];
     Logs := []; db_online := true |}.

(** A person as the confidence variants expect it: the hands come under
    the part names [LEFT_HAND] and [RIGHT_HAND]. *)
Definition gloved_person : Person :=
  {| person_BodyParts :=
       [ {| bp_Name := "FACE"; bp_Confidence := Some (99 # 1)%Q;
            bp_EquipmentDetections := [] |};
         {| bp_Name := "LEFT_HAND"; bp_Confidence := Some (90 # 1)%Q;
            bp_EquipmentDetections :=
              [ {| ed_Type := "HAND_COVER"; ed_Confidence := Some (85 # 1)%Q |} ] |};
         {| bp_Name := "RIGHT_HAND"; bp_Confidence := Some (91 # 1)%Q;
            bp_EquipmentDetections :=
              [ {| ed_Type := "HAND_COVER"; ed_Confidence := Some (86 # 1)%Q |} ] |} ];
     person_Confidence := Some (98 # 1)%Q |}.

(** Whether the character [c] occurs in [s]. *)
Fixpoint has_char (c : ascii) (s : string) : bool :=
  match s with
  | EmptyString => false
  | String x rest => Ascii.eqb x c || has_char c rest
  end.

(** A working folder holding a stored upload. *)
Definition stored_upload_world : World :=
  with_folder fresh_world {[ "uploaded_video.mp4" := [x01; x00; x02] ]}.

(** What [backend/index.js] can send once a file is attached. *)
Definition index_answer (r : Response) : Prop :=
  r = {| status := 400; body := Failure "Uploaded video not found" |}
  \/ r = {| status := 500; body := Failure "Error processing video" |}
  \/ r = {| status := 500; body := Failure "Error detecting PPE" |}
  \/ exists ppeData, r = {| status := 200; body := UploadRaw ppeData |}.

(** What the Lambda handler can return. *)
Definition lambda_answer (r : LambdaResult) : Prop :=
  (exists ppeData, r = {| statusCode := 200; result_body := UploadOk ppeData |})
  \/ exists error, r = {| statusCode := 500; result_body := Failure error |}.

(** The requests [backend/server.js] serves. *)
Inductive ServerRequest : Type :=
| SignupRequested (table : UsersTable) (hash : string -> string) (req : SignupRequest)
| LoginRequested (req : LoginRequest)
| UploadRequested (fuel : nat) (req : UploadRequest).

(** The world a request leaves behind, however its handler ends. *)
Definition served {ext : Collaborators} (request : ServerRequest) (w : World) : World :=
  match request with
  | SignupRequested table hash req => world_of (signup_server table hash req w)
  | LoginRequested req => world_of (login_server req w)
  | UploadRequested fuel req => world_of (upload_server fuel req w)
  end.

(** Requests served one after the other. *)
Fixpoint served_all {ext : Collaborators} (requests : list ServerRequest)
    (w : World) : World :=
  match requests with
  | [] => w
  | request :: rest => served_all rest (served request w)
  end.

(** Every row of [Logs] is a ['login'] row with both counters at zero. *)
Definition only_login_rows (w : World) : Prop :=
  Forall (fun r => action r = "login"
                   /\ successful_requests r = 0 /\ failed_requests r = 0) (Logs w).

(** A working folder into which the upload middleware of
    [backend/index.js] has stored [site.mp4]. *)
Definition disk_upload_world : World :=
  with_folder fresh_world {[ "site.mp4" := [x01; x00; x02] ]}.

(** * Properties *)

(** ** The helpers on concrete inputs *)

Example toFixed2_rounds : toFixed2 (91256 # 1000) = "91.26".
Proof. reflexivity. Qed.

Example toFixed2_pads : toFixed2 (5 # 1000) = "0.01".
Proof. reflexivity. Qed.

Example bearer_token_of_header : bearer_token (Some "Bearer abc.def.ghi") = Some "abc.def.ghi".
Proof. reflexivity. Qed.

Example bearer_token_without_scheme : bearer_token (Some "abc.def.ghi") = None.
Proof. reflexivity. Qed.

Example frame_name_padded : frame_name 7 = "frame-007.png".
Proof. reflexivity. Qed.

Example frame_name_four_digits : frame_name 1000 = "frame-1000.png".
Proof. reflexivity. Qed.

Example video_is_no_frame : endsWith "uploaded_video.mp4" ".png" = false.
Proof. reflexivity. Qed.

Example bystander_record :
  personResult_server bystander 3
  = [ ("Person ID", JNum 3); ("Person detected", JStr "2.50%");
      ("Face detected", JStr "false"); ("Face mask detected", JStr "false");
      ("Head detected", JStr "false"); ("Helmet detected", JStr "false");
      ("Protective vest detected", JStr "false");
      ("Hands detected", JStr "false"); ("Gloves detected", JStr "false") ].
Proof. reflexivity. Qed.

Example worker_confidences :
  map (fun key => field key (personResult_confidence worker 0))
    ["Face mask detection confidence"; "Head detection confidence";
     "Helmet detection confidence"; "Protective vest detection confidence"]
  = [Some (JStr "91.25%"); Some (JStr "N/A"); Some (JStr "N/A"); Some (JStr "N/A")].
Proof. reflexivity. Qed.

(** ** Running the primitives *)

Section Resize.
Context {ext : Collaborators}.

Lemma sharp_file_run (w : World) (name : string) (bytes : Buffer) (width quality : Z) :
  folder w !! name = Some bytes ->
  sharp (FromFile name) width quality w
  = (settle (sharp_encode bytes width quality), w,
     [SharpEncode (FromFile name) width quality]).
Proof.
  intros Hfile. unfold sharp, bind, emit, get_world. simpl. rewrite Hfile.
  destruct (sharp_encode bytes width quality); reflexivity.
Qed.

Lemma sharp_file_missing (w : World) (name : string) (width quality : Z) :
  folder w !! name = None ->
  sharp (FromFile name) width quality w
  = (Threw "Input file is missing", w, [SharpEncode (FromFile name) width quality]).
Proof.
  intros Hfile. unfold sharp, bind, emit, get_world. simpl. rewrite Hfile.
  reflexivity.
Qed.

Lemma sharp_buffer_run (w : World) (b : Buffer) (width quality : Z) :
  sharp (FromBuffer b) width quality w
  = (settle (sharp_encode b width quality), w,
     [SharpEncode (FromBuffer b) width quality]).
Proof.
  unfold sharp, bind, emit, get_world. simpl.
  destruct (sharp_encode b width quality); reflexivity.
Qed.

(** The loop test compares the byte length with 5 * 1024 * 1024: dividing
    by 1024 twice is exact. *)
Lemma exceeds_ceiling_spec (b : Buffer) :
  exceeds_ceiling b = true <-> 5 * 1024 * 1024 < buffer_length b.
Proof.
  unfold exceeds_ceiling, fileSize.
  rewrite negb_true_iff, <- not_true_iff_false, Qle_bool_iff.
  generalize (buffer_length b); intros n.
  unfold Qle, Qdiv, Qmult, Qinv; simpl. lia.
Qed.

Lemma within_ceiling_spec (b : Buffer) :
  exceeds_ceiling b = false <-> buffer_length b <= 5 * 1024 * 1024.
Proof.
  rewrite <- not_true_iff_false, exceeds_ceiling_spec. lia.
Qed.

(** A buffer within the ceiling leaves the loop at once, untouched and
    without another encoding. *)
Lemma resize_further_within (fuel : nat) (b : Buffer) (w : World) :
  exceeds_ceiling b = false ->
  resize_further fuel b w = (Returned b, w, []).
Proof.
  intros Hb. destruct fuel; simpl; rewrite Hb; reflexivity.
Qed.

(** One more round of the loop. *)
Lemma resize_further_step (fuel : nat) (b : Buffer) (w : World) :
  exceeds_ceiling b = true ->
  resize_further (S fuel) b w
  = bind (sharp (FromBuffer b) 640 50) (resize_further fuel) w.
Proof.
  intros Hb. simpl. rewrite Hb. reflexivity.
Qed.

(** Whatever the loop returns has passed its exit test. *)
Lemma resize_further_returns (fuel : nat) :
  forall (b : Buffer) (w : World) (out : Buffer),
    result_of (resize_further fuel b w) = Returned out ->
    exceeds_ceiling out = false.
Proof.
  induction fuel as [|fuel IH]; intros b w out Hrun.
  - simpl in Hrun. destruct (exceeds_ceiling b) eqn:Hb.
    + discriminate Hrun.
    + injection Hrun as <-. exact Hb.
  - destruct (exceeds_ceiling b) eqn:Hb.
    + rewrite (resize_further_step _ _ _ Hb) in Hrun.
      unfold bind in Hrun. rewrite sharp_buffer_run in Hrun.
      destruct (sharp_encode b 640 50) as [smaller|e]; simpl in Hrun.
      * destruct (resize_further fuel smaller w) as [[o w2] t2] eqn:Hrest.
        simpl in Hrun. apply (IH smaller w out). rewrite Hrest. exact Hrun.
      * discriminate Hrun.
    + rewrite (resize_further_within _ _ _ Hb) in Hrun.
      injection Hrun as <-. exact Hb.
Qed.

(** The loop only reads the world. *)
Lemma resize_further_world (fuel : nat) :
  forall (b : Buffer) (w : World), world_of (resize_further fuel b w) = w.
Proof.
  induction fuel as [|fuel IH]; intros b w.
  - simpl. destruct (exceeds_ceiling b); reflexivity.
  - destruct (exceeds_ceiling b) eqn:Hb.
    + rewrite (resize_further_step _ _ _ Hb).
      unfold bind. rewrite sharp_buffer_run.
      destruct (sharp_encode b 640 50) as [smaller|e]; simpl; [|reflexivity].
      specialize (IH smaller w).
      destruct (resize_further fuel smaller w) as [[o w2] t2]. exact IH.
    + rewrite (resize_further_within _ _ _ Hb). reflexivity.
Qed.

(** Unfolding [resizeAndCompressImage] on a frame that exists and whose
    first pass succeeds. *)
Lemma resizeAndCompressImage_run (fuel : nat) (imagePath : string) (w : World)
    (bytes first : Buffer) :
  folder w !! imagePath = Some bytes ->
  sharp_encode bytes 1280 80 = Fulfilled first ->
  result_of (resizeAndCompressImage fuel imagePath w)
  = result_of (resize_further fuel first w).
Proof.
  intros Hfile Hfirst.
  unfold resizeAndCompressImage, try_catch, bind.
  rewrite (sharp_file_run _ _ _ _ _ Hfile), Hfirst. simpl.
  pose proof (resize_further_world fuel first w) as Hw.
  destruct (resize_further fuel first w) as [[o w2] t2]. simpl in *.
  destruct o; reflexivity.
Qed.

End Resize.

(** A handler that logs and rethrows does not change how the block ends. *)
Lemma try_rethrow_result {A : Type} (m : M A) (ev : Event) (w : World) :
  result_of (try_catch m (fun error => emit ev ;; throw error) w) = result_of (m w).
Proof.
  unfold try_catch. destruct (m w) as [[o w1] t1]. destruct o; reflexivity.
Qed.

(** ** Re-encoding *)

Lemma six_megabytes_exceed : exceeds_ceiling six_megabytes = true.
Proof.
  apply exceeds_ceiling_spec. unfold buffer_length, six_megabytes.
  rewrite repeat_length, Z2Nat.id; lia.
Qed.

(** When re-encoding a buffer at width 640 and quality 50 gives the same
    oversized buffer back, the loop makes no progress. *)
Lemma resize_further_spins {ext : Collaborators} (big : Buffer) :
  sharp_encode big 640 50 = Fulfilled big ->
  exceeds_ceiling big = true ->
  forall (fuel : nat) (w : World), result_of (resize_further fuel big w) = Diverged.
Proof.
  intros Hsame Hbig fuel w. induction fuel as [|fuel IH].
  - simpl. rewrite Hbig. reflexivity.
  - rewrite (resize_further_step _ _ _ Hbig). unfold bind.
    rewrite sharp_buffer_run, Hsame. simpl.
    destruct (resize_further fuel big w) as [[o w2] t2].
    unfold result_of in *. simpl in *. subst o. reflexivity.
Qed.

(** When one round at width 640 and quality 50 gets under the ceiling, the
    loop ends after that round. *)
Lemma resize_further_one_round {ext : Collaborators} (fuel : nat) (w : World)
    (first second : Buffer) :
  exceeds_ceiling first = true ->
  sharp_encode first 640 50 = Fulfilled second ->
  exceeds_ceiling second = false ->
  resize_further (S fuel) first w
  = (Returned second, w, [SharpEncode (FromBuffer first) 640 50]).
Proof.
  intros Hfirst Hround Hsecond.
  rewrite (resize_further_step _ _ _ Hfirst). unfold bind.
  rewrite sharp_buffer_run, Hround. simpl.
  rewrite (resize_further_within _ _ _ Hsecond). reflexivity.
Qed.

(** A frame whose first pass is oversized and whose round at width 640 is
    small: two encodings, and the small buffer is returned. *)
Lemma resize_second_pass_suffices :
  resizeAndCompressImage (ext := shrinking_codec) 1 "frame-001.png" one_frame_world
  = (Returned [xff; xd8; xff; xd9], one_frame_world,
     [SharpEncode (FromFile "frame-001.png") 1280 80;
      SharpEncode (FromBuffer six_megabytes) 640 50]).
Proof.
  unfold resizeAndCompressImage, try_catch, bind.
  rewrite (sharp_file_run (ext := shrinking_codec) one_frame_world
             "frame-001.png" [x89; x50; x4e; x47] 1280 80 eq_refl).
  change (sharp_encode (Collaborators := shrinking_codec) [x89; x50; x4e; x47] 1280 80)
    with (Fulfilled six_megabytes).
  cbn [settle].
  rewrite (resize_further_one_round (ext := shrinking_codec) 0 one_frame_world
             six_megabytes [xff; xd8; xff; xd9] six_megabytes_exceed eq_refl eq_refl).
  reflexivity.
Qed.

(** C1.  The loop of [resizeAndCompressImage] re-encodes at the same width
    640 and quality 50 on every round.  For a frame whose JPEG at that
    setting still takes six megabytes, the operation neither returns nor
    throws, however long it runs. *)
Theorem resizeAndCompressImage_spins (fuel : nat) :
  result_of
    (resizeAndCompressImage (ext := tall_frame_codec) fuel "frame-001.png"
       one_frame_world)
  = Diverged.
Proof.
  rewrite (resizeAndCompressImage_run (ext := tall_frame_codec) fuel
             "frame-001.png" one_frame_world [x89; x50; x4e; x47] six_megabytes);
    [ | reflexivity | reflexivity ].
  apply (resize_further_spins (ext := tall_frame_codec)).
  - reflexivity.
  - exact six_megabytes_exceed.
Qed.

(** The loop returns exactly when some number of rounds, within the fuel,
    brings the buffer within the ceiling. *)
Lemma resize_further_fits {ext : Collaborators} (n : nat) (b out : Buffer) :
  fits_after n b out ->
  forall (fuel : nat) (w : World),
    (n <= fuel)%nat -> result_of (resize_further fuel b w) = Returned out.
Proof.
  induction 1 as [b Hb | n b smaller out Hb Hround Hrest IH]; intros fuel w Hfuel.
  - rewrite (resize_further_within _ _ _ Hb). reflexivity.
  - destruct fuel as [|fuel]; [lia|].
    rewrite (resize_further_step _ _ _ Hb). unfold bind.
    rewrite sharp_buffer_run, Hround. simpl.
    specialize (IH fuel w ltac:(lia)).
    destruct (resize_further fuel smaller w) as [[o w2] t2].
    unfold result_of in *. simpl in *. exact IH.
Qed.

Lemma resize_further_returned_fits {ext : Collaborators} (fuel : nat) :
  forall (b : Buffer) (w : World) (out : Buffer),
    result_of (resize_further fuel b w) = Returned out ->
    exists n, (n <= fuel)%nat /\ fits_after n b out.
Proof.
  induction fuel as [|fuel IH]; intros b w out Hrun.
  - simpl in Hrun. destruct (exceeds_ceiling b) eqn:Hb; [discriminate Hrun|].
    injection Hrun as <-. exists 0%nat. split; [lia | constructor; exact Hb].
  - destruct (exceeds_ceiling b) eqn:Hb.
    + rewrite (resize_further_step _ _ _ Hb) in Hrun.
      unfold bind in Hrun. rewrite sharp_buffer_run in Hrun.
      destruct (sharp_encode b 640 50) as [smaller|e] eqn:Hround; simpl in Hrun;
        [|discriminate Hrun].
      destruct (IH smaller w out) as (n & Hn & Hfits).
      { destruct (resize_further fuel smaller w) as [[o w2] t2]. exact Hrun. }
      exists (S n). split; [lia|].
      exact (fits_one_round_later n b smaller out Hb Hround Hfits).
    + rewrite (resize_further_within _ _ _ Hb) in Hrun. injection Hrun as <-.
      exists 0%nat. split; [lia | constructor; exact Hb].
Qed.

(** C2.  [resizeAndCompressImage] returns a buffer exactly when the frame is
    there, the first pass (width 1280, quality 80) succeeds and some number
    of rounds at width 640 and quality 50, none when the first pass already
    fits, brings its output within the ceiling; it then returns the output
    of the last round, and whatever it returns is at most 5 MB
    (5 * 1024 * 1024 bytes) long. *)
Theorem resized_image_within_ceiling {ext : Collaborators} (fuel : nat)
    (imagePath : string) (w : World) :
  (forall out,
     result_of (resizeAndCompressImage fuel imagePath w) = Returned out ->
     buffer_length out <= 5 * 1024 * 1024)
  /\ (forall bytes first n out,
        folder w !! imagePath = Some bytes ->
        sharp_encode bytes 1280 80 = Fulfilled first ->
        fits_after n first out ->
        (n <= fuel)%nat ->
        result_of (resizeAndCompressImage fuel imagePath w) = Returned out)
  /\ (forall out,
        result_of (resizeAndCompressImage fuel imagePath w) = Returned out ->
        exists bytes first n,
          folder w !! imagePath = Some bytes
          /\ sharp_encode bytes 1280 80 = Fulfilled first
          /\ fits_after n first out
          /\ (n <= fuel)%nat).
Proof.
  assert (Hreturned : forall out,
            result_of (resizeAndCompressImage fuel imagePath w) = Returned out ->
            exists bytes first,
              folder w !! imagePath = Some bytes
              /\ sharp_encode bytes 1280 80 = Fulfilled first
              /\ result_of (resize_further fuel first w) = Returned out).
  { intros out. unfold resizeAndCompressImage. rewrite try_rethrow_result.
    unfold bind. intros Hrun.
    destruct (folder w !! imagePath) as [bytes|] eqn:Hfile.
    - rewrite (sharp_file_run _ _ _ _ _ Hfile) in Hrun.
      destruct (sharp_encode bytes 1280 80) as [first|e] eqn:Hfirst; simpl in Hrun;
        [|discriminate Hrun].
      exists bytes, first. split; [reflexivity|]. split; [exact Hfirst|].
      destruct (resize_further fuel first w) as [[o w2] t2]. exact Hrun.
    - rewrite (sharp_file_missing _ _ _ _ Hfile) in Hrun. discriminate Hrun. }
  split; [|split].
  - intros out Hrun. apply within_ceiling_spec.
    destruct (Hreturned out Hrun) as (bytes & first & _ & _ & Hloop).
    exact (resize_further_returns fuel first w out Hloop).
  - intros bytes first n out Hfile Hfirst Hfits Hfuel.
    rewrite (resizeAndCompressImage_run fuel imagePath w bytes first Hfile Hfirst).
    exact (resize_further_fits n first out Hfits fuel w Hfuel).
  - intros out Hrun.
    destruct (Hreturned out Hrun) as (bytes & first & Hfile & Hfirst & Hloop).
    destruct (resize_further_returned_fits fuel first w out Hloop) as (n & Hn & Hfits).
    exists bytes, first, n. repeat split; assumption.
Qed.

Lemma resized_image_within_ceiling_witness :
  result_of (resizeAndCompressImage (ext := shrinking_codec) 1 "frame-001.png"
               one_frame_world)
  = Returned [xff; xd8; xff; xd9]
  /\ buffer_length [xff; xd8; xff; xd9] <= 5 * 1024 * 1024.
Proof.
  destruct (resized_image_within_ceiling (ext := shrinking_codec) 1 "frame-001.png"
              one_frame_world) as (Hbound & Hreturns & _).
  assert (Hrun : result_of (resizeAndCompressImage (ext := shrinking_codec) 1
                              "frame-001.png" one_frame_world)
                 = Returned [xff; xd8; xff; xd9]).
  { apply (Hreturns [x89; x50; x4e; x47] six_megabytes 1%nat [xff; xd8; xff; xd9]).
    - reflexivity.
    - reflexivity.
    - apply (fits_one_round_later (ext := shrinking_codec) 0 six_megabytes
               [xff; xd8; xff; xd9] [xff; xd8; xff; xd9]).
      + exact six_megabytes_exceed.
      + reflexivity.
      + apply fits_at_once. reflexivity.
    - lia. }
  split; [exact Hrun | exact (Hbound _ Hrun)].
Defined.

(** C8.  If the first pass (width 1280, quality 80) yields a buffer of at
    most 5 MB, [resizeAndCompressImage] returns that very buffer and the
    first pass is the only encoding it performs. *)
Theorem first_pass_within_ceiling_is_final {ext : Collaborators} (fuel : nat)
    (imagePath : string) (w : World) (bytes first : Buffer) :
  folder w !! imagePath = Some bytes ->
  sharp_encode bytes 1280 80 = Fulfilled first ->
  buffer_length first <= 5 * 1024 * 1024 ->
  resizeAndCompressImage fuel imagePath w
  = (Returned first, w, [SharpEncode (FromFile imagePath) 1280 80]).
Proof.
  intros Hfile Hfirst Hsmall. apply within_ceiling_spec in Hsmall.
  unfold resizeAndCompressImage, try_catch, bind.
  rewrite (sharp_file_run _ _ _ _ _ Hfile), Hfirst. simpl.
  rewrite (resize_further_within _ _ _ Hsmall). reflexivity.
Qed.

Lemma first_pass_within_ceiling_is_final_witness :
  resizeAndCompressImage (ext := demo) 3 "frame-001.png" one_frame_world
  = (Returned [x89; x50; x4e; x47], one_frame_world,
     [SharpEncode (FromFile "frame-001.png") 1280 80]).
Proof.
  apply (first_pass_within_ceiling_is_final (ext := demo) 3 "frame-001.png"
           one_frame_world [x89; x50; x4e; x47] [x89; x50; x4e; x47]).
  - reflexivity.
  - reflexivity.
  - unfold buffer_length. simpl. lia.
Defined.

Section Frames.
Context {ext : Collaborators}.

Lemma resizeAndCompressImage_world (fuel : nat) (imagePath : string) (w : World) :
  world_of (resizeAndCompressImage fuel imagePath w) = w.
Proof.
  unfold resizeAndCompressImage, try_catch, bind.
  destruct (folder w !! imagePath) as [bytes|] eqn:Hfile.
  - rewrite (sharp_file_run _ _ _ _ _ Hfile).
    destruct (sharp_encode bytes 1280 80) as [first|e]; simpl; [|reflexivity].
    pose proof (resize_further_world fuel first w) as Hw.
    destruct (resize_further fuel first w) as [[o w2] t2].
    unfold world_of in *. simpl in *. subst w2. destruct o; reflexivity.
  - rewrite (sharp_file_missing _ _ _ _ Hfile). reflexivity.
Qed.

Lemma detect_calls_app (t1 t2 : list Event) :
  detect_calls (t1 ++ t2) = (detect_calls t1 ++ detect_calls t2)%list.
Proof. unfold detect_calls. apply omap_app. Qed.

Lemma detect_calls_detect (image : Buffer) (t : list Event) :
  detect_calls (DetectCall image :: t) = image :: detect_calls t.
Proof. reflexivity. Qed.

Lemma detect_calls_error (text : string) (t : list Event) :
  detect_calls (ConsoleError text :: t) = detect_calls t.
Proof. reflexivity. Qed.

Lemma resize_further_detect_calls (fuel : nat) :
  forall (b : Buffer) (w : World),
    detect_calls (trace_of (resize_further fuel b w)) = [].
Proof.
  induction fuel as [|fuel IH]; intros b w.
  - simpl. destruct (exceeds_ceiling b); reflexivity.
  - destruct (exceeds_ceiling b) eqn:Hb.
    + rewrite (resize_further_step _ _ _ Hb).
      unfold bind. rewrite sharp_buffer_run.
      destruct (sharp_encode b 640 50) as [smaller|e]; simpl; [|reflexivity].
      specialize (IH smaller w).
      destruct (resize_further fuel smaller w) as [[o w2] t2]. exact IH.
    + rewrite (resize_further_within _ _ _ Hb). reflexivity.
Qed.

Lemma resizeAndCompressImage_detect_calls (fuel : nat) (imagePath : string) (w : World) :
  detect_calls (trace_of (resizeAndCompressImage fuel imagePath w)) = [].
Proof.
  unfold resizeAndCompressImage, try_catch, bind.
  destruct (folder w !! imagePath) as [bytes|] eqn:Hfile.
  - rewrite (sharp_file_run _ _ _ _ _ Hfile).
    destruct (sharp_encode bytes 1280 80) as [first|e]; simpl; [|reflexivity].
    pose proof (resize_further_detect_calls fuel first w) as Ht.
    destruct (resize_further fuel first w) as [[o w2] t2].
    unfold trace_of in *. simpl in *.
    destruct o; simpl; try exact Ht.
    change (detect_calls (t2 ++ [ConsoleError "Error resizing and compressing image:"]) = []).
    rewrite detect_calls_app, Ht. reflexivity.
  - rewrite (sharp_file_missing _ _ _ _ Hfile). reflexivity.
Qed.

Lemma analyzePPEInImage_run (v : Variant) (imageBuffer : Buffer) (w : World) :
  analyzePPEInImage v imageBuffer w
  = match detectProtectiveEquipment imageBuffer with
    | Fulfilled ppeResult =>
        (Returned {| Per_person_results :=
                       perPersonResults (personResult v) (Persons ppeResult) |},
         w,
         DetectCall imageBuffer ::
           (if chatty v then [ConsoleLog "Full PPE detection result:"] else []))
    | Rejected e =>
        (Threw e, w, [DetectCall imageBuffer; ConsoleError "Error detecting PPE:"])
    end.
Proof.
  unfold analyzePPEInImage, try_catch, bind, emit, console_log. simpl.
  destruct (detectProtectiveEquipment imageBuffer) as [r|e]; simpl.
  - destruct (chatty v); reflexivity.
  - reflexivity.
Qed.

Lemma resizeAndCompressImage_returned (fuel : nat) (file : string) (w : World)
    (resized : Buffer) :
  resized_frame fuel w file = Some resized ->
  exists trace,
    resizeAndCompressImage fuel file w = (Returned resized, w, trace)
    /\ detect_calls trace = [].
Proof.
  intros Hfile. unfold resized_frame in Hfile.
  pose proof (resizeAndCompressImage_world fuel file w) as Hw.
  pose proof (resizeAndCompressImage_detect_calls fuel file w) as Hd.
  destruct (resizeAndCompressImage fuel file w) as [[o w1] t1].
  unfold result_of, world_of, trace_of in *. simpl in *.
  destruct o as [b| |]; try discriminate Hfile.
  injection Hfile as ->. subst w1. exists t1. split; [reflexivity | exact Hd].
Qed.

Lemma analyze_each_run (v : Variant) (fuel : nat) (w : World) :
  forall (files : list string) (ppeData : list FrameAnalysis),
    (forall file, file ∈ files -> is_Some (resized_frame fuel w file)) ->
    exists trace,
      analyze_each v fuel files ppeData w
      = (Returned (ppeData ++ omap (analysed v fuel w) files)%list, w, trace)
      /\ detect_calls trace = omap (resized_frame fuel w) files.
Proof.
  induction files as [|file rest IH]; intros ppeData Hresized.
  - exists []. simpl. rewrite app_nil_r. split; reflexivity.
  - assert (Hfile : is_Some (resized_frame fuel w file))
      by (apply Hresized; left).
    assert (Hrest : forall f, f ∈ rest -> is_Some (resized_frame fuel w f))
      by (intros f Hf; apply Hresized; right; exact Hf).
    destruct Hfile as [resized Hfile].
    destruct (resizeAndCompressImage_returned _ _ _ _ Hfile) as (t1 & Hrun & Ht1).
    cbn [analyze_each]. unfold bind at 1. rewrite Hrun.
    unfold bind at 1. unfold try_catch, bind at 1.
    rewrite analyzePPEInImage_run.
    cbn [omap list_omap]. unfold analysed at 1. rewrite Hfile.
    destruct (detectProtectiveEquipment resized) as [r|e]; simpl.
    + destruct (IH (ppeData ++ [{| fa_file := file;
                                   fa_ppeResult :=
                                     {| Per_person_results :=
                                          perPersonResults (personResult v) (Persons r) |} |}])%list
                  Hrest) as (t2 & Hloop & Ht2).
      rewrite Hloop. rewrite <- app_assoc. simpl.
      eexists. split; [reflexivity|].
      rewrite detect_calls_app, Ht1.
      destruct (chatty v); simpl; rewrite ?detect_calls_app, ?Ht2; reflexivity.
    + destruct (IH ppeData Hrest) as (t2 & Hloop & Ht2).
      rewrite Hloop.
      eexists. split; [reflexivity|].
      rewrite detect_calls_app, Ht1, detect_calls_detect.
      rewrite !detect_calls_error, Ht2. reflexivity.
Qed.

Lemma analyzePPEInFrames_run (v : Variant) (fuel : nat) (w : World) :
  (forall file, file ∈ png_files (folder w) -> is_Some (resized_frame fuel w file)) ->
  exists trace,
    analyzePPEInFrames v fuel w
    = (Returned (omap (analysed v fuel w) (png_files (folder w))), w, trace)
    /\ detect_calls trace = omap (resized_frame fuel w) (png_files (folder w)).
Proof.
  intros Hresized.
  destruct (analyze_each_run v fuel w (png_files (folder w)) [] Hresized)
    as (t & Hloop & Ht).
  unfold analyzePPEInFrames, bind, emit, get_world. simpl. rewrite Hloop.
  simpl in *. eexists. split; [reflexivity|]. exact Ht.
Qed.

(** The Lambda variant runs the same loop over its own records. *)
Lemma analyzePPEInFrames_lambda (fuel : nat) (w : World) :
  (forall file, file ∈ png_files (folder w) -> is_Some (resized_frame fuel w file)) ->
  result_of (analyzePPEInFrames lambda_variant fuel w)
  = Returned (omap (analysed lambda_variant fuel w) (png_files (folder w))).
Proof.
  intros Hresized.
  destruct (analyzePPEInFrames_run lambda_variant fuel w Hresized) as (t & Hrun & _).
  rewrite Hrun. reflexivity.
Qed.

(** The frames tagged in the aggregate are the listed frames whose detector
    call was fulfilled. *)
Lemma analysed_tags (v : Variant) (fuel : nat) (w : World) (files : list string)
    (file : string) :
  file ∈ map fa_file (omap (analysed v fuel w) files)
  <-> file ∈ files
      /\ exists resized ppeResult,
           resized_frame fuel w file = Some resized
           /\ detectProtectiveEquipment resized = Fulfilled ppeResult.
Proof.
  change (map fa_file) with (fmap (M := list) fa_file).
  rewrite list_elem_of_fmap. split.
  - intros (entry & -> & Hentry).
    apply list_elem_of_omap in Hentry as (name & Hname & Hentry).
    unfold analysed in Hentry.
    destruct (resized_frame fuel w name) as [resized|] eqn:Hresized;
      [|discriminate Hentry].
    destruct (detectProtectiveEquipment resized) as [r|e] eqn:Hdetect;
      [|discriminate Hentry].
    injection Hentry as <-. simpl. split; [exact Hname|].
    exists resized, r. split; [exact Hresized | exact Hdetect].
  - intros (Hfile & resized & r & Hresized & Hdetect).
    eexists. split; [|apply list_elem_of_omap; exists file; split; [exact Hfile|]].
    2:{ unfold analysed. rewrite Hresized, Hdetect. reflexivity. }
    reflexivity.
Qed.

End Frames.

Section Handlers.
Context {ext : Collaborators}.

Lemma writeFileSync_run (name : string) (data : Buffer) (w : World) :
  writeFileSync name data w
  = (Returned tt, with_folder w (<[name := data]> (folder w)), [FsWriteFile name]).
Proof. reflexivity. Qed.

Lemma extractFrames_run (v : Variant) (videoPath : string) (w : World)
    (video : Buffer) (frames : list Buffer) :
  folder w !! videoPath = Some video ->
  ffmpeg_frames video = Fulfilled frames ->
  extractFrames v videoPath w
  = (Returned tt, with_folder w (write_frames 1 frames (folder w)),
     FfmpegRun videoPath ::
       (if chatty v then [ConsoleLog "All frames extracted successfully"] else [])).
Proof.
  intros Hvideo Hframes.
  unfold extractFrames, bind, emit, get_world, console_log. simpl.
  rewrite Hvideo, Hframes. simpl. destruct (chatty v); reflexivity.
Qed.

Lemma write_Logs_run (sql complaint : string) (change : list LogRow -> list LogRow)
    (w : World) :
  exists w' trace,
    write_Logs sql complaint change w = (Returned tt, w', trace)
    /\ folder w' = folder w
    /\ detect_calls trace = [].
Proof.
  unfold write_Logs, bind, emit, get_world. simpl.
  destruct (db_online w); simpl; eexists; eexists; (split; [reflexivity|]);
    split; reflexivity.
Qed.

Lemma bind_returned {A B : Type} (m : M A) (k : A -> M B) (w w1 : World) (a : A)
    (t1 : list Event) :
  m w = (Returned a, w1, t1) -> bind m k w = prepend t1 (k a w1).
Proof.
  intros Hm. unfold bind, prepend. rewrite Hm.
  destruct (k a w1) as [[o w2] t2]. reflexivity.
Qed.

Lemma try_catch_returned {A : Type} (m : M A) (handler : Error -> M A)
    (w w1 : World) (a : A) (t1 : list Event) :
  m w = (Returned a, w1, t1) -> try_catch m handler w = (Returned a, w1, t1).
Proof. intros Hm. unfold try_catch. rewrite Hm. reflexivity. Qed.

Lemma with_folder_twice (w : World) (d0 d1 : gmap string Buffer) :
  with_folder (with_folder w d0) d1 = with_folder w d1.
Proof. reflexivity. Qed.

Lemma folder_with_folder (w : World) (d : gmap string Buffer) :
  folder (with_folder w d) = d.
Proof. reflexivity. Qed.

(** C3.  In [backend/server.js], when the token is valid, a file is attached,
    the transcoder succeeds and every listed frame is re-encoded, the request
    succeeds whatever the detector does: the answer is [{ success: true,
    ppeData }], the detector is called once for every listed frame, in
    order, and [ppeData] holds, in listing order, exactly the frames whose
    detector call was fulfilled. *)
Theorem detector_failure_drops_only_its_frame (fuel : nat) (req : UploadRequest)
    (w : World) (uid : Z) (upload : UploadedFile) (frames : list Buffer) :
  jwt_verify (bearer_token (authorization req)) = Fulfilled uid ->
  file req = Some upload ->
  ffmpeg_frames (buffer upload) = Fulfilled frames ->
  let w' :=
    with_folder w
      (write_frames 1 frames (<["uploaded_video.mp4" := buffer upload]> (folder w))) in
  let listed := png_files (folder w') in
  (forall file, file ∈ listed -> is_Some (resized_frame fuel w' file)) ->
  let run := upload_server fuel req w in
  let ppeData := omap (analysed server_variant fuel w') listed in
  result_of run = Returned {| status := 200; body := UploadOk ppeData |}
  /\ detect_calls (trace_of run) = omap (resized_frame fuel w') listed
  /\ (forall file,
        file ∈ map fa_file ppeData
        <-> file ∈ listed
            /\ exists resized ppeResult,
                 resized_frame fuel w' file = Some resized
                 /\ detectProtectiveEquipment resized = Fulfilled ppeResult).
Proof.
  intros Hjwt Hupload Hframes w' listed Hresized run ppeData.
  assert (Htags := analysed_tags server_variant fuel w' listed).
  fold ppeData in Htags.
  destruct (analyzePPEInFrames_run server_variant fuel w' Hresized)
    as (t & Hanalyze & Ht).
  fold listed in Hanalyze, Ht. fold ppeData in Hanalyze.
  destruct (write_Logs_run
              "UPDATE Logs SET successful_requests = successful_requests + 1 WHERE user_id = ? AND action = 'upload'"
              "Error updating successful requests:" (bump_successful uid) w')
    as (w2 & t2 & Hlogs & _ & Ht2).
  assert (Hverify :
            try_catch
              (emit (JwtVerify (bearer_token (authorization req))) ;;
               uid0 <- await (jwt_verify (bearer_token (authorization req))) ;;
               ret (inl uid0))
              (fun _ => ret (inr {| status := 401; body := Failure "Invalid token" |})) w
            = (Returned (inl uid), w, [JwtVerify (bearer_token (authorization req))])).
  { unfold try_catch, bind, emit. rewrite Hjwt. reflexivity. }
  subst run. unfold upload_server.
  rewrite (bind_returned _ _ _ _ _ _ Hverify). rewrite Hupload.
  erewrite try_catch_returned.
  2:{ erewrite bind_returned by reflexivity.
      erewrite bind_returned by apply writeFileSync_run.
      erewrite bind_returned.
      2:{ apply (extractFrames_run _ _ _ (buffer upload) frames).
          - rewrite folder_with_folder. apply lookup_insert_eq.
          - exact Hframes. }
      rewrite with_folder_twice, folder_with_folder. fold w'.
      erewrite bind_returned by exact Hanalyze.
      erewrite bind_returned by exact Hlogs.
      reflexivity. }
  unfold prepend, result_of, world_of, trace_of, detect_calls. simpl.
  split; [reflexivity|]. split; [|exact Htags].
  fold (detect_calls (t ++ t2 ++ [])). rewrite !detect_calls_app.
  rewrite Ht, Ht2. simpl. rewrite app_nil_r. reflexivity.
Qed.
End Handlers.

Lemma detector_failure_drops_only_its_frame_witness :
  result_of (upload_server (ext := demo) 0 (upload_of three_second_video) fresh_world)
  = Returned
      {| status := 200;
         body := UploadOk
                   (omap (analysed (ext := demo) server_variant 0 three_frames_world)
                      ["frame-001.png"; "frame-002.png"; "frame-003.png"]) |}
  /\ detect_calls
       (trace_of (upload_server (ext := demo) 0 (upload_of three_second_video)
                    fresh_world))
     = [[x01]; [x00]; [x02]]
  /\ "frame-003.png"
       ∈ map fa_file
           (omap (analysed (ext := demo) server_variant 0 three_frames_world)
              ["frame-001.png"; "frame-002.png"; "frame-003.png"])
  /\ "frame-002.png"
       ∉ map fa_file
           (omap (analysed (ext := demo) server_variant 0 three_frames_world)
              ["frame-001.png"; "frame-002.png"; "frame-003.png"]).
Proof.
  assert (Hlisted : png_files (folder three_frames_world)
                    = ["frame-001.png"; "frame-002.png"; "frame-003.png"])
    by (vm_compute; reflexivity).
  pose proof (detector_failure_drops_only_its_frame (ext := demo) 0
                (upload_of three_second_video) fresh_world 1 three_second_video
                [[x01]; [x00]; [x02]] eq_refl eq_refl eq_refl) as Hrun.
  cbv zeta in Hrun.
  change (with_folder fresh_world
            (write_frames 1 [[x01]; [x00]; [x02]]
               (<["uploaded_video.mp4" := buffer three_second_video]>
                  (folder fresh_world))))
    with three_frames_world in Hrun.
  rewrite Hlisted in Hrun.
  destruct Hrun as (Hresult & Hcalls & Htags).
  - intros file Hfile.
    apply list_elem_of_In in Hfile. simpl in Hfile.
    destruct Hfile as [<-|[<-|[<-|[]]]]; eexists; vm_compute; reflexivity.
  - split; [exact Hresult|]. split; [exact Hcalls|]. split.
    + apply Htags. split.
      * apply list_elem_of_In. simpl. tauto.
      * eexists; eexists. split; vm_compute; reflexivity.
    + intros Hin. apply Htags in Hin as (_ & resized & r & Hresized & Hdetect).
      vm_compute in Hresized. injection Hresized as <-.
      vm_compute in Hdetect. discriminate Hdetect.
Defined.

(** ** A request with no file attached *)

(** [backend/server.js] answers such a request with [{ success: false,
    error }], 401 or 400 depending on the token, and runs no stage of the
    pipeline. *)
Lemma upload_server_without_file {ext : Collaborators} (fuel : nat)
    (auth : option string) (w : World) :
  (exists response,
     result_of (upload_server fuel {| authorization := auth; file := None |} w)
     = Returned response
     /\ success (body response) = Some false
     /\ is_Some (error_of (body response)))
  /\ world_of (upload_server fuel {| authorization := auth; file := None |} w) = w
  /\ Forall (fun ev => pipeline_stage ev = false)
       (trace_of (upload_server fuel {| authorization := auth; file := None |} w)).
Proof.
  unfold upload_server, try_catch, bind, emit, await. simpl.
  destruct (jwt_verify (bearer_token auth)) as [uid|e]; simpl.
  - split; [eexists; split; [reflexivity|]; split; [reflexivity|]; eexists; reflexivity|].
    split; [reflexivity|]. repeat constructor.
  - split; [eexists; split; [reflexivity|]; split; [reflexivity|]; eexists; reflexivity|].
    split; [reflexivity|]. repeat constructor.
Qed.

Example upload_server_no_file_request :
  upload_server (ext := demo) 0 no_file_request fresh_world
  = (Returned {| status := 400; body := Failure "No file uploaded" |}, fresh_world,
     [JwtVerify (Some "alice-token")]).
Proof. reflexivity. Qed.

(** So does the Render variant. *)
Lemma upload_render_without_file {ext : Collaborators} (fuel : nat)
    (auth : option string) (w : World) :
  upload_render fuel {| authorization := auth; file := None |} w
  = (Returned {| status := 400; body := Failure "No file uploaded" |}, w, []).
Proof. reflexivity. Qed.

(** The local variant shares the slip of [backend/index.js]. *)
Lemma upload_local_without_file {ext : Collaborators} (fuel : nat)
    (auth : option string) (w : World) :
  upload_local fuel {| authorization := auth; file := None |} w
  = (Threw "TypeError: Cannot read properties of undefined (reading 'filename')",
     w, []).
Proof. reflexivity. Qed.

(** C4.  [backend/index.js] reads [req.file.filename] before any check:
    with no file attached the handler throws a [TypeError] and sends no
    [{ success: false }] answer, although no stage of the pipeline runs. *)
Theorem upload_index_without_file_throws {ext : Collaborators}
    (auth : option string) (w : World) :
  upload_index {| authorization := auth; file := None |} w
  = (Threw "TypeError: Cannot read properties of undefined (reading 'filename')",
     w, []).
Proof. reflexivity. Qed.

(** ** Frames and their tags *)

(** The tags of the aggregate follow the folder listing: they form a
    sublist of it. *)
Lemma tags_follow_listing {ext : Collaborators} (v : Variant) (fuel : nat)
    (w : World) (files : list string) :
  map fa_file (omap (analysed v fuel w) files) `sublist_of` files.
Proof.
  induction files as [|file rest IH]; [constructor|].
  cbn [omap list_omap]. unfold analysed at 1.
  destruct (resized_frame fuel w file) as [resized|];
    [|apply sublist_cons; exact IH].
  destruct (detectProtectiveEquipment resized) as [r|e];
    [|apply sublist_cons; exact IH].
  simpl. apply sublist_skip. exact IH.
Qed.

(** Hence there are at most as many analyses as [.png] names in the working
    folder. *)
Lemma analyses_bounded_by_listing {ext : Collaborators} (v : Variant) (fuel : nat)
    (w : World) :
  (length (omap (analysed v fuel w) (png_files (folder w)))
   <= length (png_files (folder w)))%nat.
Proof.
  rewrite <- (length_map fa_file).
  apply sublist_length, tags_follow_listing.
Qed.

(** Past frame 999 the pattern [frame-%03d.png] yields four digits, and the
    sorted listing no longer follows the frame index. *)
Lemma listing_order_past_999 :
  readdirSync
    (<[frame_name 1000 := []]>
       (<[frame_name 101 := []]> (<[frame_name 100 := []]> ∅)))
  = ["frame-100.png"; "frame-1000.png"; "frame-101.png"].
Proof. vm_compute. reflexivity. Qed.

(** C5.  [backend/server.js] keeps its frames in one fixed folder and never
    empties it.  After a three-second upload, a two-second upload, from
    which the transcoder extracts two frames, is answered with three frame
    analyses: the third is the stale [frame-003.png] of the earlier
    request. *)
Theorem stale_frames_are_analysed_again :
  exists ppeData,
    result_of
      (upload_server (ext := demo) 0 (upload_of two_second_video)
         (world_of
            (upload_server (ext := demo) 0 (upload_of three_second_video)
               fresh_world)))
    = Returned {| status := 200; body := UploadOk ppeData |}
    /\ map fa_file ppeData = ["frame-001.png"; "frame-002.png"; "frame-003.png"]
    /\ ffmpeg_frames (Collaborators := demo) (buffer two_second_video)
       = Fulfilled [[x03]; [x04]]
    /\ (demo_duration_seconds two_second_video < length ppeData)%nat.
Proof.
  eexists. split; [vm_compute; reflexivity|].
  split; [reflexivity|]. split; [reflexivity|].
  vm_compute. lia.
Qed.

(** ** Login *)

Section Login.
Context {ext : Collaborators}.

Lemma select_user_run (name : string) (w : World) :
  select_user name w
  = (Returned (if db_online w
               then Fulfilled (filter (fun u => String.eqb (username u) name) (Users w))
               else Rejected "Database error"),
     w, [DbQuery "SELECT * FROM Users WHERE username = ?"]).
Proof.
  unfold select_user, bind, emit, get_world. simpl.
  destruct (db_online w); reflexivity.
Qed.

(** The first row the query returns carries the requested username. *)
Lemma selected_user (name : string) (users others : list UserRow) (user : UserRow) :
  filter (fun u => String.eqb (username u) name) users = user :: others ->
  user ∈ users /\ username user = name.
Proof.
  intros Hfilter.
  assert (Hin : user ∈ filter (fun u => String.eqb (username u) name) users)
    by (rewrite Hfilter; left).
  apply list_elem_of_filter in Hin as [Hname Hin].
  split; [exact Hin|]. apply String.eqb_eq, Is_true_true. exact Hname.
Qed.

Lemma login_server_refuses (req : LoginRequest) (w : World) :
  wrong_password w req ->
  login_server req w
  = (Returned {| status := 400; body := ErrorOnly "Invalid credentials" |}, w,
     [DbQuery "SELECT * FROM Users WHERE username = ?"]).
Proof.
  intros Hwrong. unfold login_server.
  rewrite (bind_returned _ _ _ _ _ _ (select_user_run _ w)).
  destruct (db_online w); [|reflexivity].
  destruct (filter _ (Users w)) as [|user others] eqn:Hfilter; [reflexivity|].
  destruct (selected_user _ _ _ _ Hfilter) as [Hin Hname].
  rewrite (Hwrong user Hin Hname). reflexivity.
Qed.

Lemma login_auth_refuses (req : LoginRequest) (w : World) :
  wrong_password w req ->
  login_auth req w
  = (Returned {| status := 400; body := ErrorOnly "Invalid credentials" |}, w,
     [DbQuery "SELECT * FROM Users WHERE username = ?"]).
Proof.
  intros Hwrong. unfold login_auth.
  rewrite (bind_returned _ _ _ _ _ _ (select_user_run _ w)).
  destruct (db_online w); [|reflexivity].
  destruct (filter _ (Users w)) as [|user others] eqn:Hfilter; [reflexivity|].
  destruct (selected_user _ _ _ _ Hfilter) as [Hin Hname].
  rewrite (Hwrong user Hin Hname). reflexivity.
Qed.

(** Any number of refused attempts leaves the world as it was. *)
Lemma refused_attempts (login : LoginRequest -> M Response) (w : World) :
  (forall req, wrong_password w req ->
     result_of (login req w)
     = Returned {| status := 400; body := ErrorOnly "Invalid credentials" |}
     /\ world_of (login req w) = w) ->
  forall reqs, Forall (wrong_password w) reqs ->
    result_of (login_attempts login reqs w)
    = Returned (map (fun _ => {| status := 400;
                                 body := ErrorOnly "Invalid credentials" |}) reqs)
    /\ world_of (login_attempts login reqs w) = w.
Proof.
  intros Hlogin reqs Hreqs.
  induction Hreqs as [|req rest Hreq Hrest IH]; [split; reflexivity|].
  destruct (Hlogin req Hreq) as [Hres Hw].
  destruct IH as [IHres IHw].
  cbn [login_attempts]. unfold bind.
  destruct (login req w) as [[o w1] t1].
  unfold result_of, world_of in Hres, Hw. simpl in Hres, Hw. subst o w1.
  destruct (login_attempts login rest w) as [[o2 w2] t2].
  unfold result_of, world_of in IHres, IHw. simpl in IHres, IHw. subst o2 w2.
  split; reflexivity.
Qed.

(** C6.  Both [login] functions ([backend/server.js], [backend/auth.js]):
    when the database answers, the username has a row and the password
    matches the hash of the first such row, the answer carries a token;
    after any number of attempts whose password matches no hash stored for
    their username, every answer is a 400 without a token and the world
    (users and log rows) is unchanged. *)
Theorem login_token_only_for_matching_password (w : World) :
  (forall req user others,
     db_online w = true ->
     filter (fun u => String.eqb (username u) (body_username req)) (Users w)
     = user :: others ->
     bcrypt_compare (body_password req) (password_hash user) = Fulfilled true ->
     result_of (login_server req w)
     = Returned {| status := 200; body := LoginOk (jwt_sign (user_id user)) |}
     /\ result_of (login_auth req w)
        = Returned {| status := 200; body := LoginOk (jwt_sign (user_id user)) |})
  /\ (forall reqs,
        Forall (wrong_password w) reqs ->
        forall login, login = login_server \/ login = login_auth ->
        exists responses,
          result_of (login_attempts login reqs w) = Returned responses
          /\ length responses = length reqs
          /\ Forall (fun r => status r = 400 /\ token_of (body r) = None) responses
          /\ world_of (login_attempts login reqs w) = w).
Proof.
  split.
  - intros req user others Honline Hfilter Hmatch. split.
    + unfold login_server.
      rewrite (bind_returned _ _ _ _ _ _ (select_user_run _ w)).
      rewrite Honline, Hfilter, Hmatch. cbn [negb].
      unfold prepend, write_Logs, bind, emit, get_world. simpl.
      rewrite Honline. reflexivity.
    + unfold login_auth.
      rewrite (bind_returned _ _ _ _ _ _ (select_user_run _ w)).
      rewrite Honline, Hfilter, Hmatch. reflexivity.
  - intros reqs Hreqs login Hlogin.
    assert (Hrefuse : forall req, wrong_password w req ->
              result_of (login req w)
              = Returned {| status := 400; body := ErrorOnly "Invalid credentials" |}
              /\ world_of (login req w) = w).
    { intros req Hreq.
      destruct Hlogin as [-> | ->];
        [rewrite (login_server_refuses _ _ Hreq)
        |rewrite (login_auth_refuses _ _ Hreq)]; split; reflexivity. }
    destruct (refused_attempts login w Hrefuse reqs Hreqs) as [Hres Hw].
    eexists. split; [exact Hres|].
    split; [apply length_map|]. split; [|exact Hw].
    apply Forall_forall. intros r Hr.
    apply list_elem_of_fmap in Hr as (req & -> & _). split; reflexivity.
Qed.

End Login.

Lemma login_token_only_for_matching_password_witness :
  result_of (login_server (ext := demo) alice_login fresh_world)
  = Returned {| status := 200; body := LoginOk "token-1" |}
  /\ exists responses,
       result_of (login_attempts (login_server (ext := demo)) wrong_attempts
                    fresh_world)
       = Returned responses
       /\ length responses = 3%nat
       /\ Forall (fun r => status r = 400 /\ token_of (body r) = None) responses
       /\ world_of (login_attempts (login_server (ext := demo)) wrong_attempts
                      fresh_world)
          = fresh_world.
Proof.
  destruct (login_token_only_for_matching_password (ext := demo) fresh_world)
    as [Hright Hwrong].
  split.
  - apply (Hright alice_login alice []); reflexivity.
  - apply (Hwrong wrong_attempts); [|left; reflexivity].
    repeat constructor; intros u Hu Hname;
      apply list_elem_of_In in Hu; simpl in Hu; destruct Hu as [<-|[]];
      try reflexivity; discriminate Hname.
Defined.

(** ** Per-person records *)

Lemma flag_text_true (b : bool) : flag_text b = "true" -> b = true.
Proof. destruct b; [reflexivity | discriminate]. Qed.

(** A cover is only ever looked for on body parts of the given name. *)
Lemma cover_implies_part (name type : string) (person : Person) :
  cover_detected name type person = true -> part_detected name person = true.
Proof.
  unfold cover_detected, part_detected. intros Hcover.
  apply existsb_exists in Hcover as (bp & Hbp & _).
  apply list_elem_of_In, list_elem_of_filter in Hbp as [Hname Hbp].
  apply existsb_exists. exists bp. split.
  - apply list_elem_of_In. exact Hbp.
  - apply Is_true_true. exact Hname.
Qed.

(** C9.  In every record built by [backend/server.js], a cover flag that is
    ['true'] comes with its body-part flag being ['true']: face mask with
    face, helmet with head, gloves with hands. *)
Theorem cover_flag_implies_part_flag (person : Person) (index : nat) :
  (field "Face mask detected" (personResult_server person index) = Some (JStr "true")
   -> field "Face detected" (personResult_server person index) = Some (JStr "true"))
  /\ (field "Helmet detected" (personResult_server person index) = Some (JStr "true")
      -> field "Head detected" (personResult_server person index) = Some (JStr "true"))
  /\ (field "Gloves detected" (personResult_server person index) = Some (JStr "true")
      -> field "Hands detected" (personResult_server person index) = Some (JStr "true")).
Proof.
  cbn [personResult_server field String.eqb Ascii.eqb Bool.eqb].
  repeat split; intros Hcover; injection Hcover as Hcover;
    apply flag_text_true in Hcover;
    rewrite (cover_implies_part _ _ _ Hcover); reflexivity.
Qed.

Lemma cover_flag_implies_part_flag_witness :
  field "Face detected" (personResult_server worker 0) = Some (JStr "true")
  /\ field "Head detected" (personResult_server worker 0) = Some (JStr "true")
  /\ field "Hands detected" (personResult_server worker 0) = Some (JStr "true").
Proof.
  destruct (cover_flag_implies_part_flag worker 0) as (Hface & Hhead & Hhands).
  split; [apply Hface; reflexivity|].
  split; [apply Hhead; reflexivity|].
  apply Hhands; reflexivity.
Defined.

(** The same holds for the flags of the variants with confidences. *)
Lemma cover_flag_implies_part_flag_confidence (person : Person) (index : nat) :
  (field "Face mask detected" (personResult_confidence person index)
   = Some (JStr "true")
   -> field "Face detected" (personResult_confidence person index)
      = Some (JStr "true"))
  /\ (field "Helmet detected" (personResult_confidence person index)
      = Some (JStr "true")
      -> field "Head detected" (personResult_confidence person index)
         = Some (JStr "true"))
  /\ (field "Left hand cover detected" (personResult_confidence person index)
      = Some (JStr "true")
      -> field "Left hand detected" (personResult_confidence person index)
         = Some (JStr "true"))
  /\ (field "Right hand cover detected" (personResult_confidence person index)
      = Some (JStr "true")
      -> field "Right hand detected" (personResult_confidence person index)
         = Some (JStr "true")).
Proof.
  cbn [personResult_confidence field String.eqb Ascii.eqb Bool.eqb].
  repeat split; intros Hcover; injection Hcover as Hcover;
    apply flag_text_true in Hcover;
    rewrite (cover_implies_part _ _ _ Hcover); reflexivity.
Qed.

Lemma length_append_percent (s : string) :
  String.length (s ++ "%") = S (String.length s).
Proof. induction s as [|c s IH]; simpl; [reflexivity | rewrite IH; reflexivity]. Qed.

Lemma substring_last_percent (s : string) :
  substring (String.length s) 1 (s ++ "%") = "%".
Proof. induction s as [|c s IH]; simpl; [reflexivity | exact IH]. Qed.

Lemma endsWith_percent (s : string) : endsWith (s ++ "%") "%" = true.
Proof.
  unfold endsWith. rewrite length_append_percent.
  change (String.length "%") with 1%nat. cbn [Nat.leb].
  replace (S (String.length s) - 1)%nat with (String.length s) by lia.
  rewrite substring_last_percent. reflexivity.
Qed.

Lemma flag_is_no_confidence (b : bool) : is_confidence (JStr (flag_text b)) = false.
Proof. destruct b; reflexivity. Qed.

Lemma confidence_text_is_confidence (c : option Q) :
  is_confidence (JStr (confidence_text c)) = true.
Proof.
  unfold confidence_text, is_confidence.
  destruct c as [q|]; [|reflexivity].
  destruct (truthy (Some q)); [|reflexivity].
  rewrite endsWith_percent. reflexivity.
Qed.

Lemma field_In (key : string) (v : JsValue) (record : JsObject) :
  field key record = Some v -> In (key, v) record.
Proof.
  induction record as [|[k x] rest IH]; simpl; [discriminate|].
  destruct (String.eqb k key) eqn:Hk.
  - intros [= ->]. apply String.eqb_eq in Hk as ->. left. reflexivity.
  - intros Hrest. right. apply IH. exact Hrest.
Qed.

(** In the record of [backend/server.js] only ['Person detected'] is a
    confidence entry. *)
Lemma server_confidence_fields (person : Person) (index : nat) (key : string)
    (v : JsValue) :
  field key (personResult_server person index) = Some v ->
  is_confidence v = true ->
  key = "Person detected".
Proof.
  intros Hfield Hconf. apply field_In in Hfield.
  cbn [personResult_server In] in Hfield.
  repeat (destruct Hfield as [Hfield|Hfield];
          [injection Hfield as <- <-;
           first [reflexivity
                 | rewrite flag_is_no_confidence in Hconf; discriminate Hconf
                 | discriminate Hconf]
          |]).
  destruct Hfield.
Qed.

(** In the records with confidences, five fields are confidence entries. *)
Lemma confidence_variant_confidence_fields (person : Person) (index : nat)
    (key : string) (v : JsValue) :
  field key (personResult_confidence person index) = Some v ->
  is_confidence v = true ->
  key ∈ ["Person detected"; "Face mask detection confidence";
         "Head detection confidence"; "Helmet detection confidence";
         "Protective vest detection confidence"].
Proof.
  intros Hfield Hconf. apply field_In in Hfield.
  cbn [personResult_confidence In] in Hfield.
  repeat (destruct Hfield as [Hfield|Hfield];
          [injection Hfield as <- <-;
           first [rewrite flag_is_no_confidence in Hconf; discriminate Hconf
                 | discriminate Hconf
                 | apply list_elem_of_In; simpl; tauto]
          |]).
  destruct Hfield.
Qed.

(** Seven distinct confidence fields do not fit among fewer confidence
    entries. *)
Lemma too_few_confidence_entries (record : JsObject) (entries : list string) :
  (forall key v, field key record = Some v -> is_confidence v = true ->
                 key ∈ entries) ->
  (length entries < 7)%nat ->
  ~ covers_every_category record.
Proof.
  intros Hentries Hfew (flag_key & confidence_key & Hnodup & Hall).
  apply NoDup_app in Hnodup as (_ & _ & Hnodup).
  assert (Hsub : map confidence_key all_categories ⊆+ entries).
  { apply NoDup_submseteq; [exact Hnodup|].
    intros key Hkey.
    change (map confidence_key) with (fmap (M := list) confidence_key) in Hkey.
    apply list_elem_of_fmap in Hkey as (c & -> & _).
    destruct (Hall c) as (_ & v & Hfield & Hconf).
    exact (Hentries _ _ Hfield Hconf). }
  apply submseteq_length in Hsub. rewrite length_map in Hsub.
  simpl in Hsub. lia.
Qed.

Lemma server_record_misses_categories (person : Person) (index : nat) :
  ~ covers_every_category (personResult_server person index).
Proof.
  apply (too_few_confidence_entries _ ["Person detected"]).
  - intros key v Hfield Hconf.
    rewrite (server_confidence_fields _ _ _ _ Hfield Hconf). left.
  - simpl. lia.
Qed.

Lemma confidence_record_misses_categories (person : Person) (index : nat) :
  ~ covers_every_category (personResult_confidence person index).
Proof.
  eapply too_few_confidence_entries.
  - apply confidence_variant_confidence_fields.
  - simpl. lia.
Qed.

Lemma records_miss_categories :
  ~ covers_every_category (personResult_server worker 0)
  /\ ~ covers_every_category (personResult_confidence worker 0).
Proof.
  split.
  - apply server_record_misses_categories.
  - apply confidence_record_misses_categories.
Qed.

Lemma part_detected_spec (name : string) (person : Person) :
  part_detected name person = true
  <-> exists bp, bp ∈ person_BodyParts person /\ bp_Name bp = name.
Proof.
  unfold part_detected. rewrite existsb_exists. split.
  - intros (bp & Hbp & Hname). exists bp. split.
    + apply list_elem_of_In. exact Hbp.
    + apply String.eqb_eq. exact Hname.
  - intros (bp & Hbp & Hname). exists bp. split.
    + apply list_elem_of_In. exact Hbp.
    + apply String.eqb_eq. exact Hname.
Qed.

Lemma cover_detected_spec (name type : string) (person : Person) :
  cover_detected name type person = true
  <-> exists bp ed,
        bp ∈ person_BodyParts person /\ bp_Name bp = name
        /\ ed ∈ bp_EquipmentDetections bp /\ ed_Type ed = type.
Proof.
  unfold cover_detected. rewrite existsb_exists. split.
  - intros (bp & Hbp & Hcover).
    apply list_elem_of_In, list_elem_of_filter in Hbp as [Hname Hbp].
    apply existsb_exists in Hcover as (ed & Hed & Htype).
    exists bp, ed. split; [exact Hbp|].
    split; [apply String.eqb_eq, Is_true_true; exact Hname|].
    split; [apply list_elem_of_In; exact Hed | apply String.eqb_eq; exact Htype].
  - intros (bp & ed & Hbp & Hname & Hed & Htype). exists bp. split.
    + apply list_elem_of_In, list_elem_of_filter. split; [|exact Hbp].
      apply Is_true_true, String.eqb_eq. exact Hname.
    + apply existsb_exists. exists ed. split.
      * apply list_elem_of_In. exact Hed.
      * apply String.eqb_eq. exact Htype.
Qed.

(** In the record of the Render variant only ['Person detected'] is a
    confidence entry. *)
Lemma render_confidence_fields (person : Person) (index : nat) :
  confidence_entries_among (personResult_render person index) ["Person detected"].
Proof.
  intros key v Hfield Hconf. apply field_In in Hfield.
  cbn [personResult_render In] in Hfield.
  repeat (destruct Hfield as [Hfield|Hfield];
          [injection Hfield as <- <-;
           first [left
                 | rewrite flag_is_no_confidence in Hconf; discriminate Hconf
                 | discriminate Hconf]
          |]).
  destruct Hfield.
Qed.

Lemma flag_says_part (record : JsObject) (key name : string) (person : Person) :
  field key record = Some (JStr (flag_text (part_detected name person))) ->
  flag_says record key (has_part name person).
Proof.
  intros Hfield. unfold flag_says, has_part. rewrite <- part_detected_spec.
  destruct (part_detected name person); [left | right];
    (split; [|exact Hfield]); [reflexivity | discriminate].
Qed.

Lemma flag_says_cover (record : JsObject) (key name type : string) (person : Person) :
  field key record = Some (JStr (flag_text (cover_detected name type person))) ->
  flag_says record key (has_cover name type person).
Proof.
  intros Hfield. unfold flag_says, has_cover. rewrite <- cover_detected_spec.
  destruct (cover_detected name type person); [left | right];
    (split; [|exact Hfield]); [reflexivity | discriminate].
Qed.


(** C7 (as amended).  Every record holds the index it was built with, the
    person's own confidence as a percentage and ['true']/['false'] flags
    for face, face mask, head, helmet and protective vest, each telling
    whether the detector reports that body part, or that cover on that
    body part.  [backend/server.js] adds such flags for hands and gloves,
    the local and Lambda variants for the left and the right hand and their
    covers, the Render variant none.  Besides ['Person detected'] the
    records of [backend/server.js] and of the Render variant hold no
    confidence entry; those of the local and Lambda variants hold one, a
    percentage or ['N/A'], for face mask, head, helmet and protective vest
    only.  The records have no other fields, and the index a record is
    built with is the position, counted from 0, of its person in the
    detector's answer. *)
Theorem per_person_record_fields (person : Person) (index : nat) :
  (keys (personResult_server person index)
   = ["Person ID"; "Person detected"; "Face detected"; "Face mask detected";
      "Head detected"; "Helmet detected"; "Protective vest detected";
      "Hands detected"; "Gloves detected"]
   /\ shared_fields (personResult_server person index) person index
   /\ flag_says (personResult_server person index) "Hands detected"
        (has_part "HAND" person)
   /\ flag_says (personResult_server person index) "Gloves detected"
        (has_cover "HAND" "HAND_COVER" person)
   /\ confidence_entries_among (personResult_server person index)
        ["Person detected"])
  /\ (keys (personResult_render person index)
      = ["Person ID"; "Person detected"; "Face detected"; "Face mask detected";
         "Head detected"; "Helmet detected"; "Protective vest detected"]
      /\ shared_fields (personResult_render person index) person index
      /\ confidence_entries_among (personResult_render person index)
           ["Person detected"])
  /\ (keys (personResult_confidence person index)
      = ["Person ID"; "Person detected"; "Face detected"; "Face mask detected";
         "Face mask detection confidence"; "Head detected"; "Helmet detected";
         "Head detection confidence"; "Helmet detection confidence";
         "Protective vest detected"; "Protective vest detection confidence";
         "Left hand detected"; "Left hand cover detected";
         "Right hand detected"; "Right hand cover detected"]
      /\ shared_fields (personResult_confidence person index) person index
      /\ flag_says (personResult_confidence person index) "Left hand detected"
           (has_part "LEFT_HAND" person)
      /\ flag_says (personResult_confidence person index) "Left hand cover detected"
           (has_cover "LEFT_HAND" "HAND_COVER" person)
      /\ flag_says (personResult_confidence person index) "Right hand detected"
           (has_part "RIGHT_HAND" person)
      /\ flag_says (personResult_confidence person index) "Right hand cover detected"
           (has_cover "RIGHT_HAND" "HAND_COVER" person)
      /\ field "Face mask detection confidence" (personResult_confidence person index)
         = Some (JStr (confidence_text (cover_confidence "FACE" person)))
      /\ field "Head detection confidence" (personResult_confidence person index)
         = Some (JStr (confidence_text (part_confidence "HEAD" person)))
      /\ field "Helmet detection confidence" (personResult_confidence person index)
         = Some (JStr (confidence_text (cover_confidence "HEAD" person)))
      /\ field "Protective vest detection confidence"
           (personResult_confidence person index)
         = Some (JStr (confidence_text (cover_confidence "BODY" person)))
      /\ Forall (fun key =>
                   exists v, field key (personResult_confidence person index) = Some v
                             /\ is_confidence v = true)
           ["Face mask detection confidence"; "Head detection confidence";
            "Helmet detection confidence"; "Protective vest detection confidence"]
      /\ confidence_entries_among (personResult_confidence person index)
           ["Person detected"; "Face mask detection confidence";
            "Head detection confidence"; "Helmet detection confidence";
            "Protective vest detection confidence"])
  /\ (forall (persons : list Person) (i : nat),
        persons !! i = Some person ->
        Forall (fun record_of =>
                  perPersonResults record_of persons !! i = Some (record_of person i))
          [personResult_server; personResult_render; personResult_confidence]).
Proof.
  assert (Hshared : forall record : JsObject,
            field "Person ID" record = Some (JNum (Z.of_nat index)) ->
            field "Person detected" record = Some (JStr (person_detected_text person)) ->
            field "Face detected" record
            = Some (JStr (flag_text (part_detected "FACE" person))) ->
            field "Face mask detected" record
            = Some (JStr (flag_text (cover_detected "FACE" "FACE_COVER" person))) ->
            field "Head detected" record
            = Some (JStr (flag_text (part_detected "HEAD" person))) ->
            field "Helmet detected" record
            = Some (JStr (flag_text (cover_detected "HEAD" "HEAD_COVER" person))) ->
            field "Protective vest detected" record
            = Some (JStr (flag_text (cover_detected "BODY" "BODY_COVER" person))) ->
            shared_fields record person index).
  { intros record Hid Hperson Hface Hmask Hhead Hhelmet Hvest.
    split; [exact Hid|]. split; [exact Hperson|].
    split; [apply flag_says_part; exact Hface|].
    split; [apply flag_says_cover; exact Hmask|].
    split; [apply flag_says_part; exact Hhead|].
    split; [apply flag_says_cover; exact Hhelmet|].
    apply flag_says_cover; exact Hvest. }
  split; [|split; [|split]].
  - split; [reflexivity|]. split; [apply Hshared; reflexivity|].
    split; [apply flag_says_part; reflexivity|].
    split; [apply flag_says_cover; reflexivity|].
    intros key v Hfield Hconf.
    rewrite (server_confidence_fields _ _ _ _ Hfield Hconf). left.
  - split; [reflexivity|]. split; [apply Hshared; reflexivity|].
    apply render_confidence_fields.
  - split; [reflexivity|]. split; [apply Hshared; reflexivity|].
    split; [apply flag_says_part; reflexivity|].
    split; [apply flag_says_cover; reflexivity|].
    split; [apply flag_says_part; reflexivity|].
    split; [apply flag_says_cover; reflexivity|].
    do 4 (split; [reflexivity|]).
    split.
    + repeat (constructor;
              [eexists; split; [reflexivity | apply confidence_text_is_confidence]|]).
      constructor.
    + intros key v. apply confidence_variant_confidence_fields.
  - intros persons i Hperson.
    repeat (constructor;
            [unfold perPersonResults; rewrite list_lookup_imap, Hperson; reflexivity|]).
    constructor.
Qed.

Lemma per_person_record_fields_witness :
  perPersonResults personResult_server [bystander; worker] !! 1%nat
  = Some (personResult_server worker 1)
  /\ field "Person ID" (personResult_server worker 1) = Some (JNum 1)
  /\ flag_says (personResult_server worker 1) "Gloves detected"
       (has_cover "HAND" "HAND_COVER" worker).
Proof.
  destruct (per_person_record_fields worker 1)
    as ((_ & (Hid & _) & _ & Hgloves & _) & _ & _ & Hposition).
  split; [|split; [exact Hid | exact Hgloves]].
  exact (Forall_inv (Hposition [bystander; worker] 1%nat eq_refl)).
Defined.

(** ** Confidences *)

Lemma confidence_text_zero_or_missing (c : option Q) :
  zero_or_missing c -> confidence_text c = "N/A".
Proof.
  destruct c as [q|]; [|reflexivity]. simpl. intros Hzero.
  apply Qeq_bool_iff in Hzero. rewrite Hzero. reflexivity.
Qed.

(** C10.  In the records with confidences, a category confidence that the
    detector reports as exactly 0 is rendered ['N/A'], just as a missing
    one, for each of the four confidence fields; and a person without a
    [Confidence] is reported with ['Person detected': '0.00%']. *)
Theorem zero_confidence_reads_as_missing (person : Person) (index : nat) :
  (zero_or_missing (cover_confidence "FACE" person) ->
   field "Face mask detection confidence" (personResult_confidence person index)
   = Some (JStr "N/A"))
  /\ (zero_or_missing (part_confidence "HEAD" person) ->
      field "Head detection confidence" (personResult_confidence person index)
      = Some (JStr "N/A"))
  /\ (zero_or_missing (cover_confidence "HEAD" person) ->
      field "Helmet detection confidence" (personResult_confidence person index)
      = Some (JStr "N/A"))
  /\ (zero_or_missing (cover_confidence "BODY" person) ->
      field "Protective vest detection confidence"
        (personResult_confidence person index)
      = Some (JStr "N/A"))
  /\ (person_Confidence person = None ->
      field "Person detected" (personResult_confidence person index)
      = Some (JStr "0.00%")).
Proof.
  cbn [personResult_confidence field String.eqb Ascii.eqb Bool.eqb].
  repeat split; intros Hsource.
  1-4: rewrite (confidence_text_zero_or_missing _ Hsource); reflexivity.
  unfold person_detected_text. rewrite Hsource. reflexivity.
Qed.

Lemma zero_confidence_reads_as_missing_witness :
  map (fun key => field key (personResult_confidence faint_person 0))
    ["Face mask detection confidence"; "Head detection confidence";
     "Helmet detection confidence"; "Protective vest detection confidence";
     "Person detected"]
  = [Some (JStr "N/A"); Some (JStr "N/A"); Some (JStr "N/A"); Some (JStr "N/A");
     Some (JStr "0.00%")].
Proof.
  destruct (zero_confidence_reads_as_missing faint_person 0)
    as (Hmask & Hhead & Hhelmet & Hvest & Hperson).
  cbn [map].
  rewrite Hmask by exact I.
  rewrite Hhead by reflexivity.
  rewrite Hhelmet by reflexivity.
  rewrite Hvest by exact I.
  rewrite Hperson by reflexivity.
  reflexivity.
Defined.

(** * Further properties of the code *)

(** ** The shape of a re-encoding run *)

Section ResizeRuns.
Context {ext : Collaborators}.

(** The rounds of the loop: each one re-encodes, at width 640 and quality
    50, a buffer that was over the ceiling; there are at most [fuel] of
    them. *)
Lemma resize_further_rounds (fuel : nat) :
  forall (b : Buffer) (w : World),
  exists rounds : list Buffer,
    (length rounds <= fuel)%nat
    /\ Forall (fun r => exceeds_ceiling r = true) rounds
    /\ trace_of (resize_further fuel b w)
       = map (fun r => SharpEncode (FromBuffer r) 640 50) rounds.
Proof.
  induction fuel as [|fuel IH]; intros b w.
  - exists []. simpl. destruct (exceeds_ceiling b); repeat split; constructor.
  - destruct (exceeds_ceiling b) eqn:Hb.
    + rewrite (resize_further_step _ _ _ Hb). unfold bind.
      rewrite sharp_buffer_run.
      destruct (sharp_encode b 640 50) as [smaller|e]; simpl.
      * destruct (IH smaller w) as (rounds & Hlen & Hover & Htrace).
        exists (b :: rounds).
        destruct (resize_further fuel smaller w) as [[o w2] t2].
        unfold trace_of in *. simpl in *. rewrite Htrace.
        split; [lia|]. split; [constructor; assumption | reflexivity].
      * exists [b]. split; [simpl; lia|].
        split; [repeat constructor; exact Hb | reflexivity].
    + rewrite (resize_further_within _ _ _ Hb). exists [].
      repeat split; [simpl; lia | constructor].
Qed.

(** Every run of [resizeAndCompressImage] asks for one encoding of the
    file at width 1280 and quality 80, then for at most [fuel] encodings at
    width 640 and quality 50, each of a buffer that was over the ceiling,
    and logs its error message once, at the end, exactly when it throws. *)
Theorem resize_run_shape (fuel : nat) (imagePath : string) (w : World) :
  exists rounds : list Buffer,
    (length rounds <= fuel)%nat
    /\ Forall (fun r => exceeds_ceiling r = true) rounds
    /\ trace_of (resizeAndCompressImage fuel imagePath w)
       = (SharpEncode (FromFile imagePath) 1280 80
            :: map (fun r => SharpEncode (FromBuffer r) 640 50) rounds
            ++ match result_of (resizeAndCompressImage fuel imagePath w) with
               | Threw _ => [ConsoleError "Error resizing and compressing image:"]
               | _ => []
               end)%list.
Proof.
  unfold resizeAndCompressImage, try_catch, bind.
  destruct (folder w !! imagePath) as [bytes|] eqn:Hfile.
  - rewrite (sharp_file_run _ _ _ _ _ Hfile).
    destruct (sharp_encode bytes 1280 80) as [first|e]; simpl.
    + destruct (resize_further_rounds fuel first w) as (rounds & Hlen & Hover & Ht).
      exists rounds. split; [exact Hlen|]. split; [exact Hover|].
      destruct (resize_further fuel first w) as [[o w2] t2].
      unfold trace_of, result_of in *. simpl in *. subst t2.
      destruct o; simpl; rewrite ?app_nil_r; reflexivity.
    + exists []. repeat split; [simpl; lia | constructor].
  - rewrite (sharp_file_missing _ _ _ _ Hfile). exists [].
    repeat split; [simpl; lia | constructor].
Qed.

(** An error of the codec leaves [resizeAndCompressImage] as it was
    thrown. *)
Lemma resize_rethrows_first_pass (fuel : nat) (imagePath : string) (w : World)
    (bytes : Buffer) (e : Error) :
  folder w !! imagePath = Some bytes ->
  sharp_encode bytes 1280 80 = Rejected e ->
  resizeAndCompressImage fuel imagePath w
  = (Threw e, w,
     [SharpEncode (FromFile imagePath) 1280 80;
      ConsoleError "Error resizing and compressing image:"]).
Proof.
  intros Hfile Hfirst. unfold resizeAndCompressImage, try_catch, bind.
  rewrite (sharp_file_run _ _ _ _ _ Hfile), Hfirst. reflexivity.
Qed.

Lemma resize_further_throws (fuel : nat) :
  forall (b : Buffer) (w : World) (e : Error),
    result_of (resize_further fuel b w) = Threw e ->
    exists bytes, sharp_encode bytes 640 50 = Rejected e.
Proof.
  induction fuel as [|fuel IH]; intros b w e Hrun.
  - simpl in Hrun. destruct (exceeds_ceiling b); discriminate Hrun.
  - destruct (exceeds_ceiling b) eqn:Hb.
    + rewrite (resize_further_step _ _ _ Hb) in Hrun.
      unfold bind in Hrun. rewrite sharp_buffer_run in Hrun.
      destruct (sharp_encode b 640 50) as [smaller|e'] eqn:Hround; simpl in Hrun.
      * apply (IH smaller w e).
        destruct (resize_further fuel smaller w) as [[o w2] t2]. exact Hrun.
      * injection Hrun as <-. exists b. exact Hround.
    + rewrite (resize_further_within _ _ _ Hb) in Hrun. discriminate Hrun.
Qed.

(** [resizeAndCompressImage] invents no error of its own: whatever it
    throws is the error of a codec call, at 1280/80 or at 640/50, or the
    codec's complaint about a missing file. *)
Theorem resize_throws_codec_error (fuel : nat) (imagePath : string) (w : World)
    (e : Error) :
  result_of (resizeAndCompressImage fuel imagePath w) = Threw e ->
  (folder w !! imagePath = None /\ e = "Input file is missing")
  \/ exists bytes width quality,
       (width = 1280 /\ quality = 80 \/ width = 640 /\ quality = 50)
       /\ sharp_encode bytes width quality = Rejected e.
Proof.
  unfold resizeAndCompressImage. rewrite try_rethrow_result.
  unfold bind. intros Hrun.
  destruct (folder w !! imagePath) as [bytes|] eqn:Hfile.
  - right. rewrite (sharp_file_run _ _ _ _ _ Hfile) in Hrun.
    destruct (sharp_encode bytes 1280 80) as [first|e'] eqn:Hfirst; simpl in Hrun.
    + destruct (resize_further fuel first w) as [[o w2] t2] eqn:Hloop.
      simpl in Hrun. destruct (resize_further_throws fuel first w e) as [b Hb].
      { rewrite Hloop. exact Hrun. }
      exists b, 640, 50. split; [right; split; reflexivity | exact Hb].
    + injection Hrun as <-. exists bytes, 1280, 80.
      split; [left; split; reflexivity | exact Hfirst].
  - left. rewrite (sharp_file_missing _ _ _ _ Hfile) in Hrun.
    injection Hrun as <-. split; reflexivity.
Qed.

(** More fuel does not change a run that has ended. *)
Lemma resize_further_more_fuel (fuel : nat) :
  forall (b : Buffer) (w : World),
    result_of (resize_further fuel b w) <> Diverged ->
    forall extra, resize_further (fuel + extra) b w = resize_further fuel b w.
Proof.
  induction fuel as [|fuel IH]; intros b w Hended extra.
  - simpl in Hended. destruct (exceeds_ceiling b) eqn:Hb.
    + exfalso. apply Hended. reflexivity.
    + rewrite !(resize_further_within _ _ _ Hb). reflexivity.
  - destruct (exceeds_ceiling b) eqn:Hb.
    + change (S fuel + extra)%nat with (S (fuel + extra)).
      rewrite !(resize_further_step _ _ _ Hb) in *.
      unfold bind in *. rewrite sharp_buffer_run in *.
      destruct (sharp_encode b 640 50) as [smaller|e]; simpl in *; [|reflexivity].
      rewrite (IH smaller w); [reflexivity|].
      destruct (resize_further fuel smaller w) as [[o w2] t2].
      unfold result_of in *. simpl in *. exact Hended.
    + rewrite !(resize_further_within _ _ _ Hb). reflexivity.
Qed.

(** Once [resizeAndCompressImage] has returned or thrown, running it longer
    gives the same outcome, world and effects. *)
Lemma resize_more_fuel (fuel extra : nat) (imagePath : string) (w : World) :
  result_of (resizeAndCompressImage fuel imagePath w) <> Diverged ->
  resizeAndCompressImage (fuel + extra) imagePath w
  = resizeAndCompressImage fuel imagePath w.
Proof.
  unfold resizeAndCompressImage, try_catch, bind.
  destruct (sharp (FromFile imagePath) 1280 80 w) as [[o w1] t1].
  destruct o as [first| |]; try reflexivity.
  intros Hended. rewrite resize_further_more_fuel; [reflexivity|].
  destruct (resize_further fuel first w1) as [[o w2] t2].
  unfold result_of in *. simpl in *. destruct o; try discriminate; exact Hended.
Qed.

End ResizeRuns.

Lemma resize_throws_codec_error_witness :
  (folder one_frame_world !! "frame-001.png" = None
   /\ "Input buffer contains unsupported image format" = "Input file is missing")
  \/ exists bytes width quality,
       (width = 1280 /\ quality = 80 \/ width = 640 /\ quality = 50)
       /\ sharp_encode (Collaborators := refusing_codec) bytes width quality
          = Rejected "Input buffer contains unsupported image format".
Proof.
  apply (resize_throws_codec_error (ext := refusing_codec) 2 "frame-001.png"
           one_frame_world).
  reflexivity.
Defined.

Lemma resize_more_fuel_witness :
  resizeAndCompressImage (ext := demo) (0 + 5) "frame-001.png" one_frame_world
  = resizeAndCompressImage (ext := demo) 0 "frame-001.png" one_frame_world.
Proof.
  apply (resize_more_fuel (ext := demo) 0 5 "frame-001.png" one_frame_world).
  vm_compute. discriminate.
Defined.

(** ** What a run does to the world *)

Section Respect.
Context {A B : Type} (R : World -> World -> Prop) `{!PreOrder R}.

Lemma respects_ret (a : A) : respects R (ret a).
Proof. intros w. reflexivity. Qed.

Lemma respects_throw (e : Error) : respects R (throw (A := A) e).
Proof. intros w. reflexivity. Qed.

Lemma respects_diverge : respects R (diverge (A := A)).
Proof. intros w. reflexivity. Qed.

Lemma respects_await (p : settled A) : respects R (await p).
Proof. destruct p; intros w; reflexivity. Qed.

Lemma respects_bind (m : M A) (k : A -> M B) :
  respects R m -> (forall a, respects R (k a)) -> respects R (bind m k).
Proof.
  intros Hm Hk w. unfold bind. specialize (Hm w).
  destruct (m w) as [[o w1] t1]. unfold world_of in *. simpl in *.
  destruct o as [a| |]; simpl; try exact Hm.
  specialize (Hk a w1). destruct (k a w1) as [[o2 w2] t2]. simpl in *.
  etransitivity; eassumption.
Qed.

Lemma respects_try_catch (m : M A) (handler : Error -> M A) :
  respects R m -> (forall e, respects R (handler e)) ->
  respects R (try_catch m handler).
Proof.
  intros Hm Hh w. unfold try_catch. specialize (Hm w).
  destruct (m w) as [[o w1] t1]. unfold world_of in *. simpl in *.
  destruct o as [a|e|]; simpl; try exact Hm.
  specialize (Hh e w1). destruct (handler e w1) as [[o2 w2] t2]. simpl in *.
  etransitivity; eassumption.
Qed.

End Respect.

Lemma respects_emit (R : World -> World -> Prop) `{!PreOrder R} (ev : Event) :
  respects R (emit ev).
Proof. intros w. reflexivity. Qed.

(** Reading the world: what follows may depend on it. *)
Lemma respects_get_world {B : Type} (R : World -> World -> Prop) `{!PreOrder R}
    (k : World -> M B) :
  (forall w, R w (world_of (k w w))) -> respects R (bind get_world k).
Proof.
  intros Hk w. unfold bind, get_world. simpl. specialize (Hk w).
  destruct (k w w) as [[o w2] t2]. exact Hk.
Qed.

#[local] Instance keeps_files_preorder : PreOrder keeps_files.
Proof.
  split.
  - intros w name Hname. exact Hname.
  - intros w1 w2 w3 H12 H23 name Hname. apply H23, H12, Hname.
Qed.

Section WorldOfPipeline.
Context {ext : Collaborators}.

Lemma sharp_unchanged (input : SharpInput) (width quality : Z) :
  respects eq (sharp input width quality).
Proof.
  intros w. unfold sharp, bind, emit, get_world. simpl.
  destruct input as [name|b].
  - destruct (folder w !! name) as [bytes|]; [|reflexivity].
    destruct (sharp_encode bytes width quality); reflexivity.
  - destruct (sharp_encode b width quality); reflexivity.
Qed.

Lemma analyzePPEInImage_unchanged (v : Variant) (imageBuffer : Buffer) :
  respects eq (analyzePPEInImage v imageBuffer).
Proof.
  intros w. rewrite analyzePPEInImage_run.
  destruct (detectProtectiveEquipment imageBuffer); reflexivity.
Qed.

Lemma resizeAndCompressImage_unchanged (fuel : nat) (imagePath : string) :
  respects eq (resizeAndCompressImage fuel imagePath).
Proof. intros w. symmetry. apply resizeAndCompressImage_world. Qed.

Lemma analyze_each_unchanged (v : Variant) (fuel : nat) (files : list string) :
  forall ppeData, respects eq (analyze_each v fuel files ppeData).
Proof.
  induction files as [|file rest IH]; intros ppeData.
  - apply respects_ret; typeclasses eauto.
  - cbn [analyze_each].
    apply respects_bind; [typeclasses eauto | apply resizeAndCompressImage_unchanged |].
    intros resized.
    apply respects_bind; [typeclasses eauto | | intros acc; apply IH].
    apply respects_try_catch; [typeclasses eauto | |].
    + apply respects_bind; [typeclasses eauto | apply analyzePPEInImage_unchanged |].
      intros r. apply respects_ret; typeclasses eauto.
    + intros e. apply respects_bind; [typeclasses eauto | |].
      * apply respects_emit; typeclasses eauto.
      * intros _. apply respects_ret; typeclasses eauto.
Qed.

(** [analyzePPEInFrames] only reads: however it ends, the folder and the
    tables are as before. *)
Lemma analyzePPEInFrames_unchanged (v : Variant) (fuel : nat) :
  respects eq (analyzePPEInFrames v fuel).
Proof.
  unfold analyzePPEInFrames.
  apply respects_bind; [typeclasses eauto | apply respects_emit; typeclasses eauto |].
  intros _. apply respects_get_world; [typeclasses eauto|].
  intros w. apply analyze_each_unchanged.
Qed.

End WorldOfPipeline.

(** ** The upload handler of [backend/server.js] *)

Lemma respects_unchanged {A : Type} (R : World -> World -> Prop) `{!Reflexive R}
    (m : M A) :
  respects eq m -> respects R m.
Proof. intros Hm w. rewrite <- (Hm w). reflexivity. Qed.

Lemma write_frames_keeps (frames : list Buffer) :
  forall (i : nat) (d : gmap string Buffer) (name : string),
    is_Some (d !! name) -> is_Some (write_frames i frames d !! name).
Proof.
  induction frames as [|frame rest IH]; intros i d name Hname; [exact Hname|].
  simpl. apply IH. apply lookup_insert_is_Some.
  destruct (decide (frame_name i = name)); [left; assumption | right; split; assumption].
Qed.

#[local] Instance counters_raised_preorder : PreOrder counters_raised.
Proof.
  split.
  - intros r. left. reflexivity.
  - intros r1 r2 r3 [-> | (Hupload & Hid & Haction & Hs & Hf)] H23; [exact H23|].
    destruct H23 as [-> | (_ & Hid' & Haction' & Hs' & Hf')]; right.
    + repeat split; assumption.
    + split; [exact Hupload|]. split; [congruence|]. split; [exact Haction'|].
      split; lia.
Qed.

#[local] Instance only_upload_counters_preorder : PreOrder only_upload_counters.
Proof.
  split.
  - intros w. repeat split; reflexivity.
  - intros w1 w2 w3 (Hu1 & Ho1 & Hr1) (Hu2 & Ho2 & Hr2).
    split; [congruence|]. split; [congruence|]. etransitivity; eassumption.
Qed.

#[local] Instance same_tables_preorder : PreOrder same_tables.
Proof.
  split.
  - intros w. repeat split; reflexivity.
  - intros w1 w2 w3 (Hu1 & Hl1 & Ho1) (Hu2 & Hl2 & Ho2).
    repeat split; congruence.
Qed.

Lemma same_tables_only_upload_counters (w w' : World) :
  same_tables w w' -> only_upload_counters w w'.
Proof.
  intros (Hu & Hl & Ho). split; [exact Hu|]. split; [exact Ho|].
  rewrite Hl. reflexivity.
Qed.

Lemma respects_impl {A : Type} (R R' : World -> World -> Prop) (m : M A) :
  (forall w w', R w w' -> R' w w') -> respects R m -> respects R' m.
Proof. intros Himpl Hm w. apply Himpl, Hm. Qed.

(** The two [UPDATE] statements raise counters of ['upload'] rows only. *)
Lemma bump_successful_raised (uid : Z) (rows : list LogRow) :
  Forall2 counters_raised rows (bump_successful uid rows).
Proof.
  unfold bump_successful.
  induction rows as [|r rows IH]; simpl; constructor; [|exact IH].
  destruct ((log_user_id r =? uid) && String.eqb (action r) "upload") eqn:Hrow;
    [|left; reflexivity].
  apply andb_true_iff in Hrow as [_ Haction]. apply String.eqb_eq in Haction.
  right. simpl. split; [exact Haction|]. split; [reflexivity|].
  split; [exact Haction|]. split; lia.
Qed.

Lemma bump_failed_raised (uid : Z) (rows : list LogRow) :
  Forall2 counters_raised rows (bump_failed uid rows).
Proof.
  unfold bump_failed.
  induction rows as [|r rows IH]; simpl; constructor; [|exact IH].
  destruct ((log_user_id r =? uid) && String.eqb (action r) "upload") eqn:Hrow;
    [|left; reflexivity].
  apply andb_true_iff in Hrow as [_ Haction]. apply String.eqb_eq in Haction.
  right. simpl. split; [exact Haction|]. split; [reflexivity|].
  split; [exact Haction|]. split; lia.
Qed.

(** A table without ['upload'] rows is left as it is. *)
Lemma no_upload_rows_unchanged (rows rows' : list LogRow) :
  Forall2 counters_raised rows rows' ->
  (forall r, r ∈ rows -> action r <> "upload") ->
  rows' = rows.
Proof.
  induction 1 as [|r r' rows rows' Hrow _ IH]; intros Hnone; [reflexivity|].
  rewrite IH by (intros r0 Hr0; apply Hnone; right; exact Hr0).
  destruct Hrow as [-> | (Hupload & _)]; [reflexivity|].
  exfalso. apply (Hnone r); [left | exact Hupload].
Qed.

Lemma counts_success_bind {A : Type} (uid : Z) (m : M A) (k : A -> M Response) :
  respects same_tables m ->
  (forall a w1, counts_success uid w1 (k a w1)) ->
  forall w, counts_success uid w (bind m k w).
Proof.
  intros Hm Hk w. unfold bind. specialize (Hm w).
  destruct (m w) as [[o w1] t1]. unfold world_of in Hm. simpl in Hm.
  destruct Hm as (Hu & Hl & Ho).
  destruct o as [a| |].
  - specialize (Hk a w1). destruct (k a w1) as [[o2 w2] t2].
    unfold counts_success, world_of, result_of in *. simpl in *.
    rewrite <- Hu, <- Ho, <- Hl. exact Hk.
  - unfold counts_success, world_of, result_of. simpl. repeat split; assumption.
  - unfold counts_success, world_of, result_of. simpl. repeat split; assumption.
Qed.

Section ServerUpload.
Context {ext : Collaborators}.

Lemma writeFileSync_keeps_files (name : string) (data : Buffer) :
  respects keeps_files (writeFileSync name data).
Proof.
  intros w key Hkey. rewrite writeFileSync_run. unfold world_of. simpl.
  apply lookup_insert_is_Some.
  destruct (decide (name = key)); [left; assumption | right; split; assumption].
Qed.

Lemma extractFrames_keeps_files (v : Variant) (videoPath : string) :
  respects keeps_files (extractFrames v videoPath).
Proof.
  intros w key Hkey. unfold extractFrames, bind, emit, get_world, console_log. simpl.
  destruct (folder w !! videoPath) as [video|].
  - destruct (ffmpeg_frames video) as [frames|e]; simpl.
    + destruct (chatty v); simpl; apply write_frames_keeps; exact Hkey.
    + destruct (chatty v); exact Hkey.
  - destruct (chatty v); exact Hkey.
Qed.

Lemma write_Logs_keeps_files (sql complaint : string)
    (change : list LogRow -> list LogRow) :
  respects keeps_files (write_Logs sql complaint change).
Proof.
  intros w key Hkey. unfold write_Logs, bind, emit, get_world. simpl.
  destruct (db_online w); exact Hkey.
Qed.

Lemma refused_statement_unchanged (sql complaint : string) :
  respects eq (refused_statement sql complaint).
Proof. intros w. reflexivity. Qed.

(** [backend/server.js] never removes a file from its working folder:
    whatever the request and however it ends, every file that was there is
    still there. *)
Theorem upload_server_keeps_files (fuel : nat) (req : UploadRequest) :
  respects keeps_files (upload_server fuel req).
Proof.
  unfold upload_server.
  apply respects_bind; [typeclasses eauto | |].
  - apply respects_try_catch; [typeclasses eauto | |].
    + repeat (apply respects_bind; [typeclasses eauto | | intros ?]);
        first [ apply respects_emit | apply respects_await | apply respects_ret ];
        typeclasses eauto.
    + intros e. apply respects_ret; typeclasses eauto.
  - intros [uid|refusal]; [|apply respects_ret; typeclasses eauto].
    destruct (file req) as [upload|]; [|apply respects_ret; typeclasses eauto].
    apply respects_try_catch; [typeclasses eauto | |].
    + apply respects_bind; [typeclasses eauto | apply respects_emit; typeclasses eauto |].
      intros _.
      apply respects_bind; [typeclasses eauto | apply writeFileSync_keeps_files |].
      intros _.
      apply respects_bind; [typeclasses eauto | apply extractFrames_keeps_files |].
      intros _.
      apply respects_bind; [typeclasses eauto | |].
      { apply respects_unchanged; [typeclasses eauto|].
        apply analyzePPEInFrames_unchanged. }
      intros ppeData.
      apply respects_bind; [typeclasses eauto | apply write_Logs_keeps_files |].
      intros _. apply respects_ret; typeclasses eauto.
    + intros e.
      apply respects_bind; [typeclasses eauto | apply respects_emit; typeclasses eauto |].
      intros _.
      apply respects_bind; [typeclasses eauto | apply write_Logs_keeps_files |].
      intros _.
      apply respects_bind; [typeclasses eauto | |].
      { apply respects_unchanged; [typeclasses eauto|].
        apply refused_statement_unchanged. }
      intros _. apply respects_ret; typeclasses eauto.
Qed.

Lemma writeFileSync_same_tables (name : string) (data : Buffer) :
  respects same_tables (writeFileSync name data).
Proof. intros w. rewrite writeFileSync_run. repeat split; reflexivity. Qed.

Lemma extractFrames_same_tables (v : Variant) (videoPath : string) :
  respects same_tables (extractFrames v videoPath).
Proof.
  intros w. unfold extractFrames, bind, emit, get_world, console_log. simpl.
  destruct (folder w !! videoPath) as [video|].
  - destruct (ffmpeg_frames video) as [frames|e]; simpl;
      destruct (chatty v); repeat split; reflexivity.
  - destruct (chatty v); repeat split; reflexivity.
Qed.

Lemma writeFileSync_tables (name : string) (data : Buffer) :
  respects only_upload_counters (writeFileSync name data).
Proof.
  apply (respects_impl same_tables); [apply same_tables_only_upload_counters|].
  apply writeFileSync_same_tables.
Qed.

Lemma extractFrames_tables (v : Variant) (videoPath : string) :
  respects only_upload_counters (extractFrames v videoPath).
Proof.
  apply (respects_impl same_tables); [apply same_tables_only_upload_counters|].
  apply extractFrames_same_tables.
Qed.

Lemma bump_successful_tables (sql complaint : string) (uid : Z) :
  respects only_upload_counters (write_Logs sql complaint (bump_successful uid)).
Proof.
  intros w. unfold write_Logs, bind, emit, get_world. simpl.
  destruct (db_online w) eqn:Honline; [|reflexivity].
  unfold world_of. simpl. split; [reflexivity|]. split; [reflexivity|].
  apply bump_successful_raised.
Qed.

Lemma bump_failed_tables (sql complaint : string) (uid : Z) :
  respects only_upload_counters (write_Logs sql complaint (bump_failed uid)).
Proof.
  intros w. unfold write_Logs, bind, emit, get_world. simpl.
  destruct (db_online w) eqn:Honline; [|reflexivity].
  unfold world_of. simpl. split; [reflexivity|]. split; [reflexivity|].
  apply bump_failed_raised.
Qed.

Lemma upload_server_only_upload_counters (fuel : nat) (req : UploadRequest) :
  respects only_upload_counters (upload_server fuel req).
Proof.
  unfold upload_server.
  apply respects_bind; [typeclasses eauto | |].
  - apply respects_try_catch; [typeclasses eauto | |].
    + repeat (apply respects_bind; [typeclasses eauto | | intros ?]);
        first [ apply respects_emit | apply respects_await | apply respects_ret ];
        typeclasses eauto.
    + intros e. apply respects_ret; typeclasses eauto.
  - intros [uid|refusal]; [|apply respects_ret; typeclasses eauto].
    destruct (file req) as [upload|]; [|apply respects_ret; typeclasses eauto].
    apply respects_try_catch; [typeclasses eauto | |].
    + apply respects_bind; [typeclasses eauto | apply respects_emit; typeclasses eauto |].
      intros _.
      apply respects_bind; [typeclasses eauto | apply writeFileSync_tables |].
      intros _.
      apply respects_bind; [typeclasses eauto | apply extractFrames_tables |].
      intros _.
      apply respects_bind; [typeclasses eauto | |].
      { apply respects_unchanged; [typeclasses eauto|].
        apply analyzePPEInFrames_unchanged. }
      intros ppeData.
      apply respects_bind; [typeclasses eauto | apply bump_successful_tables |].
      intros _. apply respects_ret; typeclasses eauto.
    + intros e.
      apply respects_bind; [typeclasses eauto | apply respects_emit; typeclasses eauto |].
      intros _.
      apply respects_bind; [typeclasses eauto | apply bump_failed_tables |].
      intros _.
      apply respects_bind; [typeclasses eauto | |].
      { apply respects_unchanged; [typeclasses eauto|].
        apply refused_statement_unchanged. }
      intros _. apply respects_ret; typeclasses eauto.
Qed.

(** An upload to [backend/server.js] leaves the users and the connection
    alone and neither adds nor removes a row of [Logs]; a row changes only
    when its action is ['upload'], and then only by its counters going up.
    More precisely, [Logs] changes in one way only: when the database
    answers, the token is valid and a file is attached, an answer of 200
    raises [successful_requests], and an answer of 500 [failed_requests],
    by one in the ['upload'] rows of the token's user; a request that gets
    another answer, or none, leaves [Logs] as it was. *)
Theorem upload_server_tables (fuel : nat) (req : UploadRequest) (w : World) :
  only_upload_counters w (world_of (upload_server fuel req w))
  /\ Logs (world_of (upload_server fuel req w))
     = match jwt_verify (bearer_token (authorization req)), file req,
             result_of (upload_server fuel req w) with
       | Fulfilled uid, Some _, Returned response =>
           if db_online w
           then if status response =? 200
                then bump_successful uid (Logs w)
                else bump_failed uid (Logs w)
           else Logs w
       | _, _, _ => Logs w
       end.
Proof.
  split; [apply upload_server_only_upload_counters|].
  destruct (jwt_verify (bearer_token (authorization req))) as [uid|e] eqn:Hjwt.
  2:{ unfold upload_server, try_catch, bind, emit. rewrite Hjwt. reflexivity. }
  assert (Hverify :
            try_catch
              (emit (JwtVerify (bearer_token (authorization req))) ;;
               uid0 <- await (jwt_verify (bearer_token (authorization req))) ;;
               ret (inl uid0))
              (fun _ => ret (inr {| status := 401; body := Failure "Invalid token" |})) w
            = (Returned (inl uid), w, [JwtVerify (bearer_token (authorization req))])).
  { unfold try_catch, bind, emit. rewrite Hjwt. reflexivity. }
  unfold upload_server. rewrite (bind_returned _ _ _ _ _ _ Hverify).
  destruct (file req) as [upload|]; [|reflexivity].
  match goal with
  | |- context [try_catch ?b ?h w] => set (block := b); set (handler := h)
  end.
  assert (Hblock : counts_success uid w (block w)).
  { subst block.
    apply counts_success_bind; [apply respects_emit; typeclasses eauto|]. intros _ w1.
    apply counts_success_bind; [apply writeFileSync_same_tables|]. intros _ w2.
    apply counts_success_bind; [apply extractFrames_same_tables|]. intros _ w3.
    apply counts_success_bind.
    { apply respects_unchanged; [typeclasses eauto|].
      apply analyzePPEInFrames_unchanged. }
    intros ppeData w4.
    unfold counts_success, write_Logs, bind, emit, get_world, set_world, ret,
      world_of, result_of.
    simpl. destruct (db_online w4) eqn:Honline; simpl; rewrite ?Honline;
      repeat split; reflexivity. }
  unfold try_catch. destruct (block w) as [[o w1] t1].
  unfold counts_success, world_of, result_of in Hblock. simpl in Hblock.
  destruct Hblock as (Hu & Ho & Hl).
  destruct o as [response|e|].
  - destruct Hl as [Hstatus Hl]. unfold prepend, world_of, result_of. simpl.
    rewrite Hstatus. exact Hl.
  - subst handler. cbv beta.
    unfold write_Logs, refused_statement, bind, emit, get_world, set_world, ret,
      prepend, world_of, result_of.
    simpl. rewrite Ho. destruct (db_online w); simpl; rewrite ?Hl; reflexivity.
  - unfold prepend, world_of, result_of. simpl. exact Hl.
Qed.

End ServerUpload.

Lemma upload_server_keeps_files_witness :
  is_Some
    (folder (world_of (upload_server (ext := demo) 0 (upload_of two_second_video)
                         one_frame_world))
       !! "frame-001.png").
Proof.
  apply (upload_server_keeps_files (ext := demo) 0 (upload_of two_second_video)
           one_frame_world "frame-001.png").
  eexists. reflexivity.
Defined.

Lemma upload_server_tables_witness :
  Logs (world_of (upload_server (ext := demo) 0 (upload_of two_second_video)
                    counting_world))
  = [ {| log_user_id := 1; action := "upload";
         successful_requests := 5; failed_requests := 0 |};
      login_row 1;
      {| log_user_id := 2; action := "upload";
         successful_requests := 7; failed_requests := 1 |} ].
Proof.
  destruct (upload_server_tables (ext := demo) 0 (upload_of two_second_video)
              counting_world) as [_ Hlogs].
  rewrite Hlogs. vm_compute. reflexivity.
Defined.

(** ** How the handlers end *)

Section Answers.
Context {A B : Type}.

Lemma returns_only_ret (P : A -> Prop) (a : A) : P a -> returns_only P (ret a).
Proof. intros Ha w a' [= <-]. exact Ha. Qed.

Lemma returns_only_throw (P : A -> Prop) (e : Error) : returns_only P (throw e).
Proof. intros w a Hrun. discriminate Hrun. Qed.

Lemma returns_only_bind (P : B -> Prop) (m : M A) (k : A -> M B) :
  (forall a, returns_only P (k a)) -> returns_only P (bind m k).
Proof.
  intros Hk w b. unfold bind. destruct (m w) as [[o w1] t1].
  destruct o as [a| |]; try discriminate.
  specialize (Hk a w1 b). destruct (k a w1) as [[o2 w2] t2]. exact Hk.
Qed.

Lemma returns_only_try_catch (P : A -> Prop) (m : M A) (handler : Error -> M A) :
  returns_only P m -> (forall e, returns_only P (handler e)) ->
  returns_only P (try_catch m handler).
Proof.
  intros Hm Hh w a. unfold try_catch. specialize (Hm w a).
  destruct (m w) as [[o w1] t1]. destruct o as [a'|e|]; try exact Hm.
  specialize (Hh e w1 a). destruct (handler e w1) as [[o2 w2] t2]. exact Hh.
Qed.

Lemma answers_ret (P : A -> Prop) (a : A) : P a -> answers P (ret a).
Proof. intros Ha w. exact Ha. Qed.

Lemma answers_bind (Q : A -> Prop) (P : B -> Prop) (m : M A) (k : A -> M B) :
  answers Q m -> (forall a, Q a -> answers P (k a)) -> answers P (bind m k).
Proof.
  intros Hm Hk w. unfold bind. specialize (Hm w).
  destruct (m w) as [[o w1] t1]. unfold result_of in *. simpl in *.
  destruct o as [a| |]; simpl; try exact Hm.
  specialize (Hk a Hm w1). destruct (k a w1) as [[o2 w2] t2]. exact Hk.
Qed.

(** A [catch] block that answers makes the whole [try] statement answer. *)
Lemma answers_try_catch (P : A -> Prop) (m : M A) (handler : Error -> M A) :
  returns_only P m -> (forall e, answers P (handler e)) ->
  answers P (try_catch m handler).
Proof.
  intros Hm Hh w. unfold try_catch. specialize (Hm w).
  destruct (m w) as [[o w1] t1]. unfold result_of in *. simpl in *.
  destruct o as [a|e|]; simpl; [apply Hm; reflexivity | | exact I].
  specialize (Hh e w1). destruct (handler e w1) as [[o2 w2] t2]. exact Hh.
Qed.

End Answers.

Lemma answers_emit (ev : Event) : answers (fun _ => True) (emit ev).
Proof. intros w. exact I. Qed.



Lemma bind_threw {A B : Type} (m : M A) (k : A -> M B) (w w1 : World) (e : Error)
    (t1 : list Event) :
  m w = (Threw e, w1, t1) -> bind m k w = (Threw e, w1, t1).
Proof. intros Hm. unfold bind. rewrite Hm. reflexivity. Qed.

Lemma try_catch_threw {A : Type} (m : M A) (handler : Error -> M A)
    (w w1 : World) (e : Error) (t1 : list Event) :
  m w = (Threw e, w1, t1) -> try_catch m handler w = prepend t1 (handler e w1).
Proof.
  intros Hm. unfold try_catch, prepend. rewrite Hm.
  destruct (handler e w1) as [[o w2] t2]. reflexivity.
Qed.

Section ServerAnswers.
Context {ext : Collaborators}.

Lemma extractFrames_rejected (v : Variant) (videoPath : string) (w : World)
    (video : Buffer) (e : Error) :
  folder w !! videoPath = Some video ->
  ffmpeg_frames video = Rejected e ->
  extractFrames v videoPath w
  = (Threw e, w,
     FfmpegRun videoPath ::
       (if chatty v then [ConsoleError "Error extracting frames:"] else [])).
Proof.
  intros Hvideo Hframes.
  unfold extractFrames, bind, emit, get_world. simpl.
  rewrite Hvideo, Hframes. destruct (chatty v); reflexivity.
Qed.


(** Without a valid token nothing is stored and nothing runs, even when a
    file is attached: the answer is 401 and the only effect is the token
    check. *)
Theorem upload_server_invalid_token (fuel : nat) (req : UploadRequest) (w : World)
    (e : Error) :
  jwt_verify (bearer_token (authorization req)) = Rejected e ->
  upload_server fuel req w
  = (Returned {| status := 401; body := Failure "Invalid token" |}, w,
     [JwtVerify (bearer_token (authorization req))]).
Proof.
  intros Hjwt. unfold upload_server, try_catch, bind, emit. rewrite Hjwt. reflexivity.
Qed.

(** When the transcoder fails, the answer is 500 with the transcoder's
    message (or the default text when it has none); the stored upload stays
    in the folder, no frame reaches the codec or the detector, and the
    failure counter of the user's upload rows is raised. *)
Theorem upload_server_transcoder_failure (fuel : nat) (req : UploadRequest)
    (w : World) (uid : Z) (upload : UploadedFile) (e : Error) :
  jwt_verify (bearer_token (authorization req)) = Fulfilled uid ->
  file req = Some upload ->
  ffmpeg_frames (buffer upload) = Rejected e ->
  result_of (upload_server fuel req w)
  = Returned {| status := 500; body := Failure (message_or_default e) |}
  /\ folder (world_of (upload_server fuel req w))
     = <["uploaded_video.mp4" := buffer upload]> (folder w)
  /\ Logs (world_of (upload_server fuel req w))
     = (if db_online w then bump_failed uid (Logs w) else Logs w)
  /\ Forall (fun ev => match ev with
                       | SharpEncode _ _ _ | DetectCall _ => False
                       | _ => True
                       end)
       (trace_of (upload_server fuel req w)).
Proof.
  intros Hjwt Hupload Hframes.
  assert (Hverify :
            try_catch
              (emit (JwtVerify (bearer_token (authorization req))) ;;
               uid0 <- await (jwt_verify (bearer_token (authorization req))) ;;
               ret (inl uid0))
              (fun _ => ret (inr {| status := 401; body := Failure "Invalid token" |})) w
            = (Returned (inl uid), w, [JwtVerify (bearer_token (authorization req))])).
  { unfold try_catch, bind, emit. rewrite Hjwt. reflexivity. }
  unfold upload_server.
  rewrite (bind_returned _ _ _ _ _ _ Hverify). rewrite Hupload.
  erewrite try_catch_threw.
  2:{ erewrite bind_returned by reflexivity.
      erewrite bind_returned by apply writeFileSync_run.
      erewrite bind_threw.
      2:{ apply (extractFrames_rejected _ _ _ (buffer upload) e).
          - rewrite folder_with_folder. apply lookup_insert_eq.
          - exact Hframes. }
      reflexivity. }
  unfold prepend, result_of, world_of, trace_of, write_Logs, refused_statement,
    bind, emit, get_world. simpl.
  destruct (db_online w) eqn:Honline; simpl;
    (split; [reflexivity|]); (split; [reflexivity|]); (split; [reflexivity|]);
    repeat constructor.
Qed.

End ServerAnswers.

Lemma upload_server_invalid_token_witness :
  upload_server (ext := demo) 0
    {| authorization := Some "Bearer forged"; file := Some three_second_video |}
    fresh_world
  = (Returned {| status := 401; body := Failure "Invalid token" |}, fresh_world,
     [JwtVerify (Some "forged")]).
Proof.
  apply (upload_server_invalid_token (ext := demo) 0
           {| authorization := Some "Bearer forged"; file := Some three_second_video |}
           fresh_world "invalid token").
  reflexivity.
Defined.

Lemma upload_server_transcoder_failure_witness :
  result_of (upload_server (ext := deaf_transcoder) 0 (upload_of three_second_video)
               fresh_world)
  = Returned {| status := 500; body := Failure "ffmpeg exited with code 1" |}
  /\ folder (world_of (upload_server (ext := deaf_transcoder) 0
                         (upload_of three_second_video) fresh_world))
     = {[ "uploaded_video.mp4" := [x01; x00; x02] ]}.
Proof.
  destruct (upload_server_transcoder_failure (ext := deaf_transcoder) 0
              (upload_of three_second_video) fresh_world 1 three_second_video
              "ffmpeg exited with code 1" eq_refl eq_refl eq_refl)
    as (Hresult & Hfolder & _ & _).
  split; [exact Hresult | exact Hfolder].
Defined.

(** ** When a handler fails to end *)

Section Ends.
Context {A B : Type} (D : Prop).

Lemma ends_unless_ret (a : A) : ends_unless D (ret a).
Proof. intros w Hrun. discriminate Hrun. Qed.

Lemma ends_unless_throw (e : Error) : ends_unless D (throw (A := A) e).
Proof. intros w Hrun. discriminate Hrun. Qed.

Lemma ends_unless_await (p : settled A) : ends_unless D (await p).
Proof. destruct p; intros w Hrun; discriminate Hrun. Qed.

Lemma ends_unless_bind (m : M A) (k : A -> M B) :
  ends_unless D m -> (forall a, ends_unless D (k a)) -> ends_unless D (bind m k).
Proof.
  intros Hm Hk w. unfold bind. specialize (Hm w).
  destruct (m w) as [[o w1] t1]. destruct o as [a| |].
  - specialize (Hk a w1). destruct (k a w1) as [[o2 w2] t2]. exact Hk.
  - intros Hrun. discriminate Hrun.
  - intros _. apply Hm. reflexivity.
Qed.

End Ends.

(** How a sequence, or a [try] statement, can fail to end. *)
Lemma bind_diverged {A B : Type} (m : M A) (k : A -> M B) (w : World) :
  result_of (bind m k w) = Diverged ->
  result_of (m w) = Diverged
  \/ exists a w1 t1, m w = (Returned a, w1, t1) /\ result_of (k a w1) = Diverged.
Proof.
  unfold bind. destruct (m w) as [[o w1] t1]. destruct o as [a|e|].
  - intros Hrun. right. exists a, w1, t1. split; [reflexivity|].
    destruct (k a w1) as [[o2 w2] t2]. exact Hrun.
  - intros Hrun. discriminate Hrun.
  - intros _. left. reflexivity.
Qed.

Lemma try_catch_diverged {A : Type} (m : M A) (handler : Error -> M A) (w : World) :
  result_of (try_catch m handler w) = Diverged ->
  result_of (m w) = Diverged
  \/ exists e w1 t1, m w = (Threw e, w1, t1) /\ result_of (handler e w1) = Diverged.
Proof.
  unfold try_catch. destruct (m w) as [[o w1] t1]. destruct o as [a|e|].
  - intros Hrun. discriminate Hrun.
  - intros Hrun. right. exists e, w1, t1. split; [reflexivity|].
    destruct (handler e w1) as [[o2 w2] t2]. exact Hrun.
  - intros _. left. reflexivity.
Qed.

Lemma ends_unless_emit (D : Prop) (ev : Event) : ends_unless D (emit ev).
Proof. intros w Hrun. discriminate Hrun. Qed.

Lemma ends_unless_get_world {B : Type} (D : Prop) (k : World -> M B) :
  (forall w, ends_unless D (k w)) -> ends_unless D (bind get_world k).
Proof. intros Hk. apply ends_unless_bind; [|exact Hk]. intros w Hrun. discriminate Hrun. Qed.

Lemma ends_unless_writeFileSync (D : Prop) (name : string) (data : Buffer) :
  ends_unless D (writeFileSync name data).
Proof. intros w Hrun. discriminate Hrun. Qed.

Lemma ends_unless_unlinkSync (D : Prop) (name : string) :
  ends_unless D (unlinkSync name).
Proof.
  intros w. unfold unlinkSync, bind, emit, get_world. simpl.
  destruct (folder w !! name); intros Hrun; discriminate Hrun.
Qed.

Lemma ends_unless_unlink_each (D : Prop) (names : list string) :
  ends_unless D (unlink_each names).
Proof.
  induction names as [|name rest IH]; [apply ends_unless_ret|].
  cbn [unlink_each]. apply ends_unless_bind; [apply ends_unless_unlinkSync|].
  intros _. exact IH.
Qed.

Section PipelineEnds.
Context {ext : Collaborators}.

Lemma ends_unless_extractFrames (D : Prop) (v : Variant) (videoPath : string) :
  ends_unless D (extractFrames v videoPath).
Proof.
  intros w. unfold extractFrames, bind, emit, get_world, console_log. simpl.
  destruct (folder w !! videoPath) as [video|].
  - destruct (ffmpeg_frames video) as [frames|e]; simpl;
      destruct (chatty v); intros Hrun; discriminate Hrun.
  - destruct (chatty v); intros Hrun; discriminate Hrun.
Qed.

(** The loop over the frames fails to end only when the re-encoding of one
    of them does. *)
Lemma analyze_each_spins (v : Variant) (fuel : nat) (w : World) :
  forall (files : list string) (ppeData : list FrameAnalysis),
    result_of (analyze_each v fuel files ppeData w) = Diverged ->
    exists file,
      file ∈ files /\ result_of (resizeAndCompressImage fuel file w) = Diverged.
Proof.
  induction files as [|file rest IH]; intros ppeData Hrun; [discriminate Hrun|].
  cbn [analyze_each] in Hrun. unfold bind at 1 in Hrun.
  pose proof (resizeAndCompressImage_world fuel file w) as Hw.
  destruct (resizeAndCompressImage fuel file w) as [[o w1] t1] eqn:Hresize.
  unfold world_of in Hw. simpl in Hw. subst w1.
  destruct o as [resized|e|].
  - assert (Hrest : exists acc,
              result_of (analyze_each v fuel rest acc w) = Diverged).
    { unfold bind at 1 in Hrun. unfold try_catch, bind at 1 in Hrun.
      rewrite analyzePPEInImage_run in Hrun.
      destruct (detectProtectiveEquipment resized) as [r|e]; simpl in Hrun;
        match type of Hrun with
        | context [analyze_each v fuel rest ?acc w] =>
            exists acc; destruct (analyze_each v fuel rest acc w) as [[o3 w3] t3];
            exact Hrun
        end. }
    destruct Hrest as [acc Hrest].
    destruct (IH acc Hrest) as (f & Hf & Hspin).
    exists f. split; [right; exact Hf | exact Hspin].
  - discriminate Hrun.
  - exists file. split; [left | rewrite Hresize; reflexivity].
Qed.

Lemma analyzePPEInFrames_spins (v : Variant) (fuel : nat) (w : World) :
  result_of (analyzePPEInFrames v fuel w) = Diverged -> a_frame_spins fuel w.
Proof.
  intros Hrun. unfold analyzePPEInFrames, bind at 1, emit, bind at 1, get_world in Hrun.
  destruct (analyze_each v fuel (png_files (folder w)) [] w) as [[o w1] t1] eqn:Hloop.
  unfold result_of in Hrun. simpl in Hrun. subst o.
  apply (analyze_each_spins v fuel w (png_files (folder w)) []).
  rewrite Hloop. reflexivity.
Qed.

(** Where one round at width 640 always fits, the loop ends within one
    round. *)
Lemma one_round_fits_ends (fuel : nat) (w : World) :
  one_round_fits -> (1 <= fuel)%nat -> ~ a_frame_spins fuel w.
Proof.
  intros Hfits Hfuel (file & _ & Hspin).
  destruct fuel as [|fuel]; [lia|].
  destruct (folder w !! file) as [bytes|] eqn:Hfile.
  - destruct (sharp_encode bytes 1280 80) as [first|e] eqn:Hpass.
    + rewrite (resizeAndCompressImage_run _ _ _ _ _ Hfile Hpass) in Hspin.
      destruct (exceeds_ceiling first) eqn:Hfirst.
      * rewrite (resize_further_step _ _ _ Hfirst) in Hspin.
        unfold bind in Hspin. rewrite sharp_buffer_run in Hspin.
        destruct (sharp_encode first 640 50) as [smaller|e] eqn:Hround;
          cbn [settle] in Hspin; [|discriminate Hspin].
        rewrite (resize_further_within _ _ _ (Hfits _ _ Hround)) in Hspin.
        discriminate Hspin.
      * rewrite (resize_further_within _ _ _ Hfirst) in Hspin. discriminate Hspin.
    + unfold resizeAndCompressImage, try_catch, bind in Hspin.
      rewrite (sharp_file_run _ _ _ _ _ Hfile), Hpass in Hspin. discriminate Hspin.
  - unfold resizeAndCompressImage, try_catch, bind in Hspin.
    rewrite (sharp_file_missing _ _ _ _ Hfile) in Hspin. discriminate Hspin.
Qed.

(** [extractFrames] returns only after the transcoder has written its
    frames. *)
Lemma extractFrames_returned (v : Variant) (videoPath : string) (w w1 : World)
    (t1 : list Event) :
  extractFrames v videoPath w = (Returned tt, w1, t1) ->
  exists video frames,
    folder w !! videoPath = Some video
    /\ ffmpeg_frames video = Fulfilled frames
    /\ w1 = with_folder w (write_frames 1 frames (folder w)).
Proof.
  unfold extractFrames, bind, emit, get_world, console_log. simpl.
  destruct (folder w !! videoPath) as [video|].
  - destruct (ffmpeg_frames video) as [frames|e] eqn:Hframes; simpl.
    + intros Hrun. exists video, frames. split; [reflexivity|]. split; [exact Hframes|].
      destruct (chatty v); simpl in Hrun; injection Hrun as <- _; reflexivity.
    + destruct (chatty v); intros Hrun; discriminate Hrun.
  - destruct (chatty v); intros Hrun; discriminate Hrun.
Qed.

End PipelineEnds.

(** ** A re-encoding failure *)

Section Abort.
Context {ext : Collaborators}.

(** The loop over a first stretch of frames that are all re-encoded. *)
Lemma analyze_each_prefix (v : Variant) (fuel : nat) (w : World)
    (rest : list string) :
  forall (before : list string) (ppeData : list FrameAnalysis),
    (forall file, file ∈ before -> is_Some (resized_frame fuel w file)) ->
    exists trace,
      analyze_each v fuel (before ++ rest) ppeData w
      = prepend trace
          (analyze_each v fuel rest
             (ppeData ++ omap (analysed v fuel w) before)%list w)
      /\ detect_calls trace = omap (resized_frame fuel w) before.
Proof.
  induction before as [|file before IH]; intros ppeData Hresized.
  - exists []. simpl. rewrite app_nil_r. split; [|reflexivity].
    unfold prepend. destruct (analyze_each v fuel rest ppeData w) as [[o w1] t1].
    reflexivity.
  - assert (Hfile : is_Some (resized_frame fuel w file))
      by (apply Hresized; left).
    assert (Hbefore : forall f, f ∈ before -> is_Some (resized_frame fuel w f))
      by (intros f Hf; apply Hresized; right; exact Hf).
    destruct Hfile as [resized Hfile].
    destruct (resizeAndCompressImage_returned _ _ _ _ Hfile) as (t1 & Hrun & Ht1).
    change ((file :: before) ++ rest)%list with (file :: (before ++ rest))%list.
    cbn [analyze_each]. unfold bind at 1. rewrite Hrun.
    unfold bind at 1. unfold try_catch, bind at 1.
    rewrite analyzePPEInImage_run.
    cbn [omap list_omap]. unfold analysed at 1. rewrite Hfile.
    destruct (detectProtectiveEquipment resized) as [r|e]; simpl.
    + destruct (IH (ppeData ++ [{| fa_file := file;
                                   fa_ppeResult :=
                                     {| Per_person_results :=
                                          perPersonResults (personResult v) (Persons r) |} |}])%list
                  Hbefore) as (t2 & Hloop & Ht2).
      rewrite <- (app_assoc ppeData) in Hloop. cbn [app] in Hloop.
      rewrite Hloop.
      exists (t1 ++ (DetectCall resized
                       :: (if chatty v then [ConsoleLog "Full PPE detection result:"]
                           else [])) ++ t2)%list.
      split.
      * unfold prepend.
        destruct (analyze_each v fuel rest _ w) as [[o3 w3] t3].
        unfold result_of, world_of, trace_of. simpl.
        rewrite app_nil_r.
        repeat (rewrite <- app_assoc || rewrite <- app_comm_cons). reflexivity.
      * rewrite !detect_calls_app, Ht1, Ht2. simpl.
        destruct (chatty v); reflexivity.
    + destruct (IH ppeData Hbefore) as (t2 & Hloop & Ht2).
      rewrite Hloop.
      exists (t1 ++ [DetectCall resized; ConsoleError "Error detecting PPE:";
                     ConsoleError ("Error detecting PPE in frame " ++ file ++ ":")]
                 ++ t2)%list.
      split.
      * unfold prepend.
        destruct (analyze_each v fuel rest _ w) as [[o3 w3] t3].
        unfold result_of, world_of, trace_of. simpl.
        repeat (rewrite <- app_assoc || rewrite <- app_comm_cons). reflexivity.
      * rewrite !detect_calls_app, Ht1, Ht2. reflexivity.
Qed.

(** Unlike a detector failure, a codec failure on one frame ends the whole
    analysis: [analyzePPEInFrames] throws the codec's error, and the frames
    listed after the failing one never reach the detector. *)
Theorem resize_failure_aborts_analysis (v : Variant) (fuel : nat) (w : World)
    (before after : list string) (file : string) (e : Error) :
  png_files (folder w) = (before ++ file :: after)%list ->
  (forall f, f ∈ before -> is_Some (resized_frame fuel w f)) ->
  result_of (resizeAndCompressImage fuel file w) = Threw e ->
  result_of (analyzePPEInFrames v fuel w) = Threw e
  /\ detect_calls (trace_of (analyzePPEInFrames v fuel w))
     = omap (resized_frame fuel w) before.
Proof.
  intros Hlisted Hbefore Hfile.
  destruct (analyze_each_prefix v fuel w (file :: after) before [] Hbefore)
    as (t & Hloop & Ht).
  pose proof (resizeAndCompressImage_detect_calls fuel file w) as Hd.
  destruct (resizeAndCompressImage fuel file w) as [[o w1] t1] eqn:Hrun.
  unfold result_of, trace_of in Hfile, Hd. simpl in Hfile, Hd. subst o.
  assert (Hall : analyzePPEInFrames v fuel w
                 = (Threw e, w1, FsReaddir :: (t ++ t1)%list)).
  { unfold analyzePPEInFrames, bind at 1, emit, bind at 1, get_world.
    rewrite Hlisted, Hloop. cbn [analyze_each]. unfold bind at 1.
    rewrite Hrun. unfold prepend, result_of, world_of, trace_of. simpl.
    reflexivity. }
  rewrite Hall. split; [reflexivity|].
  change (detect_calls (t ++ t1) = omap (resized_frame fuel w) before).
  rewrite detect_calls_app, Ht, Hd, app_nil_r. reflexivity.
Qed.

End Abort.

Lemma resize_failure_aborts_analysis_witness :
  result_of (analyzePPEInFrames (ext := picky_codec) server_variant 0
               three_frames_world)
  = Threw "Input buffer contains unsupported image format"
  /\ detect_calls (trace_of (analyzePPEInFrames (ext := picky_codec) server_variant 0
                               three_frames_world))
     = [[x01]].
Proof.
  apply (resize_failure_aborts_analysis (ext := picky_codec) server_variant 0
           three_frames_world ["frame-001.png"] ["frame-003.png"] "frame-002.png").
  - vm_compute. reflexivity.
  - intros f Hf. apply list_elem_of_In in Hf. simpl in Hf.
    destruct Hf as [<-|[]]. eexists. vm_compute. reflexivity.
  - vm_compute. reflexivity.
Defined.

(** ** The clean-up of the Render variant *)

Lemma unlinkSync_run (name : string) (w : World) :
  is_Some (folder w !! name) ->
  unlinkSync name w
  = (Returned tt, with_folder w (delete name (folder w)), [FsUnlink name]).
Proof.
  intros [data Hdata]. unfold unlinkSync, bind, emit, get_world. simpl.
  rewrite Hdata. reflexivity.
Qed.

(** Removing a file that is not there throws. *)
Lemma unlinkSync_missing (name : string) (w : World) :
  folder w !! name = None ->
  unlinkSync name w
  = (Threw "ENOENT: no such file or directory", w, [FsUnlink name]).
Proof.
  intros Hdata. unfold unlinkSync, bind, emit, get_world. simpl.
  rewrite Hdata. reflexivity.
Qed.

Lemma unlink_each_run (names : list string) :
  forall w : World,
    NoDup names ->
    (forall name, name ∈ names -> is_Some (folder w !! name)) ->
    exists d,
      unlink_each names w = (Returned tt, with_folder w d, map FsUnlink names)
      /\ forall key, d !! key = if decide (key ∈ names) then None else folder w !! key.
Proof.
  induction names as [|name rest IH]; intros w Hnodup Hthere.
  - exists (folder w). split; [destruct w; reflexivity|].
    intros key. destruct (decide (key ∈ [])) as [Hin|_]; [|reflexivity].
    apply elem_of_nil in Hin. destruct Hin.
  - apply NoDup_cons in Hnodup as [Hfresh Hnodup].
    destruct (IH (with_folder w (delete name (folder w))) Hnodup) as (d & Hrun & Hd).
    { intros other Hother. rewrite folder_with_folder, lookup_delete_ne.
      - apply Hthere. right. exact Hother.
      - intros ->. exact (Hfresh Hother). }
    exists d. split.
    + cbn [unlink_each].
      rewrite (bind_returned _ _ _ _ _ _ (unlinkSync_run name w (Hthere name ltac:(left)))).
      rewrite Hrun. reflexivity.
    + intros key. rewrite Hd, folder_with_folder.
      destruct (decide (key ∈ rest)) as [Hrest|Hrest].
      * rewrite decide_True by (right; exact Hrest). reflexivity.
      * destruct (decide (key = name)) as [->|Hne].
        -- rewrite decide_True by left. apply lookup_delete_eq.
        -- rewrite decide_False.
           ++ apply lookup_delete_ne. congruence.
           ++ intros Hin. apply elem_of_cons in Hin as [?|?]; contradiction.
Qed.

(** The listing holds every file of the folder once. *)
Lemma readdirSync_lists (d : gmap string Buffer) :
  NoDup (readdirSync d)
  /\ forall name, name ∈ readdirSync d <-> is_Some (d !! name).
Proof.
  unfold readdirSync. split.
  - rewrite merge_sort_Permutation. apply NoDup_fst_map_to_list.
  - intros name. rewrite merge_sort_Permutation.
    change (map fst (map_to_list d)) with ((map_to_list d).*1).
    rewrite list_elem_of_fmap. split.
    + intros ([key data] & -> & Hin). apply elem_of_map_to_list in Hin.
      exists data. exact Hin.
    + intros [data Hdata]. exists (name, data). split; [reflexivity|].
      apply elem_of_map_to_list. exact Hdata.
Qed.

(** Removing every listed file empties the folder. *)
Lemma unlink_listing (w : World) :
  unlink_each (readdirSync (folder w)) w
  = (Returned tt, with_folder w ∅, map FsUnlink (readdirSync (folder w))).
Proof.
  destruct (readdirSync_lists (folder w)) as [Hnodup Hlisted].
  destruct (unlink_each_run (readdirSync (folder w)) w Hnodup) as (d & Hrun & Hd).
  { intros name Hname. apply Hlisted. exact Hname. }
  rewrite Hrun. replace d with (∅ : gmap string Buffer); [reflexivity|].
  symmetry. apply map_empty. intros key. rewrite Hd.
  destruct (decide (key ∈ readdirSync (folder w))) as [_|Hout]; [reflexivity|].
  destruct (folder w !! key) as [data|] eqn:Hkey; [|reflexivity].
  exfalso. apply Hout, Hlisted. exists data. exact Hkey.
Qed.

Section Render.
Context {ext : Collaborators}.

(** After a request the Render variant answers with 200, its working
    folder is empty: the upload, its frames and whatever else was there
    have been removed. *)
Theorem upload_render_empties_folder (fuel : nat) (req : UploadRequest) (w : World)
    (upload : UploadedFile) (frames : list Buffer) :
  file req = Some upload ->
  ffmpeg_frames (buffer upload) = Fulfilled frames ->
  let w' :=
    with_folder w
      (write_frames 1 frames (<[originalname upload := buffer upload]> (folder w))) in
  (forall f, f ∈ png_files (folder w') -> is_Some (resized_frame fuel w' f)) ->
  result_of (upload_render fuel req w)
  = Returned {| status := 200;
                body := UploadOk (omap (analysed render_variant fuel w')
                                    (png_files (folder w'))) |}
  /\ folder (world_of (upload_render fuel req w)) = ∅.
Proof.
  intros Hupload Hframes w' Hresized.
  destruct (analyzePPEInFrames_run render_variant fuel w' Hresized)
    as (t & Hanalyze & _).
  assert (Hvideo : is_Some (folder w' !! originalname upload)).
  { unfold w'. rewrite folder_with_folder. apply write_frames_keeps.
    rewrite lookup_insert_eq. eexists. reflexivity. }
  unfold upload_render. rewrite Hupload.
  erewrite bind_returned by reflexivity.
  erewrite try_catch_returned.
  2:{ erewrite bind_returned by reflexivity.
      erewrite bind_returned by reflexivity.
      erewrite bind_returned by apply writeFileSync_run.
      erewrite bind_returned by reflexivity.
      erewrite bind_returned.
      2:{ apply (extractFrames_run _ _ _ (buffer upload) frames).
          - rewrite folder_with_folder. apply lookup_insert_eq.
          - exact Hframes. }
      rewrite with_folder_twice, folder_with_folder. fold w'.
      erewrite bind_returned by exact Hanalyze.
      erewrite bind_returned by (apply unlinkSync_run; exact Hvideo).
      erewrite bind_returned by reflexivity.
      erewrite bind_returned by reflexivity.
      erewrite bind_returned by apply unlink_listing.
      reflexivity. }
  split; reflexivity.
Qed.

Lemma upload_render_answers (fuel : nat) (req : UploadRequest) :
  answers render_answer (upload_render fuel req).
Proof.
  unfold upload_render. destruct (file req) as [upload|].
  - apply (answers_bind (fun _ => True)); [apply answers_emit|]. intros _ _.
    apply answers_try_catch.
    + repeat (apply returns_only_bind; intros ?).
      apply returns_only_ret. left. eexists. reflexivity.
    + intros e.
      apply (answers_bind (fun _ => True)); [apply answers_emit|]. intros _ _.
      apply answers_ret. right. right. eexists. reflexivity.
  - apply answers_ret. right. left. reflexivity.
Qed.

(** The handler fails to end only in the analysis of the frames it has
    just extracted. *)
Lemma upload_render_spins (fuel : nat) (req : UploadRequest) (w : World) :
  result_of (upload_render fuel req w) = Diverged ->
  exists upload frames,
    file req = Some upload
    /\ ffmpeg_frames (buffer upload) = Fulfilled frames
    /\ a_frame_spins fuel
         (with_folder w
            (write_frames 1 frames
               (<[originalname upload := buffer upload]> (folder w)))).
Proof.
  unfold upload_render. destruct (file req) as [upload|]; [|discriminate].
  intros Hrun. exists upload.
  apply bind_diverged in Hrun as [Hrun | (? & ? & ? & [= _ <- _] & Hrun)];
    [discriminate Hrun|].
  apply try_catch_diverged in Hrun as [Hrun | (e & w1 & t1 & _ & Hrun)].
  2:{ exfalso. revert Hrun.
      apply (ends_unless_bind False); [apply ends_unless_emit|].
      intros _. apply ends_unless_ret. }
  apply bind_diverged in Hrun as [Hrun | (? & ? & ? & [= _ <- _] & Hrun)];
    [discriminate Hrun|].
  apply bind_diverged in Hrun as [Hrun | (? & ? & ? & [= _ <- _] & Hrun)];
    [discriminate Hrun|].
  apply bind_diverged in Hrun as [Hrun | (? & ? & ? & [= _ <- _] & Hrun)];
    [discriminate Hrun|].
  apply bind_diverged in Hrun as [Hrun | (? & ? & ? & [= _ <- _] & Hrun)];
    [discriminate Hrun|].
  apply bind_diverged in Hrun as [Hrun | ([] & w3 & t3 & Hextract & Hrun)].
  { exfalso. revert Hrun. apply ends_unless_extractFrames. }
  apply extractFrames_returned in Hextract as (video & frames & Hvideo & Hframes & ->).
  rewrite folder_with_folder, lookup_insert_eq in Hvideo. injection Hvideo as <-.
  rewrite with_folder_twice, folder_with_folder in Hrun.
  exists frames. split; [reflexivity|]. split; [exact Hframes|].
  apply bind_diverged in Hrun as [Hrun | (ppeData & w4 & t4 & _ & Hrun)].
  { apply (analyzePPEInFrames_spins render_variant). exact Hrun. }
  exfalso. revert Hrun.
  apply (ends_unless_bind False); [apply ends_unless_unlinkSync|]. intros _.
  apply (ends_unless_bind False); [apply ends_unless_emit|]. intros _.
  apply ends_unless_get_world. intros w5.
  apply (ends_unless_bind False); [apply ends_unless_unlink_each|]. intros _.
  apply ends_unless_ret.
Qed.

(** The upload handler of the Render variant never throws, and whatever it
    sends is 200 with the analyses, 400 with ['No file uploaded'] or 500
    with the error's message (the default text when it has none).  It
    leaves a request unanswered only when, among the frames the transcoder
    has just written for it next to what the folder held, there is one on
    which the re-encoding loop has not ended; with a codec whose round at
    width 640 and quality 50 always gets within the ceiling it answers
    every request. *)
Theorem upload_render_always_answers (fuel : nat) (req : UploadRequest) (w : World) :
  match result_of (upload_render fuel req w) with
  | Returned r => render_answer r
  | Threw _ => False
  | Diverged =>
      exists upload frames,
        file req = Some upload
        /\ ffmpeg_frames (buffer upload) = Fulfilled frames
        /\ a_frame_spins fuel
             (with_folder w
                (write_frames 1 frames
                   (<[originalname upload := buffer upload]> (folder w))))
  end
  /\ (one_round_fits -> (1 <= fuel)%nat ->
      exists r, result_of (upload_render fuel req w) = Returned r /\ render_answer r).
Proof.
  pose proof (upload_render_answers fuel req w) as Hanswers.
  pose proof (upload_render_spins fuel req w) as Hspins.
  destruct (result_of (upload_render fuel req w)) as [r|e|].
  - split; [exact Hanswers|]. intros _ _. exists r. split; [reflexivity | exact Hanswers].
  - destruct Hanswers.
  - split; [apply Hspins; reflexivity|]. intros Hfits Hfuel. exfalso.
    destruct (Hspins eq_refl) as (upload & frames & _ & _ & Hspin).
    exact (one_round_fits_ends fuel _ Hfits Hfuel Hspin).
Qed.

(** The clean-up is part of the [try] block: when the transcoder fails the
    answer is 500 and the stored upload stays in the folder. *)
Theorem upload_render_failure_leaves_upload (fuel : nat) (req : UploadRequest)
    (w : World) (upload : UploadedFile) (e : Error) :
  file req = Some upload ->
  ffmpeg_frames (buffer upload) = Rejected e ->
  result_of (upload_render fuel req w)
  = Returned {| status := 500; body := Failure (message_or_default e) |}
  /\ folder (world_of (upload_render fuel req w))
     = <[originalname upload := buffer upload]> (folder w).
Proof.
  intros Hupload Hframes.
  unfold upload_render. rewrite Hupload.
  erewrite bind_returned by reflexivity.
  erewrite try_catch_threw.
  2:{ erewrite bind_returned by reflexivity.
      erewrite bind_returned by reflexivity.
      erewrite bind_returned by apply writeFileSync_run.
      erewrite bind_returned by reflexivity.
      erewrite bind_threw.
      2:{ apply (extractFrames_rejected _ _ _ (buffer upload) e).
          - rewrite folder_with_folder. apply lookup_insert_eq.
          - exact Hframes. }
      reflexivity. }
  split; reflexivity.
Qed.

End Render.

Lemma upload_render_empties_folder_witness :
  result_of (upload_render (ext := demo) 0
               {| authorization := None; file := Some three_second_video |}
               one_frame_world)
  = Returned
      {| status := 200;
         body := UploadOk
                   (omap (analysed (ext := demo) render_variant 0
                            (with_folder one_frame_world
                               (write_frames 1 [[x01]; [x00]; [x02]]
                                  (<["site.mp4" := [x01; x00; x02]]>
                                     (folder one_frame_world)))))
                      ["frame-001.png"; "frame-002.png"; "frame-003.png"]) |}
  /\ folder (world_of (upload_render (ext := demo) 0
                         {| authorization := None; file := Some three_second_video |}
                         one_frame_world))
     = ∅.
Proof.
  apply (upload_render_empties_folder (ext := demo) 0
           {| authorization := None; file := Some three_second_video |}
           one_frame_world three_second_video [[x01]; [x00]; [x02]] eq_refl eq_refl).
  intros f Hf.
  assert (Hlisted :
            png_files
              (folder (with_folder one_frame_world
                         (write_frames 1 [[x01]; [x00]; [x02]]
                            (<[originalname three_second_video
                               := buffer three_second_video]>
                               (folder one_frame_world)))))
            = ["frame-001.png"; "frame-002.png"; "frame-003.png"])
    by (vm_compute; reflexivity).
  rewrite Hlisted in Hf. apply list_elem_of_In in Hf. simpl in Hf.
  destruct Hf as [<-|[<-|[<-|[]]]]; eexists; vm_compute; reflexivity.
Defined.

Lemma upload_render_always_answers_witness :
  exists r,
    result_of (upload_render (ext := shrinking_codec) 1
                 {| authorization := None; file := Some three_second_video |}
                 fresh_world)
    = Returned r
    /\ render_answer r.
Proof.
  destruct (upload_render_always_answers (ext := shrinking_codec) 1
              {| authorization := None; file := Some three_second_video |}
              fresh_world) as [_ Hanswers].
  apply Hanswers.
  - intros b smaller Hround. injection Hround as <-. reflexivity.
  - lia.
Defined.

Lemma upload_render_failure_leaves_upload_witness :
  result_of (upload_render (ext := deaf_transcoder) 0
               {| authorization := None; file := Some two_second_video |} fresh_world)
  = Returned {| status := 500; body := Failure "ffmpeg exited with code 1" |}
  /\ folder (world_of (upload_render (ext := deaf_transcoder) 0
                         {| authorization := None; file := Some two_second_video |}
                         fresh_world))
     = {[ "gate.mp4" := [x03; x04] ]}.
Proof.
  apply (upload_render_failure_leaves_upload (ext := deaf_transcoder) 0
           {| authorization := None; file := Some two_second_video |}
           fresh_world two_second_video "ffmpeg exited with code 1" eq_refl eq_refl).
Defined.

(** ** Login and signup *)

#[local] Instance logs_a_login_preorder : PreOrder logs_a_login.
Proof.
  split.
  - intros w. split; [reflexivity|]. split; [reflexivity|].
    exists []. simpl. rewrite app_nil_r. reflexivity.
  - intros w1 w2 w3 (Hf1 & Hu1 & ids1 & Hl1) (Hf2 & Hu2 & ids2 & Hl2).
    split; [congruence|]. split; [congruence|].
    exists (ids1 ++ ids2)%list.
    rewrite Hl2, Hl1, map_app, app_assoc. reflexivity.
Qed.

Lemma select_user_unchanged (name : string) : respects eq (select_user name).
Proof. intros w. rewrite select_user_run. reflexivity. Qed.

Section LoginMore.
Context {ext : Collaborators}.

(** Both [login] functions answer a database error, an unknown username
    and a wrong password alike, with 400 and ['Invalid credentials'].  When
    [bcrypt.compare] rejects, as it does for a body without a string
    password, the rejection escapes the callback of the query: the handler
    ends with that error and sends no answer.  In all these cases nothing
    is written. *)
Theorem login_answers (req : LoginRequest) (w : World)
    (login : LoginRequest -> M Response) :
  login = login_server \/ login = login_auth ->
  (db_online w = false
   \/ filter (fun u => String.eqb (username u) (body_username req)) (Users w) = [] ->
   login req w
   = (Returned {| status := 400; body := ErrorOnly "Invalid credentials" |}, w,
      [DbQuery "SELECT * FROM Users WHERE username = ?"]))
  /\ (forall user others,
        db_online w = true ->
        filter (fun u => String.eqb (username u) (body_username req)) (Users w)
        = user :: others ->
        (bcrypt_compare (body_password req) (password_hash user) = Fulfilled false ->
         login req w
         = (Returned {| status := 400; body := ErrorOnly "Invalid credentials" |}, w,
            [DbQuery "SELECT * FROM Users WHERE username = ?"]))
        /\ (forall e,
              bcrypt_compare (body_password req) (password_hash user) = Rejected e ->
              login req w
              = (Threw e, w, [DbQuery "SELECT * FROM Users WHERE username = ?"]))).
Proof.
  intros Hlogin.
  assert (Hselect := select_user_run (body_username req) w).
  split.
  - intros Hnone.
    destruct Hlogin as [-> | ->]; [unfold login_server | unfold login_auth];
      rewrite (bind_returned _ _ _ _ _ _ Hselect);
      (destruct Hnone as [-> | Hnone];
         [reflexivity | rewrite Hnone; destruct (db_online w); reflexivity]).
  - intros user others Honline Hfilter. rewrite Honline, Hfilter in Hselect.
    split; [intros Hcompare | intros e Hcompare];
      (destruct Hlogin as [-> | ->]; [unfold login_server | unfold login_auth]);
      rewrite (bind_returned _ _ _ _ _ _ Hselect);
      unfold prepend, bind, await; rewrite Hcompare; reflexivity.
Qed.

Lemma login_auth_unchanged (req : LoginRequest) : respects eq (login_auth req).
Proof.
  intros w. unfold login_auth.
  rewrite (bind_returned _ _ _ _ _ _ (select_user_run _ w)).
  destruct (db_online w); [|reflexivity].
  destruct (filter _ (Users w)) as [|user others]; [reflexivity|].
  unfold prepend, bind, await.
  destruct (bcrypt_compare (body_password req) (password_hash user)) as [[|]|e];
    reflexivity.
Qed.

Lemma login_server_logs_a_login (req : LoginRequest) :
  respects logs_a_login (login_server req).
Proof.
  intros w. unfold login_server.
  rewrite (bind_returned _ _ _ _ _ _ (select_user_run _ w)).
  destruct (db_online w) eqn:Honline; [|reflexivity].
  destruct (filter _ (Users w)) as [|user others]; [reflexivity|].
  unfold prepend, bind at 1, await.
  destruct (bcrypt_compare (body_password req) (password_hash user)) as [[|]|e];
    [|reflexivity|reflexivity].
  cbn [negb]. unfold write_Logs, bind, emit, get_world, ret. simpl.
  rewrite Honline. unfold world_of. simpl.
  split; [reflexivity|]. split; [reflexivity|].
  exists [user_id user]. reflexivity.
Qed.

(** [login] of [backend/auth.js] writes nothing; [login] of
    [backend/server.js] leaves folder and users alone and only appends
    ['login'] rows with zero counters to [Logs]. *)
Theorem login_writes (req : LoginRequest) :
  respects eq (login_auth req) /\ respects logs_a_login (login_server req).
Proof.
  split; [apply login_auth_unchanged | apply login_server_logs_a_login].
Qed.

(** Only the first row under a username counts: a password that matches a
    later row of that name, but not the first, is refused. *)
Theorem login_first_row_only (req : LoginRequest) (w : World)
    (first later : UserRow) (others : list UserRow) :
  db_online w = true ->
  filter (fun u => String.eqb (username u) (body_username req)) (Users w)
  = first :: others ->
  later ∈ others ->
  bcrypt_compare (body_password req) (password_hash later) = Fulfilled true ->
  bcrypt_compare (body_password req) (password_hash first) = Fulfilled false ->
  result_of (login_server req w)
  = Returned {| status := 400; body := ErrorOnly "Invalid credentials" |}
  /\ result_of (login_auth req w)
     = Returned {| status := 400; body := ErrorOnly "Invalid credentials" |}.
Proof.
  intros Honline Hfilter _ _ Hfirst. split.
  - unfold login_server.
    rewrite (bind_returned _ _ _ _ _ _ (select_user_run _ w)).
    rewrite Honline, Hfilter, Hfirst. reflexivity.
  - unfold login_auth.
    rewrite (bind_returned _ _ _ _ _ _ (select_user_run _ w)).
    rewrite Honline, Hfilter, Hfirst. reflexivity.
Qed.

End LoginMore.

Lemma login_answers_witness :
  login_server (ext := demo) {| body_username := "alice"; body_password := None |}
    fresh_world
  = (Threw "data and hash arguments required", fresh_world,
     [DbQuery "SELECT * FROM Users WHERE username = ?"]).
Proof.
  destruct (login_answers (ext := demo)
              {| body_username := "alice"; body_password := None |} fresh_world
              (login_server (ext := demo)) (or_introl eq_refl)) as [_ Hfirst].
  destruct (Hfirst alice [] eq_refl eq_refl) as [_ Hrejected].
  apply Hrejected. reflexivity.
Defined.

Lemma login_first_row_only_witness :
  result_of (login_server (ext := demo)
               {| body_username := "alice"; body_password := Some "let me in" |} twin_world)
  = Returned {| status := 400; body := ErrorOnly "Invalid credentials" |}
  /\ result_of (login_auth (ext := demo)
                  {| body_username := "alice"; body_password := Some "let me in" |}
                  twin_world)
     = Returned {| status := 400; body := ErrorOnly "Invalid credentials" |}.
Proof.
  apply (login_first_row_only (ext := demo)
           {| body_username := "alice"; body_password := Some "let me in" |} twin_world
           alice
           {| user_id := 2; username := "alice"; email := "eve@example.org";
              password_hash := "bcrypt:let me in" |}
           [{| user_id := 2; username := "alice"; email := "eve@example.org";
               password_hash := "bcrypt:let me in" |}]).
  - reflexivity.
  - reflexivity.
  - left.
  - reflexivity.
  - reflexivity.
Defined.

Lemma login_writes_witness :
  world_of (login_auth (ext := demo) alice_login fresh_world) = fresh_world
  /\ Logs (world_of (login_server (ext := demo) alice_login fresh_world))
     = [login_row 1].
Proof.
  destruct (login_writes (ext := demo) alice_login) as [Hauth Hserver].
  split.
  - symmetry. apply Hauth.
  - destruct (Hserver fresh_world) as (_ & _ & ids & Hlogs).
    vm_compute. reflexivity.
Defined.

(** ** Signup *)

Lemma insert_user_run (table : UsersTable) (name mail hashed : string) (w : World) :
  insert_user table name mail hashed w
  = (Returned
       (if db_online w
           && accepts table (Users w)
                {| user_id := next_user_id table (Users w); username := name;
                   email := mail; password_hash := hashed |}
        then Fulfilled tt else Rejected "Database error"),
     (if db_online w
         && accepts table (Users w)
              {| user_id := next_user_id table (Users w); username := name;
                 email := mail; password_hash := hashed |}
      then with_Users w
             (Users w ++
              [{| user_id := next_user_id table (Users w); username := name;
                  email := mail; password_hash := hashed |}])%list
      else w),
     [DbQuery "INSERT INTO Users (username, email, password_hash) VALUES (?, ?, ?)"]).
Proof.
  unfold insert_user, bind, emit, get_world. simpl.
  destruct (db_online w && accepts table (Users w) _); reflexivity.
Qed.

(** No row carries the name exactly when the query comes back empty. *)
Lemma no_row_of_name (name : string) (users : list UserRow) :
  filter (fun u => String.eqb (username u) name) users = []
  <-> name ∉ map username users.
Proof.
  change (map username users) with (username <$> users).
  rewrite list_elem_of_fmap. split.
  - intros Hfilter (u & -> & Hu).
    assert (Hin : u ∈ filter (fun u' => String.eqb (username u') (username u)) users).
    { apply list_elem_of_filter. split; [|exact Hu].
      apply Is_true_true, String.eqb_refl. }
    rewrite Hfilter in Hin. apply elem_of_nil in Hin. exact Hin.
  - intros Hnone. destruct (filter _ users) as [|u rest] eqn:Hfilter; [reflexivity|].
    exfalso. apply Hnone. destruct (selected_user _ _ _ _ Hfilter) as [Hin Hname].
    exists u. split; [symmetry; exact Hname | exact Hin].
Qed.

(** [signup] of [backend/server.js] refuses a username that has a row and
    changes nothing. *)
Theorem signup_server_existing_user (table : UsersTable) (hash : string -> string)
    (req : SignupRequest) (w : World) :
  db_online w = true ->
  new_username req ∈ map username (Users w) ->
  signup_server table hash req w
  = (Returned {| signup_status := 400;
                 signup_body := SignupError "User already exists" |},
     w, [DbQuery "SELECT * FROM Users WHERE username = ?"]).
Proof.
  intros Honline Hexists. unfold signup_server.
  rewrite (bind_returned _ _ _ _ _ _ (select_user_run _ w)), Honline.
  destruct (filter _ (Users w)) as [|u rest] eqn:Hfilter; [|reflexivity].
  exfalso. apply no_row_of_name in Hfilter. exact (Hfilter Hexists).
Qed.

(** [signup] of [backend/server.js] keeps usernames unique, whatever the
    table's own constraints are. *)
Theorem signup_server_keeps_names_unique (table : UsersTable)
    (hash : string -> string) (req : SignupRequest) (w : World) :
  NoDup (map username (Users w)) ->
  NoDup (map username (Users (world_of (signup_server table hash req w)))).
Proof.
  intros Hunique. unfold signup_server.
  rewrite (bind_returned _ _ _ _ _ _ (select_user_run _ w)).
  destruct (db_online w) eqn:Honline; [|exact Hunique].
  destruct (filter _ (Users w)) as [|u rest] eqn:Hfilter; [|exact Hunique].
  apply no_row_of_name in Hfilter.
  rewrite (bind_returned _ _ _ _ _ _ (insert_user_run _ _ _ _ w)).
  rewrite Honline. cbn [andb].
  destruct (accepts table (Users w) _); [|exact Hunique].
  unfold prepend, world_of. simpl. rewrite map_app. simpl.
  apply NoDup_app. split; [exact Hunique|]. split.
  - intros name Hname Hnew. apply list_elem_of_singleton in Hnew. subst name.
    exact (Hfilter Hname).
  - apply NoDup_singleton.
Qed.

Section SignupLogin.
Context {ext : Collaborators}.

(** Signing up under a free username and then logging in with the same
    password yields a token for the new row, provided the table accepts the
    row and [bcrypt.compare] recognises the hash [bcrypt.hash] made. *)
Theorem signup_then_login (table : UsersTable) (hash : string -> string)
    (req : SignupRequest) (w : World) :
  db_online w = true ->
  new_username req ∉ map username (Users w) ->
  accepts table (Users w)
    {| user_id := next_user_id table (Users w); username := new_username req;
       email := new_email req; password_hash := hash (new_password req) |} = true ->
  bcrypt_compare (Some (new_password req)) (hash (new_password req)) = Fulfilled true ->
  result_of (signup_server table hash req w)
  = Returned {| signup_status := 200; signup_body := Registered |}
  /\ result_of
       (login_server
          {| body_username := new_username req;
             body_password := Some (new_password req) |}
          (world_of (signup_server table hash req w)))
     = Returned {| status := 200;
                   body := LoginOk (jwt_sign (next_user_id table (Users w))) |}.
Proof.
  intros Honline Hfree Haccepts Hcompare.
  assert (Hsignup :
            signup_server table hash req w
            = (Returned {| signup_status := 200; signup_body := Registered |},
               with_Users w
                 (Users w ++
                  [{| user_id := next_user_id table (Users w);
                      username := new_username req; email := new_email req;
                      password_hash := hash (new_password req) |}])%list,
               [DbQuery "SELECT * FROM Users WHERE username = ?";
                DbQuery "INSERT INTO Users (username, email, password_hash) VALUES (?, ?, ?)"])).
  { unfold signup_server.
    rewrite (bind_returned _ _ _ _ _ _ (select_user_run _ w)), Honline.
    apply no_row_of_name in Hfree. rewrite Hfree.
    rewrite (bind_returned _ _ _ _ _ _ (insert_user_run _ _ _ _ w)).
    rewrite Honline, Haccepts. reflexivity. }
  rewrite Hsignup. split; [reflexivity|].
  unfold world_of. simpl. unfold login_server.
  rewrite (bind_returned _ _ _ _ _ _ (select_user_run _ _)).
  simpl. rewrite Honline, filter_app.
  apply no_row_of_name in Hfree. rewrite Hfree. simpl.
  rewrite filter_cons. simpl. rewrite String.eqb_refl. simpl.
  rewrite Hcompare. cbn [negb].
  unfold prepend, write_Logs, bind, emit, get_world. simpl.
  rewrite Honline. reflexivity.
Qed.

(** [signup] of [backend/auth.js] does not look for the username first:
    where the table accepts a second row under a taken name it answers
    'User registered', yet the new password cannot log in, because [login]
    compares with the first row of that name. *)
Theorem signup_auth_shadowed_account (table : UsersTable) (hash : string -> string)
    (req : SignupRequest) (w : World) (first : UserRow) (others : list UserRow) :
  db_online w = true ->
  filter (fun u => String.eqb (username u) (new_username req)) (Users w)
  = first :: others ->
  accepts table (Users w)
    {| user_id := next_user_id table (Users w); username := new_username req;
       email := new_email req; password_hash := hash (new_password req) |} = true ->
  bcrypt_compare (Some (new_password req)) (password_hash first) = Fulfilled false ->
  result_of (signup_auth table hash req w)
  = Returned {| signup_status := 200; signup_body := Registered |}
  /\ length (Users (world_of (signup_auth table hash req w)))
     = S (length (Users w))
  /\ result_of
       (login_auth
          {| body_username := new_username req;
             body_password := Some (new_password req) |}
          (world_of (signup_auth table hash req w)))
     = Returned {| status := 400; body := ErrorOnly "Invalid credentials" |}.
Proof.
  intros Honline Hfilter Haccepts Hcompare.
  assert (Hsignup :
            signup_auth table hash req w
            = (Returned {| signup_status := 200; signup_body := Registered |},
               with_Users w
                 (Users w ++
                  [{| user_id := next_user_id table (Users w);
                      username := new_username req; email := new_email req;
                      password_hash := hash (new_password req) |}])%list,
               [DbQuery "INSERT INTO Users (username, email, password_hash) VALUES (?, ?, ?)"])).
  { unfold signup_auth.
    rewrite (bind_returned _ _ _ _ _ _ (insert_user_run _ _ _ _ w)).
    rewrite Honline, Haccepts. reflexivity. }
  rewrite Hsignup. split; [reflexivity|].
  unfold world_of. simpl. split; [rewrite length_app; simpl; lia|].
  unfold login_auth.
  rewrite (bind_returned _ _ _ _ _ _ (select_user_run _ _)).
  simpl. rewrite Honline, filter_app, Hfilter. simpl.
  rewrite Hcompare. reflexivity.
Qed.

End SignupLogin.

Lemma signup_server_existing_user_witness :
  signup_server plain_table demo_hash alice_again fresh_world
  = (Returned {| signup_status := 400;
                 signup_body := SignupError "User already exists" |},
     fresh_world, [DbQuery "SELECT * FROM Users WHERE username = ?"]).
Proof.
  apply (signup_server_existing_user plain_table demo_hash alice_again fresh_world).
  - reflexivity.
  - left.
Defined.

Lemma signup_server_keeps_names_unique_witness :
  NoDup (map username
           (Users (world_of (signup_server plain_table demo_hash bob_signup
                               fresh_world)))).
Proof.
  apply (signup_server_keeps_names_unique plain_table demo_hash bob_signup fresh_world).
  simpl. apply NoDup_singleton.
Defined.

Lemma signup_then_login_witness :
  result_of (signup_server plain_table demo_hash bob_signup fresh_world)
  = Returned {| signup_status := 200; signup_body := Registered |}
  /\ result_of
       (login_server (ext := demo)
          {| body_username := "bob"; body_password := Some "tr0ub4dor" |}
          (world_of (signup_server plain_table demo_hash bob_signup fresh_world)))
     = Returned {| status := 200; body := LoginOk "token-2" |}.
Proof.
  apply (signup_then_login (ext := demo) plain_table demo_hash bob_signup fresh_world).
  - reflexivity.
  - simpl. intros Hin. apply list_elem_of_singleton in Hin. discriminate Hin.
  - reflexivity.
  - reflexivity.
Defined.

Lemma signup_auth_shadowed_account_witness :
  result_of (signup_auth plain_table demo_hash alice_again fresh_world)
  = Returned {| signup_status := 200; signup_body := Registered |}
  /\ length (Users (world_of (signup_auth plain_table demo_hash alice_again
                                fresh_world)))
     = 2%nat
  /\ result_of
       (login_auth (ext := demo)
          {| body_username := "alice"; body_password := Some "let me in" |}
          (world_of (signup_auth plain_table demo_hash alice_again fresh_world)))
     = Returned {| status := 400; body := ErrorOnly "Invalid credentials" |}.
Proof.
  apply (signup_auth_shadowed_account (ext := demo) plain_table demo_hash alice_again
           fresh_world alice []); reflexivity.
Defined.

(** ** What the flags say *)

Lemma flag_text_true_iff (b : bool) : JStr (flag_text b) = JStr "true" <-> b = true.
Proof. destruct b; split; intros H; try reflexivity; discriminate H. Qed.

(** In [backend/server.js], ['Face mask detected'] is ['true'] exactly when
    some body part named [FACE] carries an equipment detection of type
    [FACE_COVER]; likewise for helmet, vest and gloves.  A cover reported on
    a part of another name does not count. *)
Theorem cover_flags_meaning (person : Person) (index : nat) :
  (field "Face mask detected" (personResult_server person index) = Some (JStr "true")
   <-> exists bp ed,
         bp ∈ person_BodyParts person /\ bp_Name bp = "FACE"
         /\ ed ∈ bp_EquipmentDetections bp /\ ed_Type ed = "FACE_COVER")
  /\ (field "Helmet detected" (personResult_server person index) = Some (JStr "true")
      <-> exists bp ed,
            bp ∈ person_BodyParts person /\ bp_Name bp = "HEAD"
            /\ ed ∈ bp_EquipmentDetections bp /\ ed_Type ed = "HEAD_COVER")
  /\ (field "Protective vest detected" (personResult_server person index)
      = Some (JStr "true")
      <-> exists bp ed,
            bp ∈ person_BodyParts person /\ bp_Name bp = "BODY"
            /\ ed ∈ bp_EquipmentDetections bp /\ ed_Type ed = "BODY_COVER")
  /\ (field "Gloves detected" (personResult_server person index) = Some (JStr "true")
      <-> exists bp ed,
            bp ∈ person_BodyParts person /\ bp_Name bp = "HAND"
            /\ ed ∈ bp_EquipmentDetections bp /\ ed_Type ed = "HAND_COVER").
Proof.
  cbn [personResult_server field String.eqb Ascii.eqb Bool.eqb].
  split; [|split; [|split]];
    rewrite <- cover_detected_spec, <- flag_text_true_iff;
    (split; intros H; [injection H as H; rewrite H | rewrite H]; reflexivity).
Qed.

Lemma cover_flags_meaning_witness :
  field "Helmet detected" (personResult_server worker 0) = Some (JStr "true").
Proof.
  destruct (cover_flags_meaning worker 0) as (_ & Hhelmet & _).
  apply Hhelmet.
  exists {| bp_Name := "HEAD"; bp_Confidence := Some 0%Q;
            bp_EquipmentDetections :=
              [ {| ed_Type := "HEAD_COVER"; ed_Confidence := Some 0%Q |} ] |},
         {| ed_Type := "HEAD_COVER"; ed_Confidence := Some 0%Q |}.
  split; [right; left|]. split; [reflexivity|]. split; [left | reflexivity].
Defined.

(** [backend/server.js] looks for hands under the part name [HAND] and for
    the vest under [BODY].  For a person whose parts are named as the
    confidence variants expect them ([FACE], [HEAD], [LEFT_HAND],
    [RIGHT_HAND]) it reports no hands, no gloves and no vest, whatever those
    parts carry. *)
Theorem server_misses_sided_hands (person : Person) (index : nat) :
  (forall bp, bp ∈ person_BodyParts person ->
              bp_Name bp ∈ ["FACE"; "HEAD"; "LEFT_HAND"; "RIGHT_HAND"]) ->
  field "Hands detected" (personResult_server person index) = Some (JStr "false")
  /\ field "Gloves detected" (personResult_server person index) = Some (JStr "false")
  /\ field "Protective vest detected" (personResult_server person index)
     = Some (JStr "false").
Proof.
  intros Hnames.
  assert (Hno : forall name, name ∉ ["FACE"; "HEAD"; "LEFT_HAND"; "RIGHT_HAND"] ->
                             part_detected name person = false).
  { intros name Hname. apply not_true_iff_false. rewrite part_detected_spec.
    intros (bp & Hbp & <-). exact (Hname (Hnames bp Hbp)). }
  assert (Hnocover : forall name type,
             name ∉ ["FACE"; "HEAD"; "LEFT_HAND"; "RIGHT_HAND"] ->
             cover_detected name type person = false).
  { intros name type Hname. apply not_true_iff_false. intros Hcover.
    apply cover_implies_part in Hcover. rewrite (Hno name Hname) in Hcover.
    discriminate Hcover. }
  cbn [personResult_server field String.eqb Ascii.eqb Bool.eqb].
  rewrite (Hno "HAND"), (Hnocover "HAND" "HAND_COVER"),
    (Hnocover "BODY" "BODY_COVER");
    [repeat split | | |];
    intros Hin; apply list_elem_of_In in Hin; simpl in Hin;
    repeat (destruct Hin as [Hin|Hin]; [discriminate Hin|]); exact Hin.
Qed.

Lemma server_misses_sided_hands_witness :
  field "Hands detected" (personResult_server gloved_person 0) = Some (JStr "false")
  /\ field "Gloves detected" (personResult_server gloved_person 0) = Some (JStr "false")
  /\ field "Protective vest detected" (personResult_server gloved_person 0)
     = Some (JStr "false").
Proof.
  apply (server_misses_sided_hands gloved_person 0).
  intros bp Hbp. apply list_elem_of_In in Hbp. simpl in Hbp.
  destruct Hbp as [<-|[<-|[<-|[]]]]; apply list_elem_of_In; simpl; tauto.
Defined.

(** The three records agree on the fields they share: whichever variant is
    deployed, the person's index and confidence and the flags for face,
    face mask, head, helmet and protective vest read the same. *)
Theorem variants_agree_on_shared_fields (person : Person) (index : nat) :
  Forall
    (fun key =>
       is_Some (field key (personResult_render person index))
       /\ field key (personResult_server person index)
          = field key (personResult_render person index)
       /\ field key (personResult_confidence person index)
          = field key (personResult_render person index))
    (keys (personResult_render person index)).
Proof.
  cbn [keys personResult_render map fst].
  repeat constructor; eexists; reflexivity.
Qed.

(** In every variant, when the detector reports persons for an image,
    [analyzePPEInImage] returns one record per person, in the detector's
    order: the record at position [i], counted from 0, is built from the
    person at position [i], carries [i] as its ['Person ID'] and that
    person's confidence as ['Person detected']. *)
Theorem person_ids_are_positions {ext : Collaborators} (v : Variant)
    (imageBuffer : Buffer) (w : World) (ppeResult : DetectionResponse) :
  v ∈ [server_variant; render_variant; local_variant; lambda_variant] ->
  detectProtectiveEquipment imageBuffer = Fulfilled ppeResult ->
  exists records,
    result_of (analyzePPEInImage v imageBuffer w)
    = Returned {| Per_person_results := records |}
    /\ length records = length (Persons ppeResult)
    /\ forall i person,
         Persons ppeResult !! i = Some person ->
         records !! i = Some (personResult v person i)
         /\ field "Person ID" (personResult v person i) = Some (JNum (Z.of_nat i))
         /\ field "Person detected" (personResult v person i)
            = Some (JStr (toFixed2 (or_zero (person_Confidence person)) ++ "%")).
Proof.
  intros Hv Hdetect. rewrite analyzePPEInImage_run, Hdetect.
  eexists. split; [reflexivity|]. unfold perPersonResults. split.
  - apply length_imap.
  - intros i person Hperson. split.
    + rewrite list_lookup_imap, Hperson. reflexivity.
    + repeat (apply elem_of_cons in Hv as [-> | Hv]; [split; reflexivity|]).
      apply elem_of_nil in Hv. destruct Hv.
Qed.

Lemma person_ids_are_positions_witness :
  exists records,
    result_of (analyzePPEInImage (ext := demo) server_variant [x01] fresh_world)
    = Returned {| Per_person_results := records |}
    /\ length records = 1%nat
    /\ records !! 0%nat = Some (personResult_server worker 0)
    /\ field "Person ID" (personResult_server worker 0) = Some (JNum 0).
Proof.
  destruct (person_ids_are_positions (ext := demo) server_variant [x01] fresh_world
              {| Persons := [worker] |}) as (records & Hrun & Hlength & Hrecords).
  - left.
  - reflexivity.
  - exists records. split; [exact Hrun|]. split; [exact Hlength|].
    destruct (Hrecords 0%nat worker eq_refl) as (Hrecord & Hid & _).
    split; [exact Hrecord | exact Hid].
Defined.

(** ** Reading the token off the header *)

Lemma rev_app_append (cur : string) :
  forall s t, String.rev_app cur s ++ t = String.rev_app cur (s ++ t).
Proof.
  induction cur as [|x cur IH]; intros s t; [reflexivity|].
  simpl. rewrite IH. reflexivity.
Qed.

Lemma rev_push (x : ascii) (cur rest : string) :
  String.rev (String x cur) ++ rest = String.rev cur ++ String x rest.
Proof. unfold String.rev. simpl. rewrite !rev_app_append. reflexivity. Qed.

Lemma append_empty (s : string) : s ++ "" = s.
Proof.
  induction s as [|x s IH]; [reflexivity|].
  change (String x (s ++ "") = String x s). rewrite IH. reflexivity.
Qed.

(** A piece without the separator is kept whole ... *)
Lemma split_go_last (sep : ascii) (piece : string) :
  forall cur,
    has_char sep piece = false ->
    split_go sep cur piece = [String.rev cur ++ piece].
Proof.
  induction piece as [|x piece IH]; intros cur Hclean.
  - simpl. rewrite append_empty. reflexivity.
  - simpl in *. apply orb_false_iff in Hclean as [Hx Hclean].
    rewrite Hx, (IH _ Hclean), rev_push. reflexivity.
Qed.

(** ... and ends at the first separator. *)
Lemma split_go_piece (sep : ascii) (piece rest : string) :
  forall cur,
    has_char sep piece = false ->
    split_go sep cur (piece ++ String sep rest)
    = (String.rev cur ++ piece) :: split_go sep EmptyString rest.
Proof.
  induction piece as [|x piece IH]; intros cur Hclean.
  - simpl. rewrite Ascii.eqb_refl, append_empty. reflexivity.
  - simpl in *. apply orb_false_iff in Hclean as [Hx Hclean].
    rewrite Hx, (IH _ Hclean), rev_push. reflexivity.
Qed.

(** The handler takes the second word of the [Authorization] header,
    whatever the first word is: the scheme is not looked at, and anything
    after a further space is dropped.  A header of a single word yields no
    token. *)
Theorem bearer_token_second_word (scheme token : string) :
  has_char " " scheme = false ->
  has_char " " token = false ->
  bearer_token (Some (scheme ++ " " ++ token)) = Some token
  /\ (forall more, bearer_token (Some (scheme ++ " " ++ token ++ " " ++ more))
                   = Some token)
  /\ (scheme <> "" -> bearer_token (Some scheme) = None).
Proof.
  intros Hscheme Htoken.
  assert (Hnonempty : forall rest, String.eqb (scheme ++ String " " rest) "" = false).
  { intros rest. destruct scheme; reflexivity. }
  split; [|split].
  - change (scheme ++ " " ++ token) with (scheme ++ String " " token).
    unfold bearer_token. rewrite Hnonempty.
    unfold split. rewrite (split_go_piece _ _ _ _ Hscheme).
    rewrite (split_go_last _ _ _ Htoken). reflexivity.
  - intros more.
    change (scheme ++ " " ++ token ++ " " ++ more)
      with (scheme ++ String " " (token ++ String " " more)).
    unfold bearer_token. rewrite Hnonempty.
    unfold split. rewrite (split_go_piece _ _ _ _ Hscheme).
    rewrite (split_go_piece _ _ _ _ Htoken). reflexivity.
  - intros Hscheme_nonempty. unfold bearer_token.
    destruct (String.eqb scheme "") eqn:Hempty.
    + apply String.eqb_eq in Hempty. contradiction.
    + unfold split. rewrite (split_go_last _ _ _ Hscheme). reflexivity.
Qed.

Lemma bearer_token_second_word_witness :
  bearer_token (Some "Basic abc.def") = Some "abc.def"
  /\ bearer_token (Some "Basic abc.def trailing words") = Some "abc.def"
  /\ bearer_token (Some "Basic") = None.
Proof.
  destruct (bearer_token_second_word "Basic" "abc.def" eq_refl eq_refl)
    as (Hsecond & Hmore & Hsingle).
  split; [exact Hsecond|]. split; [exact (Hmore "trailing words")|].
  apply Hsingle. discriminate.
Defined.

(** ** Frame names *)

Lemma length_append (s t : string) :
  String.length (s ++ t) = (String.length s + String.length t)%nat.
Proof.
  induction s as [|x s IH]; [reflexivity|].
  change (S (String.length (s ++ t)) = S (String.length s + String.length t)).
  rewrite IH. reflexivity.
Qed.

Lemma append_cancel_suffix (t : string) :
  forall a b, a ++ t = b ++ t -> a = b.
Proof.
  induction a as [|x a IH]; intros [|y b] Heq.
  - reflexivity.
  - apply (f_equal String.length) in Heq.
    rewrite !length_append in Heq. simpl in Heq. lia.
  - apply (f_equal String.length) in Heq.
    rewrite !length_append in Heq. simpl in Heq. lia.
  - change (String x (a ++ t) = String y (b ++ t)) in Heq.
    injection Heq as -> Heq. rewrite (IH b Heq). reflexivity.
Qed.

Lemma substring_whole (t : string) : substring 0 (String.length t) t = t.
Proof.
  induction t as [|y t IH]; [reflexivity|].
  simpl. rewrite IH. reflexivity.
Qed.

Lemma substring_suffix (s t : string) :
  substring (String.length s) (String.length t) (s ++ t) = t.
Proof.
  induction s as [|x s IH]; [apply substring_whole | exact IH].
Qed.

(** [endsWith] accepts every string built by appending the suffix. *)
Lemma endsWith_append (s suffix : string) : endsWith (s ++ suffix) suffix = true.
Proof.
  unfold endsWith. rewrite length_append.
  replace (String.length suffix <=? String.length s + String.length suffix)%nat
    with true by (symmetry; apply Nat.leb_le; lia).
  replace (String.length s + String.length suffix - String.length suffix)%nat
    with (String.length s) by lia.
  rewrite substring_suffix. apply String.eqb_refl.
Qed.

(** Reading the padded digits back gives the number. *)
Lemma padded_digits_value (n : N) :
  option_map N.of_uint (NilEmpty.uint_of_string (pad_zeros 3 (decimal n))) = Some n.
Proof.
  assert (Hplain : option_map N.of_uint (NilEmpty.uint_of_string (decimal n)) = Some n).
  { unfold decimal. rewrite NilEmpty.usu. simpl. f_equal. apply DecimalN.Unsigned.of_to. }
  unfold pad_zeros.
  assert (Hzeros : forall k s,
             option_map N.of_uint (NilEmpty.uint_of_string s) = Some n ->
             option_map N.of_uint
               (NilEmpty.uint_of_string
                  (string_of_list_ascii (repeat "0"%char k) ++ s)) = Some n).
  { induction k as [|k IH]; intros s Hs; [exact Hs|].
    specialize (IH s Hs).
    change (string_of_list_ascii (repeat "0"%char (S k)) ++ s)
      with (String "0" (string_of_list_ascii (repeat "0"%char k) ++ s)).
    cbn [NilEmpty.uint_of_string].
    destruct (NilEmpty.uint_of_string (string_of_list_ascii (repeat "0"%char k) ++ s))
      as [d|]; [|discriminate IH].
    exact IH. }
  apply Hzeros. exact Hplain.
Qed.

(** Different frames get different names, also past frame 999. *)
Lemma frame_name_inj (i j : nat) : frame_name i = frame_name j -> i = j.
Proof.
  unfold frame_name. intros Heq.
  apply (String.app_inj "frame-") in Heq.
  apply append_cancel_suffix in Heq.
  pose proof (padded_digits_value (N.of_nat i)) as Hi.
  rewrite Heq, padded_digits_value in Hi. injection Hi as Hi.
  apply Nat2N.inj. symmetry. exact Hi.
Qed.

Lemma write_frames_elsewhere (frames : list Buffer) :
  forall (i : nat) (d : gmap string Buffer) (name : string),
    (forall k, (i <= k)%nat -> frame_name k <> name) ->
    write_frames i frames d !! name = d !! name.
Proof.
  induction frames as [|frame rest IH]; intros i d name Hother; [reflexivity|].
  simpl. rewrite IH by (intros k Hk; apply Hother; lia).
  apply lookup_insert_ne. apply Hother. lia.
Qed.

Lemma write_frames_lookup (frames : list Buffer) :
  forall (i j : nat) (d : gmap string Buffer) (frame : Buffer),
    frames !! j = Some frame ->
    write_frames i frames d !! frame_name (i + j) = Some frame.
Proof.
  induction frames as [|first rest IH]; intros i j d frame Hj; [discriminate Hj|].
  destruct j as [|j]; simpl in *.
  - injection Hj as ->. rewrite Nat.add_0_r.
    rewrite write_frames_elsewhere.
    + apply lookup_insert_eq.
    + intros k Hk Heq. apply frame_name_inj in Heq. lia.
  - replace (i + S j)%nat with (S i + j)%nat by lia. apply IH. exact Hj.
Qed.

Section Extraction.
Context {ext : Collaborators}.

(** After a successful [extractFrames], frame number [j] of the transcoder
    is stored under [frame-%03d.png] with [j] counted from 1, no frame
    overwrites another, every stored frame passes the [.png] filter of
    [analyzePPEInFrames], and files not named like frames are untouched. *)
Theorem extractFrames_stores_frames (v : Variant) (videoPath : string) (w : World)
    (video : Buffer) (frames : list Buffer) :
  folder w !! videoPath = Some video ->
  ffmpeg_frames video = Fulfilled frames ->
  (forall j frame,
     frames !! j = Some frame ->
     folder (world_of (extractFrames v videoPath w)) !! frame_name (S j) = Some frame
     /\ frame_name (S j) ∈ png_files (folder (world_of (extractFrames v videoPath w))))
  /\ (forall name,
        (forall k, frame_name k <> name) ->
        folder (world_of (extractFrames v videoPath w)) !! name = folder w !! name).
Proof.
  intros Hvideo Hframes.
  rewrite (extractFrames_run _ _ _ _ _ Hvideo Hframes).
  unfold world_of. simpl. split.
  - intros j frame Hj.
    pose proof (write_frames_lookup frames 1 j (folder w) frame Hj) as Hstored.
    split; [exact Hstored|].
    unfold png_files. apply list_elem_of_filter. split.
    + apply Is_true_true. unfold frame_name.
      change ("frame-" ++ pad_zeros 3 (decimal (N.of_nat (S j))) ++ ".png")
        with (("frame-" ++ pad_zeros 3 (decimal (N.of_nat (S j)))) ++ ".png").
      apply endsWith_append.
    + apply readdirSync_lists. exists frame. exact Hstored.
  - intros name Hother. apply write_frames_elsewhere. intros k _. apply Hother.
Qed.

End Extraction.

Lemma extractFrames_stores_frames_witness :
  folder (world_of (extractFrames (ext := demo) server_variant "uploaded_video.mp4"
                      stored_upload_world))
    !! "frame-002.png" = Some [x00]
  /\ "frame-002.png"
       ∈ png_files (folder (world_of (extractFrames (ext := demo) server_variant
                                        "uploaded_video.mp4" stored_upload_world)))
  /\ folder (world_of (extractFrames (ext := demo) server_variant "uploaded_video.mp4"
                         stored_upload_world))
       !! "uploaded_video.mp4" = Some [x01; x00; x02].
Proof.
  destruct (extractFrames_stores_frames (ext := demo) server_variant
              "uploaded_video.mp4" stored_upload_world [x01; x00; x02]
              [[x01]; [x00]; [x02]] eq_refl eq_refl)
    as [Hframes Hothers].
  destruct (Hframes 1%nat [x00] eq_refl) as [Hstored Hlisted].
  split; [exact Hstored|]. split; [exact Hlisted|].
  rewrite Hothers; [reflexivity|].
  intros k Heq. unfold frame_name in Heq. discriminate Heq.
Defined.

(** ** [backend/index.js] and the Lambda handler *)

Lemma returns_only_get_world {B : Type} (P : B -> Prop) (k : World -> M B) :
  (forall w, returns_only P (k w)) -> returns_only P (bind get_world k).
Proof. intros Hk. apply returns_only_bind. exact Hk. Qed.

Section IndexAndLambda.
Context {ext : Collaborators}.

(** Once a file is attached, the handler of [backend/index.js] never
    throws: it sends one of three failures or the detector's answer. *)
Theorem upload_index_answers (auth : option string) (upload : UploadedFile) :
  answers index_answer (upload_index {| authorization := auth; file := Some upload |}).
Proof.
  unfold upload_index. cbn [file].
  apply answers_try_catch.
  - apply returns_only_bind. intros _. apply returns_only_bind. intros w.
    destruct (folder w !! filename upload) as [video|].
    + apply returns_only_bind. intros _.
      destruct (ffmpeg_screenshot video) as [frame|e].
      * repeat (apply returns_only_bind; intros _).
        apply returns_only_try_catch.
        -- apply returns_only_bind. intros ppeData.
           apply returns_only_ret. right. right. right. eexists. reflexivity.
        -- intros e. apply returns_only_bind. intros _.
           apply returns_only_ret. right. right. left. reflexivity.
      * apply returns_only_bind. intros _.
        apply returns_only_ret. right. left. reflexivity.
    + apply returns_only_bind. intros _.
      apply returns_only_ret. left. reflexivity.
  - intros e.
    apply (answers_bind (fun _ => True)); [apply answers_emit|]. intros _ _.
    apply answers_ret. right. left. reflexivity.
Qed.

(** When the upload is on disk and both the transcoder and the detector
    succeed, [backend/index.js] relays the detector's answer for the
    screenshot as it is, and the screenshot stays in the folder under the
    upload's name up to its first dot followed by [_frame.jpg]. *)
Theorem upload_index_relays_detection (auth : option string) (upload : UploadedFile)
    (w : World) (video frame : Buffer) (detection : DetectionResponse) :
  folder w !! filename upload = Some video ->
  ffmpeg_screenshot video = Fulfilled frame ->
  detectProtectiveEquipment frame = Fulfilled detection ->
  result_of (upload_index {| authorization := auth; file := Some upload |} w)
  = Returned {| status := 200; body := UploadRaw detection |}
  /\ folder (world_of (upload_index {| authorization := auth; file := Some upload |} w))
       !! (default "" (split "." (filename upload) !! 0%nat) ++ "_frame.jpg")
     = Some frame.
Proof.
  intros Hvideo Hshot Hdetect.
  unfold upload_index, analyzePPEInImage_index, try_catch, bind, emit, get_world,
    set_world, await, ret.
  cbn [file]. simpl. rewrite Hvideo. simpl. rewrite Hshot. simpl.
  rewrite lookup_insert_eq. simpl. rewrite Hdetect. simpl.
  split; [reflexivity|]. unfold world_of. simpl. apply lookup_insert_eq.
Qed.

Variable s3_getObject : string -> string -> settled Buffer.
Variable decodeURIComponent : string -> settled string.

Lemma handler_answers (fuel : nat) (event : S3Event) (w : World) (key : string) :
  decodeURIComponent (plus_to_space (object_key event)) = Fulfilled key ->
  match result_of (handler s3_getObject decodeURIComponent fuel event w) with
  | Returned r => lambda_answer r
  | Threw _ => False
  | Diverged => True
  end.
Proof.
  intros Hdecode. unfold handler.
  erewrite bind_returned by (rewrite Hdecode; reflexivity).
  unfold prepend, result_of. simpl.
  apply (answers_try_catch lambda_answer).
  - repeat (apply returns_only_bind; intros ?).
    apply returns_only_ret. left. eexists. reflexivity.
  - intros e.
    apply (answers_bind (fun _ => True)); [apply answers_emit|]. intros _ _.
    apply answers_ret. right. eexists. reflexivity.
Qed.

(** Past the decoding, the handler fails to return only in the analysis of
    the frames it has just extracted. *)
Lemma handler_spins (fuel : nat) (event : S3Event) (w : World) (key : string) :
  decodeURIComponent (plus_to_space (object_key event)) = Fulfilled key ->
  result_of (handler s3_getObject decodeURIComponent fuel event w) = Diverged ->
  exists videoData frames,
    s3_getObject (bucket_name event) key = Fulfilled videoData
    /\ ffmpeg_frames videoData = Fulfilled frames
    /\ a_frame_spins fuel
         (with_folder w
            (write_frames 1 frames (<[basename key := videoData]> (folder w)))).
Proof.
  intros Hdecode Hrun. unfold handler in Hrun.
  erewrite bind_returned in Hrun by (rewrite Hdecode; reflexivity).
  assert (Hblock : forall run : outcome LambdaResult * World * list Event,
            result_of (prepend [] run) = result_of run)
    by (intros [[o w0] t0]; reflexivity).
  rewrite Hblock in Hrun. clear Hblock.
  apply try_catch_diverged in Hrun as [Hrun | (e & w1 & t1 & _ & Hrun)].
  2:{ exfalso. revert Hrun.
      apply (ends_unless_bind False); [apply ends_unless_emit|].
      intros _. apply ends_unless_ret. }
  apply bind_diverged in Hrun as [Hrun | (videoData & w1 & t1 & Hget & Hrun)].
  { exfalso. revert Hrun. apply ends_unless_await. }
  exists videoData.
  destruct (s3_getObject (bucket_name event) key) as [data|e] eqn:Hobject;
    [|discriminate Hget].
  injection Hget as -> <- _.
  apply bind_diverged in Hrun as [Hrun | ([] & w2 & t2 & Hwrite & Hrun)].
  { exfalso. revert Hrun.
    destruct (String.eqb (basename key) "" || String.eqb (basename key) "."
              || String.eqb (basename key) "..");
      [apply ends_unless_throw | apply ends_unless_writeFileSync]. }
  destruct (String.eqb (basename key) "" || String.eqb (basename key) "."
            || String.eqb (basename key) ".."); [discriminate Hwrite|].
  injection Hwrite as <- _.
  apply bind_diverged in Hrun as [Hrun | ([] & w3 & t3 & Hextract & Hrun)].
  { exfalso. revert Hrun. apply ends_unless_extractFrames. }
  apply extractFrames_returned in Hextract as (video & frames & Hvideo & Hframes & ->).
  rewrite folder_with_folder, lookup_insert_eq in Hvideo. injection Hvideo as <-.
  rewrite with_folder_twice, folder_with_folder in Hrun.
  exists frames. split; [reflexivity|]. split; [exact Hframes|].
  apply bind_diverged in Hrun as [Hrun | (ppeData & w4 & t4 & _ & Hrun)].
  { apply (analyzePPEInFrames_spins lambda_variant). exact Hrun. }
  exfalso. revert Hrun.
  apply (ends_unless_bind False); [apply ends_unless_emit|]. intros _.
  apply ends_unless_ret.
Qed.

(** The Lambda handler decodes the object key before its [try] block: a
    key it cannot decode makes the handler throw without touching
    anything.  Past that point it never throws, and whatever it returns is
    status 200 with the analyses or status 500 with the error's message.
    It fails to return only when, among the frames the transcoder has just
    written next to what [/tmp] held, there is one on which the re-encoding
    loop has not ended; with a codec whose round at width 640 and quality
    50 always gets within the ceiling it always returns.  A key whose base
    name is empty, [.] or [..] names a directory under [/tmp]: the answer
    is 500 and nothing is stored. *)
Theorem handler_outcomes (fuel : nat) (event : S3Event) (w : World) :
  (forall e,
     decodeURIComponent (plus_to_space (object_key event)) = Rejected e ->
     handler s3_getObject decodeURIComponent fuel event w = (Threw e, w, []))
  /\ (forall key,
        decodeURIComponent (plus_to_space (object_key event)) = Fulfilled key ->
        match result_of (handler s3_getObject decodeURIComponent fuel event w) with
        | Returned r => lambda_answer r
        | Threw _ => False
        | Diverged =>
            exists videoData frames,
              s3_getObject (bucket_name event) key = Fulfilled videoData
              /\ ffmpeg_frames videoData = Fulfilled frames
              /\ a_frame_spins fuel
                   (with_folder w
                      (write_frames 1 frames
                         (<[basename key := videoData]> (folder w))))
        end
        /\ (one_round_fits -> (1 <= fuel)%nat ->
            exists r,
              result_of (handler s3_getObject decodeURIComponent fuel event w)
              = Returned r
              /\ lambda_answer r)
        /\ (basename key ∈ [""; "."; ".."] ->
            world_of (handler s3_getObject decodeURIComponent fuel event w) = w
            /\ exists error,
                 result_of (handler s3_getObject decodeURIComponent fuel event w)
                 = Returned {| statusCode := 500; result_body := Failure error |})).
Proof.
  split.
  - intros e Hdecode. unfold handler, bind. rewrite Hdecode. reflexivity.
  - intros key Hdecode.
    pose proof (handler_answers fuel event w key Hdecode) as Hanswers.
    pose proof (handler_spins fuel event w key Hdecode) as Hspins.
    split; [|split].
    + destruct (result_of (handler s3_getObject decodeURIComponent fuel event w));
        [exact Hanswers | exact Hanswers | apply Hspins; reflexivity].
    + intros Hfits Hfuel.
      destruct (result_of (handler s3_getObject decodeURIComponent fuel event w))
        as [r|e|].
      * exists r. split; [reflexivity | exact Hanswers].
      * destruct Hanswers.
      * exfalso. destruct (Hspins eq_refl) as (videoData & frames & _ & _ & Hspin).
        exact (one_round_fits_ends fuel _ Hfits Hfuel Hspin).
    + intros Hdirectory.
      assert (Hname : String.eqb (basename key) "" || String.eqb (basename key) "."
                      || String.eqb (basename key) ".." = true).
      { repeat (apply elem_of_cons in Hdirectory as [-> | Hdirectory];
                [reflexivity|]).
        apply elem_of_nil in Hdirectory. destruct Hdirectory. }
      unfold handler.
      erewrite bind_returned by (rewrite Hdecode; reflexivity).
      unfold prepend, try_catch, bind, await, emit, ret, throw, world_of, result_of.
      rewrite Hname.
      destruct (s3_getObject (bucket_name event) key) as [videoData|e]; simpl;
        (split; [reflexivity | eexists; reflexivity]).
Qed.

End IndexAndLambda.

Lemma upload_index_relays_detection_witness :
  result_of (upload_index (ext := demo)
               {| authorization := None; file := Some three_second_video |}
               disk_upload_world)
  = Returned {| status := 200; body := UploadRaw {| Persons := [worker] |} |}
  /\ folder (world_of (upload_index (ext := demo)
                         {| authorization := None; file := Some three_second_video |}
                         disk_upload_world))
       !! "site_frame.jpg"
     = Some [x01].
Proof.
  apply (upload_index_relays_detection (ext := demo) None three_second_video
           disk_upload_world [x01; x00; x02] [x01] {| Persons := [worker] |});
    reflexivity.
Defined.

Lemma handler_outcomes_witness :
  handler (ext := shrinking_codec) demo_getObject demo_decode 1
    {| bucket_name := "uploads"; object_key := "videos/100%.mp4" |} fresh_world
  = (Threw "URI malformed", fresh_world, [])
  /\ (exists r,
        result_of
          (handler (ext := shrinking_codec) demo_getObject demo_decode 1
             {| bucket_name := "uploads"; object_key := "videos/site+visit.mp4" |}
             fresh_world)
        = Returned r
        /\ lambda_answer r)
  /\ world_of
       (handler (ext := shrinking_codec) demo_getObject demo_decode 1
          {| bucket_name := "uploads"; object_key := "videos/.." |} fresh_world)
     = fresh_world.
Proof.
  split; [|split].
  - destruct (handler_outcomes (ext := shrinking_codec) demo_getObject demo_decode 1
                {| bucket_name := "uploads"; object_key := "videos/100%.mp4" |}
                fresh_world) as [Hbad _].
    apply Hbad. reflexivity.
  - destruct (handler_outcomes (ext := shrinking_codec) demo_getObject demo_decode 1
                {| bucket_name := "uploads"; object_key := "videos/site+visit.mp4" |}
                fresh_world) as [_ Hgood].
    destruct (Hgood "videos/site visit.mp4" eq_refl) as (_ & Hreturns & _).
    apply Hreturns.
    + intros b smaller Hround. injection Hround as <-. reflexivity.
    + lia.
  - destruct (handler_outcomes (ext := shrinking_codec) demo_getObject demo_decode 1
                {| bucket_name := "uploads"; object_key := "videos/.." |}
                fresh_world) as [_ Hgood].
    destruct (Hgood "videos/.." eq_refl) as (_ & _ & Hdirectory).
    apply Hdirectory. right. right. left.
Defined.

Example handler_on_demo_object :
  result_of
    (handler (ext := demo) demo_getObject demo_decode 0
       {| bucket_name := "uploads"; object_key := "videos/site+visit.mp4" |}
       fresh_world)
  = Returned
      {| statusCode := 200;
         result_body :=
           UploadOk
             (omap (analysed (ext := demo) lambda_variant 0
                      (with_folder fresh_world
                         (write_frames 1 [[x01]; [x00]; [x02]]
                            {[ "site visit.mp4" := [x01; x00; x02] ]})))
                ["frame-001.png"; "frame-002.png"; "frame-003.png"]) |}.
Proof. vm_compute. reflexivity. Qed.

(** ** The log table over the life of the server *)

Lemma signup_server_writes_users_only (table : UsersTable) (hash : string -> string)
    (req : SignupRequest) (w : World) :
  Logs (world_of (signup_server table hash req w)) = Logs w
  /\ folder (world_of (signup_server table hash req w)) = folder w.
Proof.
  unfold signup_server.
  rewrite (bind_returned _ _ _ _ _ _ (select_user_run _ w)).
  destruct (db_online w) eqn:Honline; [|split; reflexivity].
  destruct (filter _ (Users w)) as [|u rest]; [|split; reflexivity].
  rewrite (bind_returned _ _ _ _ _ _ (insert_user_run _ _ _ _ w)).
  destruct (db_online w && accepts table (Users w) _); split; reflexivity.
Qed.

Section Served.
Context {ext : Collaborators}.

Lemma served_only_login_rows (request : ServerRequest) (w : World) :
  only_login_rows w -> only_login_rows (served request w).
Proof.
  unfold only_login_rows. intros Hrows.
  destruct request as [table hash req | req | fuel req]; simpl.
  - destruct (signup_server_writes_users_only table hash req w) as [-> _].
    exact Hrows.
  - destruct (login_server_logs_a_login req w) as (_ & _ & ids & ->).
    apply Forall_app. split; [exact Hrows|].
    apply Forall_forall. intros r Hr.
    change (map login_row ids) with (login_row <$> ids) in Hr.
    apply list_elem_of_fmap in Hr as (uid & -> & _).
    repeat split; reflexivity.
  - destruct (upload_server_only_upload_counters fuel req w) as (_ & _ & Hraised).
    rewrite (no_upload_rows_unchanged _ _ Hraised); [exact Hrows|].
    intros r Hr Hupload.
    rewrite Forall_forall in Hrows. destruct (Hrows r Hr) as [Hlogin _].
    rewrite Hlogin in Hupload. discriminate Hupload.
Qed.

(** [backend/server.js] never records an upload: its only statement that
    would insert an ['upload'] row is refused by the database (five
    columns, three values), and the counters are raised on ['upload'] rows
    only.  So a [Logs] table that starts with ['login'] rows at zero, or
    empty, holds nothing else after any sequence of signups, logins and
    uploads, however they end. *)
Theorem uploads_are_never_recorded (requests : list ServerRequest) :
  forall w, only_login_rows w -> only_login_rows (served_all requests w).
Proof.
  induction requests as [|request rest IH]; intros w Hrows; [exact Hrows|].
  simpl. apply IH, served_only_login_rows, Hrows.
Qed.

End Served.

Lemma uploads_are_never_recorded_witness :
  only_login_rows
    (served_all (ext := demo)
       [ LoginRequested alice_login;
         UploadRequested 0 (upload_of three_second_video);
         UploadRequested 0 no_file_request;
         SignupRequested plain_table demo_hash bob_signup;
         UploadRequested 0 (upload_of two_second_video) ]
       fresh_world).
Proof.
  apply (uploads_are_never_recorded (ext := demo)). constructor.
Defined.

Example logs_after_demo_requests :
  Logs (served_all (ext := demo)
          [ LoginRequested alice_login;
            UploadRequested 0 (upload_of three_second_video);
            UploadRequested 0 (upload_of two_second_video) ]
          fresh_world)
  = [login_row 1].
Proof. vm_compute. reflexivity. Qed.
